(** * Peterhoff uploader: normaliser, matcher, reconciler and batch orchestrator

    A shallow embedding of the Python sources
    [Uploader/main.py], [Uploader/liferay_uploader/categorizer.py],
    [Uploader/liferay_uploader/file_uploader.py] and
    [Uploader/liferay_uploader/config.py].

    Conventions.
    - A Python [str] is a list of Unicode code points ([N]).
    - A Python [dict] whose iteration order matters is an association list in
      insertion order.
    - Values decoded from JSON are terms of [Json]; Python's [None] is [JNull].
    - Code that talks to the Liferay server or to the local file system
      threads an explicit state made of an abstract world and the log of the
      remote calls issued so far. *)

From Stdlib Require Import ZArith NArith Ascii String DecimalString Lia.
From stdpp Require Import base decidable option list.

Local Open Scope N_scope.

(** ** Python strings *)

Abbreviation char := N (only parsing).
Abbreviation str := (list N) (only parsing).

(** ASCII literal to code points. *)
Definition lit (s : string) : str :=
  List.map N_of_ascii (list_ascii_of_string s).

Definition chr_dot : char := 46.        (* '.' *)
Definition chr_slash : char := 47.      (* '/' *)
Definition chr_backslash : char := 92.  (* '\' *)
Definition chr_newline : char := 10.

(** [bool(s)] for a string. *)
Definition nonempty {A} (s : list A) : bool :=
  match s with [] => false | _ => true end.

(** [str(n)] for an integer. *)
Definition str_of_Z (z : Z) : str := lit (NilZero.string_of_int (Z.to_int z)).

Module Text.

(** *** What [normalize_text] accepts

    [normalize_text] coerces every non-[str] argument with [str(text)].  The
    textual, integer, Boolean and [None] values are modelled; floats and
    the objects of other classes, whose [__str__] is code of its own, are
    not. *)
Inductive PyInput :=
| InStr (s : str)
| InInt (z : Z)
| InBool (b : bool)
| InNone.

(** The text of [x]: [x] itself for a [str], and what [str(x)] returns, when
    it returns, for the other values. *)
Definition py_str (x : PyInput) : str :=
  match x with
  | InStr s => s
  | InInt z => str_of_Z z
  | InBool true => lit "True"
  | InBool false => lit "False"
  | InNone => lit "None"
  end.

(** [sys.int_info.default_max_str_digits], the limit of CPython 3.11 on (and
    of the security releases of 3.7 to 3.10) on the digits of an integer
    that [str] converts.  The limit of an interpreter is a setting
    ([sys.set_int_max_str_digits], [PYTHONINTMAXSTRDIGITS]); [0] is no
    limit, as in the interpreters before. *)
Definition default_max_str_digits : nat := 4300.

(** The number of decimal digits of an integer, the sign left out. *)
Definition int_digits (z : Z) : nat := length (str_of_Z (Z.abs z)).

(** Whether [str(x)] raises: it raises [ValueError] on an integer of more
    digits than the limit, and returns on the other values modelled. *)
Definition str_raises (max_str_digits : nat) (x : PyInput) : bool :=
  match x with
  | InInt z =>
      (0 <? max_str_digits)%nat && (max_str_digits <? int_digits z)%nat
  | _ => false
  end.

(** [text if isinstance(text, str) else str(text)]; [None] when [str]
    raises. *)
Definition py_str_or_raise (max_str_digits : nat) (x : PyInput)
    : option str :=
  if str_raises max_str_digits x then None else Some (py_str x).

(** *** The character class of the regular expression

    [re.sub(r'[^a-zа-яё0-9]', '', text)]: a negated class made of three ranges
    and one single letter. *)
Inductive ClassItem :=
| Range (lo hi : char)
| Single (c : char).

Definition item_mem (c : char) (it : ClassItem) : bool :=
  match it with
  | Range lo hi => (lo <=? c) && (c <=? hi)
  | Single d => c =? d
  end.

Definition class_mem (cls : list ClassItem) (c : char) : bool :=
  existsb (item_mem c) cls.

(** [a-z], [а-я] (U+0430..U+044F), [ё] (U+0451), [0-9]. *)
Definition keep_class : list ClassItem :=
  [Range 97 122; Range 1072 1103; Single 1105; Range 48 57].

Definition allowed (c : char) : bool := class_mem keep_class c.

(** The characters of a normalised key, by their code points: [a-z], [а-я],
    [ё], [0-9]. *)
Definition is_key_char (c : char) : Prop :=
  97 <= c <= 122 \/ 1072 <= c <= 1103 \/ c = 1105 \/ 48 <= c <= 57.

(** [re.sub('[^cls]', '', text)]: scan left to right, every character outside
    the class is replaced by the empty string, the others are copied. *)
Fixpoint re_sub_negated_class (cls : list ClassItem) (text : str) : str :=
  match text with
  | [] => []
  | c :: rest =>
      if class_mem cls c then c :: re_sub_negated_class cls rest
      else [] ++ re_sub_negated_class cls rest
  end.

(** A lowercasing function for the letters of the Basic Latin and Cyrillic
    blocks: A-Z, U+0410..U+042F (А-Я) and U+0400..U+040F (Ѐ-Џ, with Ё). *)
Definition lower_char_basic (c : char) : char :=
  if (65 <=? c) && (c <=? 90) then c + 32
  else if (1040 <=? c) && (c <=? 1071) then c + 32
  else if (1024 <=? c) && (c <=? 1039) then c + 80
  else c.

Definition lower_basic (s : str) : str := List.map lower_char_basic s.

Section Normalizer.

(** [str.lower], Python's built-in Unicode lowercasing. *)
Variable lower : str -> str.

(** [normalize_text] of [main.py] and [categorizer.py] (the two copies are
    the same code), on the text of its argument: what it returns, when
    [str(text)] returns. *)
Definition normalize_text (text : PyInput) : str :=
  let text := py_str text in
  let text := lower text in
  let normalized := re_sub_negated_class keep_class text in
  normalized.

(** [normalize_text] as it is called, under an interpreter with the limit
    [max_str_digits]: an exception of [str(text)] is not caught; [None]
    stands for it. *)
Definition normalize_text_or_raise (max_str_digits : nat) (text : PyInput)
    : option str :=
  match py_str_or_raise max_str_digits text with
  | Some text =>
      let text := lower text in
      let normalized := re_sub_negated_class keep_class text in
      Some normalized
  | None => None
  end.

End Normalizer.

End Text.

(** ** [os.path] *)

Module Path.

(** [posixpath] or [ntpath], whichever [os.path] stands for. *)
Inductive Flavour := Posix | Nt.

Definition sep (fl : Flavour) : char :=
  match fl with Posix => chr_slash | Nt => chr_backslash end.

Definition altsep (fl : Flavour) : option char :=
  match fl with Posix => None | Nt => Some chr_slash end.

(** [p.rfind(c)] for a one-character [c]: the highest index of [c] in [p],
    or [-1]. *)
Fixpoint rfind (c : char) (p : str) : Z :=
  match p with
  | [] => (-1)%Z
  | x :: rest =>
      let r := rfind c rest in
      if (0 <=? r)%Z then (r + 1)%Z
      else if (x =? c)%N then 0%Z else (-1)%Z
  end.

(** [p[i:j]] for indices that are not negative. *)
Definition slice (p : str) (i j : Z) : str :=
  take (Z.to_nat j - Z.to_nat i) (drop (Z.to_nat i) p).

(** The [while filenameIndex < dotIndex] loop of [genericpath._splitext],
    with the number of remaining iterations as fuel: [Some] is the early
    [return], [None] is the loop running to its end. *)
Fixpoint skip_leading_dots (fuel : nat) (p : str) (extsep : char)
    (filenameIndex dotIndex : Z) : option (str * str) :=
  match fuel with
  | O => None
  | S fuel' =>
      if (filenameIndex <? dotIndex)%Z then
        if bool_decide (slice p filenameIndex (filenameIndex + 1) <> [extsep])
        then Some (slice p 0 dotIndex, drop (Z.to_nat dotIndex) p)
        else skip_leading_dots fuel' p extsep (filenameIndex + 1)%Z dotIndex
      else None
  end.

(** [genericpath._splitext(p, sep, altsep, extsep)]. *)
Definition _splitext (p : str) (sep : char) (altsep : option char)
    (extsep : char) : str * str :=
  let sepIndex := rfind sep p in
  let sepIndex :=
    match altsep with
    | Some a => Z.max sepIndex (rfind a p)
    | None => sepIndex
    end in
  let dotIndex := rfind extsep p in
  if (dotIndex >? sepIndex)%Z then
    let filenameIndex := (sepIndex + 1)%Z in
    match skip_leading_dots (Z.to_nat (dotIndex - filenameIndex)) p extsep
            filenameIndex dotIndex with
    | Some r => r
    | None => (p, [])
    end
  else (p, []).

(** [os.path.splitext]. *)
Definition splitext (fl : Flavour) (p : str) : str * str :=
  _splitext p (sep fl) (altsep fl) chr_dot.

(** A path separator of the flavour. *)
Definition is_sep (fl : Flavour) (c : char) : bool :=
  (c =? sep fl) || match altsep fl with Some a => c =? a | None => false end.

(** The text after the last path separator. *)
Fixpoint last_component (fl : Flavour) (p : str) : str :=
  match p with
  | [] => []
  | c :: rest =>
      if is_sep fl c || existsb (is_sep fl) rest then last_component fl rest
      else c :: rest
  end.

(** [posixpath.basename]: [p[p.rfind('/') + 1:]]. *)
Definition posix_basename (p : str) : str :=
  drop (Z.to_nat (rfind chr_slash p + 1)) p.

(** The words of the specification: "strips the file extension (only the
    trailing segment after the last '.')".  A text without a dot is left as
    it is. *)
Fixpoint strip_after_last_dot (p : str) : str :=
  match p with
  | [] => []
  | c :: rest =>
      if (c =? chr_dot) && negb (existsb (N.eqb chr_dot) rest) then []
      else c :: strip_after_last_dot rest
  end.

(** The paths [os.path.splitext] finds an extension in: the last component
    holds a dot, and a character other than a dot stands before its last
    dot. *)
Definition has_extension (fl : Flavour) (p : str) : bool :=
  let base := last_component fl p in
  existsb (N.eqb chr_dot) base &&
  existsb (fun c => negb (c =? chr_dot)) (strip_after_last_dot base).

End Path.

Module Names.

Section Names.

Variable lower : str -> str.
Variable fl : Path.Flavour.

(** [normalize_filename] of [main.py] and [categorizer.py]. *)
Definition normalize_filename (filename : str) : str :=
  let filename_without_ext := (Path.splitext fl filename).1 in
  Text.normalize_text lower (Text.InStr filename_without_ext).

(** [FileUploader._check_file_extension]; [extensions] is [None] or a list. *)
Definition _check_file_extension (filename : str)
    (extensions : option (list str)) : bool :=
  match extensions with
  | None | Some [] => true
  | Some extensions =>
      let file_ext := lower (Path.splitext fl filename).2 in
      bool_decide (file_ext ∈ extensions)
      || bool_decide (chr_dot :: file_ext ∈ extensions)
  end.

(** The words of the specification for the extension filter: a
    "case-insensitive suffix match against a configurable allow-list; empty
    allow-list means accept all". *)
Definition matches_entry_ignoring_case (filename entry : str) : bool :=
  bool_decide (lower entry `suffix_of` lower filename).

Definition extension_filter_spec (filename : str)
    (extensions : option (list str)) : bool :=
  match extensions with
  | None | Some [] => true
  | Some extensions => existsb (matches_entry_ignoring_case filename) extensions
  end.

End Names.

End Names.

(** ** The matcher *)

Module Matcher.

(** [b.startswith(a)]. *)
Fixpoint startswith (a b : str) : bool :=
  match a, b with
  | [], _ => true
  | _ :: _, [] => false
  | x :: a', y :: b' => (x =? y) && startswith a' b'
  end.

(** [a in b] for two strings: [a] occurs in [b] at some position. *)
Fixpoint str_in (a b : str) : bool :=
  startswith a b ||
  match b with
  | [] => false
  | _ :: b' => str_in a b'
  end.

(** A [dict] with string keys, as the list of its items in insertion order. *)
Definition dict (V : Type) : Type := list (str * V).

(** [k in d]. *)
Definition dict_contains {V} (k : str) (d : dict V) : bool :=
  existsb (fun item => bool_decide (item.1 = k)) d.

(** [d[k]]; [None] stands for [KeyError]. *)
Fixpoint dict_getitem {V} (k : str) (d : dict V) : option V :=
  match d with
  | [] => None
  | (k', v) :: rest => if bool_decide (k' = k) then Some v else dict_getitem k rest
  end.

(** [d[k] = v]: an existing key keeps its place, a new key goes last. *)
Fixpoint dict_setitem {V} (k : str) (v : V) (d : dict V) : dict V :=
  match d with
  | [] => [(k, v)]
  | (k', v') :: rest =>
      if bool_decide (k' = k) then (k, v) :: rest
      else (k', v') :: dict_setitem k v rest
  end.

(** The loop of [move_files_based_on_excel] that fills
    [excel_names_normalized_dict]: a name is stored under its normalised form
    when something is left of it, a later name taking the place of an earlier
    one with the same key. *)
Definition build_index (lower : str -> str) (excel_names : list str)
    : dict str :=
  fold_left
    (fun d name =>
       let normalized := Text.normalize_text lower (Text.InStr name) in
       if nonempty normalized then dict_setitem normalized name d else d)
    excel_names [].

(** The [for excel_normalized, excel_original in d.items()] loop of
    [find_matching_name]. *)
Fixpoint scan_items {V} (file_normalized : str) (items : dict V) : option V :=
  match items with
  | [] => None
  | (excel_normalized, excel_original) :: rest =>
      if str_in file_normalized excel_normalized
         || str_in excel_normalized file_normalized
      then Some excel_original
      else scan_items file_normalized rest
  end.

(** [categorizer.find_matching_name]; the result [None] is Python's [None]. *)
Definition find_matching_name {V} (file_normalized : str)
    (excel_names_normalized_dict : dict V) : option V :=
  if dict_contains file_normalized excel_names_normalized_dict
  then dict_getitem file_normalized excel_names_normalized_dict
  else scan_items file_normalized excel_names_normalized_dict.

(** An entry of [LiferayFileUploader.descriptions]. *)
Record DescEntry := {
  original_name : str;
  description : str;
  excel_row : nat
}.

(** The loop of [find_description_for_file]. *)
Fixpoint scan_descriptions (file_norm : str) (items : dict DescEntry)
    : option str :=
  match items with
  | [] => None
  | (norm_name, data) :: rest =>
      if str_in file_norm norm_name || str_in norm_name file_norm
      then Some (description data)
      else scan_descriptions file_norm rest
  end.

(** [LiferayFileUploader.find_description_for_file] of [main.py]. *)
Definition find_description_for_file (lower : str -> str) (fl : Path.Flavour)
    (descriptions : dict DescEntry) (filename : str) : option str :=
  let file_norm := Names.normalize_filename lower fl filename in
  if dict_contains file_norm descriptions
  then description <$> dict_getitem file_norm descriptions
  else scan_descriptions file_norm descriptions.

(** The [while] loop of [find_partial_matches]: how far [file_norm[i:]] and
    [excel_norm[j:]] agree. *)
Fixpoint common_prefix_len (a b : str) : nat :=
  match a, b with
  | x :: a', y :: b' => if x =? y then S (common_prefix_len a' b') else O
  | _, _ => O
  end.

(** [for j in range(len(excel_norm))], on the text from [j] on. *)
Fixpoint scan_excel_positions (file_suffix excel_suffix : str)
    (common_len : nat) : nat :=
  match excel_suffix with
  | [] => common_len
  | _ :: rest =>
      let k := common_prefix_len file_suffix excel_suffix in
      scan_excel_positions file_suffix rest
        (if (common_len <? k)%nat then k else common_len)
  end.

(** [for i in range(len(file_norm))], on the text from [i] on. *)
Fixpoint scan_file_positions (file_suffix excel_norm : str)
    (common_len : nat) : nat :=
  match file_suffix with
  | [] => common_len
  | _ :: rest =>
      scan_file_positions rest excel_norm
        (scan_excel_positions file_suffix excel_norm common_len)
  end.

(** The score [common_len] of one reference key. *)
Definition common_len_with (file_norm excel_norm : str) : nat :=
  if str_in file_norm excel_norm then length file_norm
  else if str_in excel_norm file_norm then length excel_norm
  else scan_file_positions file_norm excel_norm O.

(** The loop of [find_partial_matches] over the reference keys, for one
    file. *)
Fixpoint best_match_loop {V} (file_norm : str) (items : dict V)
    (best_match : option (V * str * nat)) (best_score : nat)
    : option (V * str * nat) * nat :=
  match items with
  | [] => (best_match, best_score)
  | (excel_norm, excel_orig) :: rest =>
      let common_len := common_len_with file_norm excel_norm in
      if (best_score <? common_len)%nat
      then best_match_loop file_norm rest
             (Some (excel_orig, excel_norm, common_len)) common_len
      else best_match_loop file_norm rest best_match best_score
  end.

(** What [find_partial_matches] records for one file: the best reference
    key, if it shares three characters or more. *)
Definition partial_match {V} (file_norm : str) (index : dict V)
    : option (V * str * nat) :=
  let (best_match, best_score) := best_match_loop file_norm index None O in
  match best_match with
  | Some m => if (3 <=? best_score)%nat then Some m else None
  | None => None
  end.

(** The substring relation of the fallback, stated on the texts. *)
Definition occurs_in (a b : str) : Prop := exists l r, b = l ++ a ++ r.

Definition related (a b : str) : Prop := occurs_in a b \/ occurs_in b a.

End Matcher.

(** ** Values decoded from JSON, and the calls made to the server *)

Module Remote.

(** What [response.json()] (or [response.text], or [None]) can be; JSON numbers
    are integers here. *)
#[warnings="-register-all"]
Inductive Json :=
| JNull
| JBool (b : bool)
| JNum (z : Z)
| JStr (s : str)
| JArr (items : list Json)
| JObj (fields : list (str * Json)).

(** [bool(j)]. *)
Definition truthy (j : Json) : bool :=
  match j with
  | JNull => false
  | JBool b => b
  | JNum z => negb (z =? 0)%Z
  | JStr s => nonempty s
  | JArr items => nonempty items
  | JObj fields => nonempty fields
  end.

(** Lookup in a [dict] decoded from a JSON object. *)
Fixpoint obj_lookup (fields : list (str * Json)) (k : str) : option Json :=
  match fields with
  | [] => None
  | (k', v) :: rest => if bool_decide (k' = k) then Some v else obj_lookup rest k
  end.

(** [d.get(k)] and [d.get(k, default)]. *)
Definition obj_get (fields : list (str * Json)) (k : str) : Json :=
  default JNull (obj_lookup fields k).

Definition obj_get_default (fields : list (str * Json)) (k : str) (d : Json)
    : Json :=
  default d (obj_lookup fields k).

(** [j == s] for a string [s]. *)
Definition eq_str (j : Json) (s : str) : bool :=
  match j with
  | JStr t => bool_decide (t = s)
  | _ => false
  end.

(** The four JSON web-service methods the uploader calls, with their
    parameters. *)
Inductive Call :=
| GetFileEntries (repositoryId folderId : Z)
| UpdateFileEntry (fileEntryId : Json) (description : str)
| DeleteFileEntry (fileEntryId : Json)
| AddFileEntry (repositoryId folderId : Z)
    (sourceFileName mimeType title description changeLog file : str).

(** The collaborators of [FileUploader]: the server behind
    [LiferayClient.call_jsonws] (which catches every exception and returns
    [None]), the local file system, and the library functions whose results
    the code only passes along. *)
Record Env := {
  World : Type;
  call_jsonws : Call -> World -> Json * World;
  (** [os.path.exists] *)
  path_exists : str -> World -> bool;
  (** [base64.b64encode(open(p, 'rb').read()).decode('utf-8')]; [None] when
      opening or reading raises *)
  read_base64 : str -> World -> option str;
  (** [mimetypes.guess_type(p)[0]] *)
  guess_type : str -> option str;
  (** [os.path.basename] *)
  basename : str -> str;
  flavour : Path.Flavour;
  (** [template.format(filename=..., index=..., total=...)]; [None] when it
      raises *)
  format_template : str -> str -> nat -> nat -> option str
}.

(** The state threaded through the uploader: the world and the calls issued
    so far, oldest first. *)
Record St (E : Env) := mkSt {
  world : World E;
  calls : list Call
}.

Arguments mkSt {E} _ _.
Arguments world {E} _.
Arguments calls {E} _.

Definition M (E : Env) (A : Type) : Type := St E -> A * St E.

Definition ret {E A} (a : A) : M E A := fun s => (a, s).

Definition bind {E A B} (m : M E A) (k : A -> M E B) : M E B :=
  fun s => let (a, s') := m s in k a s'.

(** Reading the world without changing it. *)
Definition ask {E A} (f : World E -> A) : M E A := fun s => (f (world s), s).

(** [self.client.call_jsonws(method, params)]. *)
Definition client_call {E} (c : Call) : M E Json :=
  fun s =>
    let (r, w) := call_jsonws E c (world s) in
    (r, mkSt w (calls s ++ [c])).

(** A result that is a dict or counts as false, the two kinds of answer the
    batch loop can take. *)
Definition dict_or_falsy (j : Json) : Prop :=
  match j with
  | JObj _ => True
  | _ => truthy j = false
  end.

(** A server that answers [dlapp/add-file-entry] with a JSON object or with
    nothing. *)
Definition answers_add_with_dict (E : Env) : Prop :=
  forall site_id folder_id name mime title description log content w,
    dict_or_falsy
      (call_jsonws E
         (AddFileEntry site_id folder_id name mime title description log content)
         w).1.

(** The outcome of code that can raise. *)
Inductive Exc (A : Type) :=
| Ok (a : A)
| Raised.

Arguments Ok {A} _.
Arguments Raised {A}.

End Remote.

Declare Scope uploader_scope.
Delimit Scope uploader_scope with upl.

Notation "x <- m ;; k" := (Remote.bind m (fun x => k))
  (at level 100, m at next level, right associativity) : uploader_scope.
Notation "m ;;; k" := (Remote.bind m (fun _ => k))
  (at level 100, right associativity) : uploader_scope.

(** ** The reconciler: [FileUploader] up to [_upload_file_internal] *)

Module Reconciler.

Import Remote.

Local Open Scope uploader_scope.

(** The value of an [Optional[Dict]] variable. *)
Definition as_json (d : option (list (str * Json))) : Json :=
  match d with
  | Some fields => JObj fields
  | None => JNull
  end.

(** [d.get(k)] on a variable that holds a dict when it is read. *)
Definition entry_get (d : option (list (str * Json))) (k : str) : Json :=
  match d with
  | Some fields => obj_get fields k
  | None => JNull
  end.

(** The [for file_entry in result] loop of [check_file_exists]; an entry that
    is not a dict has no [get] and raises. *)
Fixpoint scan_entries (fl : Path.Flavour) (filename : str) (entries : list Json)
    : Exc (option (list (str * Json))) :=
  match entries with
  | [] => Ok None
  | JObj file_entry :: rest =>
      if eq_str (obj_get file_entry (lit "title")) (Path.splitext fl filename).1
         || eq_str (obj_get file_entry (lit "name")) filename
      then Ok (Some file_entry)
      else scan_entries fl filename rest
  | _ :: _ => Raised
  end.

Section Reconciler.

Variable E : Env.

(** [FileUploader.check_file_exists]. *)
Definition check_file_exists (site_id folder_id : Z) (filename : str)
    : M E (option (list (str * Json))) :=
  result <- client_call (GetFileEntries site_id folder_id) ;;
  ret (match result with
       | JArr items =>
           if truthy result then
             match scan_entries (flavour E) filename items with
             | Ok found => found
             | Raised => None
             end
           else None
       | _ => None
       end).

(** [FileUploader.update_file_description]. *)
Definition update_file_description (file_entry_id : Json) (description : str)
    : M E bool :=
  result <- client_call (UpdateFileEntry file_entry_id description) ;;
  ret (truthy result).

(** [FileUploader.delete_file]. *)
Definition delete_file (file_entry_id : Json) : M E bool :=
  result <- client_call (DeleteFileEntry file_entry_id) ;;
  ret (truthy result).

(** [FileUploader._get_mime_type]; the cache only saves calls of
    [mimetypes.guess_type]. *)
Definition _get_mime_type (file_path : str) : str :=
  match guess_type E file_path with
  | Some mime_type =>
      if nonempty mime_type then mime_type else lit "application/octet-stream"
  | None => lit "application/octet-stream"
  end.

(** [FileUploader._upload_file_internal]; every exception ends in
    [return None]. *)
Definition _upload_file_internal (file_path : str) (site_id folder_id : Z)
    (description change_log : str) : M E Json :=
  let file_name := basename E file_path in
  content <- ask (read_base64 E file_path) ;;
  match content with
  | None => ret JNull
  | Some file_content =>
      let mime_type := _get_mime_type file_path in
      result <- client_call
        (AddFileEntry site_id folder_id file_name mime_type
           (Path.splitext (flavour E) file_name).1 description change_log
           file_content) ;;
      if truthy result then
        if nonempty description then
          match result with
          | JObj fields =>
              if negb (truthy (obj_get fields (lit "description"))) then
                update_file_description
                  (obj_get fields (lit "fileEntryId")) description ;;;
                ret result
              else ret result
          | _ => ret JNull
          end
        else ret result
      else ret JNull
  end.

(** [FileUploader.upload_or_replace_file]; the logging calls and
    [os.path.getsize], whose value is only logged, are left out. *)
Definition upload_or_replace_file (file_path : str) (site_id folder_id : Z)
    (description : str) (replace_existing : bool) (change_log : str)
    : M E Json :=
  present <- ask (path_exists E file_path) ;;
  if negb present then ret JNull
  else
    let file_name := basename E file_path in
    existing_file <- check_file_exists site_id folder_id file_name ;;
    (if truthy (as_json existing_file) && replace_existing
     then delete_file (entry_get existing_file (lit "fileEntryId")) ;;; ret tt
     else ret tt) ;;;
    result <- _upload_file_internal file_path site_id folder_id
                description change_log ;;
    if negb (truthy result) && truthy (as_json existing_file)
       && negb replace_existing
    then
      if nonempty description then
        update_file_description
          (entry_get existing_file (lit "fileEntryId")) description ;;;
        ret (as_json existing_file)
      else ret result
    else ret result.

End Reconciler.

End Reconciler.

(** ** The batch orchestrator: [FileUploader.upload_files_batch] *)

Module Batch.

Import Remote.

Local Open Scope uploader_scope.

(** The [result_info] dict of a successful upload. *)
Record ResultInfo := {
  file_path : str;
  file_name : str;
  file_entry_id : Json;
  uuid : Json;
  title : Json;
  description : Json;
  was_replaced : Json
}.

(** The [results] dict. *)
Record Results := {
  successful : list ResultInfo;
  failed : list str;
  skipped : list str;
  replaced : list ResultInfo
}.

Definition empty_results : Results :=
  {| successful := []; failed := []; skipped := []; replaced := [] |}.

Definition append_successful (x : ResultInfo) (r : Results) : Results :=
  {| successful := successful r ++ [x]; failed := failed r;
     skipped := skipped r; replaced := replaced r |}.

Definition append_failed (x : str) (r : Results) : Results :=
  {| successful := successful r; failed := failed r ++ [x];
     skipped := skipped r; replaced := replaced r |}.

Definition append_skipped (x : str) (r : Results) : Results :=
  {| successful := successful r; failed := failed r;
     skipped := skipped r ++ [x]; replaced := replaced r |}.

Definition append_replaced (x : ResultInfo) (r : Results) : Results :=
  {| successful := successful r; failed := failed r;
     skipped := skipped r; replaced := replaced r ++ [x] |}.

(** [f"Пакетная загрузка, файл {i} из {len(files_list)}"]. *)
Definition batch_change_log (i total : nat) : str :=
  [1055; 1072; 1082; 1077; 1090; 1085; 1072; 1103; 32; 1079; 1072; 1075;
   1088; 1091; 1079; 1082; 1072; 44; 32; 1092; 1072; 1081; 1083; 32]
  ++ str_of_Z (Z.of_nat i) ++ [32; 1080; 1079; 32] ++ str_of_Z (Z.of_nat total).

(** [existing_file and replace_existing]. *)
Definition is_replacement_value (existing_file : option (list (str * Json)))
    (replace_existing : bool) : Json :=
  if truthy (Reconciler.as_json existing_file) then JBool replace_existing
  else Reconciler.as_json existing_file.

Section Batch.

Variable E : Env.
Variable site_id folder_id : Z.
Variable description_template : str.
Variable replace_existing : bool.
(** [metadata]: [None], or a dict from file names to dicts. *)
Variable metadata : option (Matcher.dict (Matcher.dict str)).

(** The description of one file: the template, then the metadata; [None]
    when [str.format] raises. *)
Definition build_description (file_name : str) (i total : nat) : option str :=
  description ←
    (if nonempty description_template
     then format_template E description_template file_name i total
     else Some []);
  match metadata with
  | Some md =>
      if nonempty md && Matcher.dict_contains file_name md then
        match Matcher.dict_getitem file_name md with
        | Some file_meta =>
            match Matcher.dict_getitem (lit "description") file_meta with
            | Some d =>
                if nonempty description
                then Some (description ++ [chr_newline] ++ d)
                else Some d
            | None => Some description
            end
        | None => Some description
        end
      else Some description
  | None => Some description
  end.

(** The body of [for i, file_path in enumerate(files_list, 1)], on the files
    still to come; [total] is [len(files_list)].  [time.sleep] leaves the
    state as it is. *)
Fixpoint batch_loop (files : list str) (i total : nat) (results : Results)
    : M E (Exc Results) :=
  match files with
  | [] => ret (Ok results)
  | file_path :: rest =>
      present <- ask (path_exists E file_path) ;;
      if negb present then
        batch_loop rest (S i) total (append_skipped file_path results)
      else
        let file_name := basename E file_path in
        match build_description file_name i total with
        | None => ret Raised
        | Some description =>
            existing_file <-
              Reconciler.check_file_exists E site_id folder_id file_name ;;
            let is_replacement :=
              is_replacement_value existing_file replace_existing in
            result <-
              Reconciler.upload_or_replace_file E file_path site_id folder_id
                description replace_existing (batch_change_log i total) ;;
            if truthy result then
              match result with
              | JObj fields =>
                  let result_info :=
                    {| file_path := file_path;
                       file_name := file_name;
                       file_entry_id := obj_get fields (lit "fileEntryId");
                       uuid := obj_get fields (lit "uuid");
                       title := obj_get fields (lit "title");
                       description :=
                         obj_get_default fields (lit "description")
                           (JStr description);
                       was_replaced := is_replacement |} in
                  let results := append_successful result_info results in
                  let results :=
                    if truthy is_replacement
                    then append_replaced result_info results
                    else results in
                  batch_loop rest (S i) total results
              | _ => ret Raised
              end
            else
              batch_loop rest (S i) total (append_failed file_path results)
        end
  end.

(** [FileUploader.upload_files_batch]. *)
Definition upload_files_batch (files_list : list str) : M E (Exc Results) :=
  batch_loop files_list 1 (length files_list) empty_results.

End Batch.

(** The report has no list of new uploads.  These are the successful
    entries that the loop does not mark as replacements, for which it takes
    the branch that logs "Загружен новый файл": the files uploaded anew, and
    also the files whose upload failed and that [upload_or_replace_file]
    answered with the existing document. *)
Definition logged_as_new (r : Results) : list ResultInfo :=
  List.filter (fun x => negb (truthy (was_replaced x))) (successful r).

End Batch.

(** ** A sample server and file system *)

Module Sample.

Import Remote.

(** A small in-memory server: the documents of one folder, the local files
    with their encoded content, the file names whose upload the server
    refuses, and switches for the other failures to try. *)
Record Sim := {
  docs : list Json;
  local_files : Matcher.dict str;
  next_id : Z;
  refused : list str;
  keeps_description : bool;
  update_ok : bool;
  delete_ok : bool
}.

Definition has_id (id : Json) (doc : Json) : bool :=
  match doc, id with
  | JObj fields, JNum z =>
      match obj_get fields (lit "fileEntryId") with
      | JNum z' => (z =? z')%Z
      | _ => false
      end
  | _, _ => false
  end.

Definition sim_call (c : Call) (w : Sim) : Json * Sim :=
  match c with
  | GetFileEntries _ _ => (JArr (docs w), w)
  | UpdateFileEntry id _ =>
      (if update_ok w then JObj [(lit "fileEntryId", id)] else JNull, w)
  | DeleteFileEntry id =>
      if delete_ok w then
        (JBool true,
         {| docs := List.filter (fun d => negb (has_id id d)) (docs w);
            local_files := local_files w; next_id := next_id w;
            refused := refused w; keeps_description := keeps_description w;
            update_ok := update_ok w; delete_ok := delete_ok w |})
      else (JNull, w)
  | AddFileEntry _ _ name _ title description _ _ =>
      if negb (bool_decide (name ∈ refused w)) then
        let doc :=
          JObj [(lit "fileEntryId", JNum (next_id w));
                (lit "title", JStr title);
                (lit "name", JStr name);
                (lit "description",
                 JStr (if keeps_description w then description else []))] in
        (doc,
         {| docs := docs w ++ [doc];
            local_files := local_files w; next_id := (next_id w + 1)%Z;
            refused := refused w; keeps_description := keeps_description w;
            update_ok := update_ok w; delete_ok := delete_ok w |})
      else (JNull, w)
  end.

(** The sample environment: POSIX paths, no MIME guess, and templates
    without replacement fields, which [str.format] returns as they are. *)
Definition sim_env : Env :=
  {| World := Sim;
     call_jsonws := sim_call;
     path_exists := fun p w => Matcher.dict_contains p (local_files w);
     read_base64 := fun p w => Matcher.dict_getitem p (local_files w);
     guess_type := fun _ => None;
     basename := Path.posix_basename;
     flavour := Path.Posix;
     format_template := fun template _ _ _ => Some template |}.

Definition start (w : Sim) : St sim_env := mkSt (w : World sim_env) [].

(** A stored document with the title [foto1]. *)
Definition doc_foto1 : list (str * Json) :=
  [(lit "fileEntryId", JNum 7); (lit "title", JStr (lit "foto1"));
   (lit "name", JStr (lit "foto1.jpg"));
   (lit "description", JStr (lit "old"))].

Definition three_files : Matcher.dict str :=
  [(lit "/in/foto1.jpg", lit "QQ=="); (lit "/in/foto2.png", lit "Qg==");
   (lit "/in/foto3.png", lit "Qw==")].

(** The server holds [foto1] and refuses every upload. *)
Definition refusing_server : Sim :=
  {| docs := [JObj doc_foto1];
     local_files := three_files;
     next_id := 8;
     refused := [lit "foto1.jpg"; lit "foto2.png"; lit "foto3.png"];
     keeps_description := true; update_ok := true; delete_ok := true |}.

(** The server holds [foto1], accepts uploads but for [foto2.png], drops the
    description of what it stores and refuses description updates. *)
Definition forgetful_server : Sim :=
  {| docs := [JObj doc_foto1];
     local_files := three_files;
     next_id := 8;
     refused := [lit "foto2.png"];
     keeps_description := false; update_ok := false; delete_ok := true |}.

(** What [forgetful_server] stores for [foto3.png]. *)
Definition uploaded_foto3 : list (str * Json) :=
  [(lit "fileEntryId", JNum 8); (lit "title", JStr (lit "foto3"));
   (lit "name", JStr (lit "foto3.png")); (lit "description", JStr [])].

(** A batch of four paths, one of them missing on disk. *)
Definition four_paths : list str :=
  [lit "/in/foto1.jpg"; lit "/in/missing.gif"; lit "/in/foto2.png";
   lit "/in/foto3.png"].

(** The batch run of the four paths against [forgetful_server], replacing
    what exists, with neither template nor metadata. *)
Definition sample_run : Exc Batch.Results * St sim_env :=
  Batch.upload_files_batch sim_env 1 0 [] true None four_paths
    (start forgetful_server).

Definition sample_report : Batch.Results :=
  match sample_run.1 with
  | Ok r => r
  | Raised => Batch.empty_results
  end.

End Sample.

(** ** Kinds of calls *)

Module Trace.
Import Remote.

(** The kinds of calls. *)
Definition is_get (c : Call) : bool :=
  match c with GetFileEntries _ _ => true | _ => false end.

Definition is_update (c : Call) : bool :=
  match c with UpdateFileEntry _ _ => true | _ => false end.

Definition is_delete (c : Call) : bool :=
  match c with DeleteFileEntry _ => true | _ => false end.

Definition is_add (c : Call) : bool :=
  match c with AddFileEntry _ _ _ _ _ _ _ _ => true | _ => false end.

(** The test of [check_file_exists] on one entry of the server's list, on
    the values: the title is the file name without its extension, or the
    name is the file name. *)
Definition title_or_name_is (fl : Path.Flavour) (filename : str)
    (file_entry : list (str * Json)) : Prop :=
  obj_get file_entry (lit "title") = JStr (Path.splitext fl filename).1
  \/ obj_get file_entry (lit "name") = JStr filename.

End Trace.

(** ** The invariant of the partial matcher *)

Module MatcherInv.

Import Matcher.

Section MatcherInv.

Context {V : Type}.
Variable file_norm : str.

(** What the loop over the reference keys keeps true of the best match so
    far, [seen] being the items gone through. *)
Definition best_so_far (seen : dict V) (best_match : option (V * str * nat))
    (best_score : nat) : Prop :=
  match best_match with
  | None =>
      best_score = O
      /\ Forall (fun item => common_len_with file_norm item.1 = O) seen
  | Some (orig, norm, sc) =>
      sc = best_score /\ (0 < best_score)%nat
      /\ exists pre post,
           seen = pre ++ (norm, orig) :: post
           /\ best_score = common_len_with file_norm norm
           /\ Forall (fun item =>
                        (common_len_with file_norm item.1 < best_score)%nat)
                pre
           /\ Forall (fun item =>
                        (common_len_with file_norm item.1 <= best_score)%nat)
                post
  end.

End MatcherInv.

End MatcherInv.

(** ** [FileUploader.update_descriptions_batch] *)

Module Descriptions.

Import Remote.

Local Open Scope uploader_scope.

(** The [results] dict of [update_descriptions_batch]; an entry of [updated]
    is the file name with the id of the document. *)
Record UpdateResults := {
  updated : list (str * Json);
  failed : list str
}.

Definition no_results : UpdateResults := {| updated := []; failed := [] |}.

Section Descriptions.

Variable E : Env.

(** [str(v)], as the f-string takes it of the title. *)
Variable py_format : Json -> str.

(** The key [file_entry.get('name') or f"{file_entry.get('title')}.xxx"] of
    an entry of the server's list, when it is a [str]. *)
Definition file_dict_key (file_entry : list (str * Json)) : Json :=
  let name := obj_get file_entry (lit "name") in
  if truthy name then name
  else JStr (py_format (obj_get file_entry (lit "title")) ++ lit ".xxx").

(** The loop that fills [file_dict].  An entry that is not a dict has no
    [get], and a list or a dict cannot be a key: both raise.  A number or
    [True] is a key that no file name, a [str], is equal to; such an entry
    is never found and is left out of the dict of the model. *)
Fixpoint index_entries (entries : list Json)
    (file_dict : Matcher.dict (list (str * Json)))
    : Exc (Matcher.dict (list (str * Json))) :=
  match entries with
  | [] => Ok file_dict
  | JObj file_entry :: rest =>
      match file_dict_key file_entry with
      | JStr file_name =>
          index_entries rest (Matcher.dict_setitem file_name file_entry file_dict)
      | JArr _ | JObj _ => Raised
      | _ => index_entries rest file_dict
      end
  | _ :: _ => Raised
  end.

(** The loop over [descriptions.items()]. *)
Fixpoint update_loop (file_dict : Matcher.dict (list (str * Json)))
    (items : Matcher.dict str) (results : UpdateResults)
    : M E UpdateResults :=
  match items with
  | [] => ret results
  | (filename, description) :: rest =>
      if Matcher.dict_contains filename file_dict then
        match Matcher.dict_getitem filename file_dict with
        | Some file_entry =>
            let file_entry_id := obj_get file_entry (lit "fileEntryId") in
            ok <- Reconciler.update_file_description E file_entry_id
                    description ;;
            if ok then
              update_loop file_dict rest
                {| updated := updated results ++ [(filename, file_entry_id)];
                   failed := failed results |}
            else
              update_loop file_dict rest
                {| updated := updated results;
                   failed := failed results ++ [filename] |}
        | None => ret results
        end
      else
        update_loop file_dict rest
          {| updated := updated results;
             failed := failed results ++ [filename] |}
  end.

(** [FileUploader.update_descriptions_batch]; [descriptions] is [None] or a
    dict, and every exception ends in [return results]. *)
Definition update_descriptions_batch (site_id folder_id : Z)
    (descriptions : option (Matcher.dict str)) : M E UpdateResults :=
  match descriptions with
  | None | Some [] => ret no_results
  | Some items =>
      files_on_server <- client_call (GetFileEntries site_id folder_id) ;;
      match files_on_server with
      | JArr entries =>
          if truthy files_on_server then
            match index_entries entries [] with
            | Ok file_dict => update_loop file_dict items no_results
            | Raised => ret no_results
            end
          else ret no_results
      | _ => ret no_results
      end
  end.

End Descriptions.

(** An entry of the server's list that the loop can index: a dict whose
    name is a text or is missing. *)
Definition indexable (e : Json) : Prop :=
  exists fields,
    e = JObj fields
    /\ (obj_get fields (lit "name") = JNull
        \/ exists n, obj_get fields (lit "name") = JStr n).

End Descriptions.

(** ** [FileUploader.upload_directory] *)

Module Directory.

Import Remote.

Local Open Scope uploader_scope.

(** What [upload_directory] asks of the file system besides
    [os.path.exists], and the lowercasing of the extension filter. *)
Record DirOps (E : Env) := {
  (** [os.listdir]; [None] when it raises *)
  listdir : str -> World E -> option (list str);
  (** [os.path.isfile] *)
  isfile : str -> World E -> bool;
  (** [os.walk], as the list of its [(root, files)] *)
  walk : str -> World E -> list (str * list str);
  (** [os.path.join] *)
  join : str -> str -> str;
  (** [str.lower] *)
  lower : str -> str
}.

Arguments listdir {E} _ _ _.
Arguments isfile {E} _ _ _.
Arguments walk {E} _ _ _.
Arguments join {E} _ _ _.
Arguments lower {E} _ _.

Section Directory.

Variable E : Env.
Variable D : DirOps E.

Definition check (extensions : option (list str)) (name : str) : bool :=
  Names._check_file_extension (lower D) (flavour E) name extensions.

(** The two loops that fill [files_list]; [Raised] when [os.listdir]
    raises. *)
Definition collect_files (directory_path : str) (recursive : bool)
    (extensions : option (list str)) (w : World E) : Exc (list str) :=
  if recursive then
    Ok (flat_map
          (fun root_files : str * list str =>
             join D root_files.1 <$> List.filter (check extensions) root_files.2)
          (walk D directory_path w))
  else
    match listdir D directory_path w with
    | None => Raised
    | Some items =>
        Ok (join D directory_path <$>
              List.filter
                (fun item => isfile D (join D directory_path item) w
                             && check extensions item)
                items)
    end.

(** [FileUploader.upload_directory]. *)
Definition upload_directory (directory_path : str) (site_id folder_id : Z)
    (recursive : bool) (extensions : option (list str))
    (replace_existing : bool) : M E (Exc Batch.Results) :=
  present <- ask (path_exists E directory_path) ;;
  if negb present then ret (Ok Batch.empty_results)
  else
    files_list <- ask (collect_files directory_path recursive extensions) ;;
    match files_list with
    | Raised => ret Raised
    | Ok files_list =>
        Batch.upload_files_batch E site_id folder_id [] replace_existing None
          files_list
    end.

End Directory.

End Directory.

(** ** The spreadsheet loop of [load_descriptions_from_excel] *)

Module Excel.

Import Matcher.

(** A row of the sheet read with [header=None, dtype=str]: a cell is a text,
    or [None] for a missing value (NaN). *)
Abbreviation row := (list (option str)) (only parsing).

(** [str(x) if pd.notna(x) else ""]. *)
Definition cell_text (cell : option str) : str := default [] cell.

Section Excel.

Variable lower : str -> str.
Variable NAME_COLUMN DESC_COLUMN : nat.

(** The body of [for index, row in df.iterrows()] in
    [load_descriptions_from_excel]. *)
Definition load_row (index : nat) (r : row) (descriptions : dict DescEntry)
    : dict DescEntry :=
  if (Nat.max NAME_COLUMN DESC_COLUMN <? length r)%nat then
    let name := cell_text (nth NAME_COLUMN r None) in
    let desc := cell_text (nth DESC_COLUMN r None) in
    if nonempty name then
      let norm_name := Text.normalize_text lower (Text.InStr name) in
      if nonempty norm_name && nonempty desc then
        dict_setitem norm_name
          {| original_name := name; description := desc;
             excel_row := index + 1 |}
          descriptions
      else descriptions
    else descriptions
  else descriptions.

(** The loop, on the rows from [index] on. *)
Fixpoint load_rows (rows : list row) (index : nat)
    (descriptions : dict DescEntry) : dict DescEntry :=
  match rows with
  | [] => descriptions
  | r :: rest => load_rows rest (S index) (load_row index r descriptions)
  end.

(** What the loop of [load_descriptions_from_excel] leaves in
    [self.descriptions], empty before. *)
Definition load_descriptions (rows : list row) : dict DescEntry :=
  load_rows rows 0 [].

(** An entry as the loop stores it for a sheet. *)
Definition entry_of_sheet (rows : list row) (item : str * DescEntry) : Prop :=
  item.1 = Text.normalize_text lower (Text.InStr (original_name item.2))
  /\ item.1 <> []
  /\ description item.2 <> []
  /\ exists r,
       rows !! (excel_row item.2 - 1)%nat = Some r
       /\ (1 <= excel_row item.2)%nat
       /\ nth NAME_COLUMN r None = Some (original_name item.2)
       /\ nth DESC_COLUMN r None = Some (description item.2).

End Excel.

End Excel.

(** ** The file loop of [move_files_based_on_excel] *)

Module Mover.

Import Matcher.

(** What [move_files_based_on_excel] asks of the file system. *)
Record FsOps := {
  FS : Type;
  (** [os.path.isfile] *)
  fs_isfile : str -> FS -> bool;
  (** [shutil.copy2]; [false] when it raises *)
  copy2 : str -> str -> FS -> bool * FS;
  (** [os.path.join] *)
  fs_join : str -> str -> str
}.

(** The counters and the list the loop over the files keeps. *)
Record MoveStats := {
  moved_count : nat;
  skipped_count : nat;
  matches : list (str * str)
}.

Section Mover.

Variable lower : str -> str.
Variable fl : Path.Flavour.
Variable F : FsOps.
Variable source_folder target_folder : str.
Variable excel_names_normalized_dict : dict str.

(** The loop [for filename in files_in_folder] of
    [move_files_based_on_excel]. *)
Fixpoint move_loop (files_in_folder : list str) (stats : MoveStats)
    (fs : FS F) : MoveStats * FS F :=
  match files_in_folder with
  | [] => (stats, fs)
  | filename :: rest =>
      let file_path := fs_join F source_folder filename in
      if fs_isfile F file_path fs then
        let file_normalized := Names.normalize_filename lower fl filename in
        let matching_excel_name :=
          find_matching_name file_normalized excel_names_normalized_dict in
        match matching_excel_name with
        | Some ((_ :: _) as name) =>
            let target_path := fs_join F target_folder filename in
            let (copied, fs') := copy2 F file_path target_path fs in
            if copied then
              move_loop rest
                {| moved_count := moved_count stats + 1;
                   skipped_count := skipped_count stats;
                   matches := matches stats ++ [(filename, name)] |}
                fs'
            else move_loop rest stats fs'
        | _ =>
            move_loop rest
              {| moved_count := moved_count stats;
                 skipped_count := skipped_count stats + 1;
                 matches := matches stats |}
              fs
        end
      else move_loop rest stats fs
  end.

End Mover.

End Mover.

(** ** [config.get_config] *)

Module Config.

Import Remote Matcher.

(** [DEFAULT_CONFIG] as the module defines it. *)
Definition DEFAULT_CONFIG : dict Json :=
  [(lit "base_url", JStr (lit "http://localhost:8080"));
   (lit "username", JStr (lit "ldk99@yandex.ru"));
   (lit "password", JStr (lit "123"));
   (lit "timeout", JNum 30);
   (lit "verify_ssl", JBool false)].

(** [env_mapping], in its order. *)
Definition env_mapping : list (str * str) :=
  [(lit "LIFERAY_URL", lit "base_url");
   (lit "LIFERAY_USERNAME", lit "username");
   (lit "LIFERAY_PASSWORD", lit "password")].

(** The configuration file: missing, there but not readable as JSON, or
    holding a JSON value. *)
Inductive ConfigFile :=
| Missing
| Unreadable
| Parsed (j : Json).

(** The object a name is bound to: the module's [DEFAULT_CONFIG] itself, or
    an object of its own. *)
Inductive ConfigRef :=
| TheDefault
| Fresh (j : Json).

(** [load_config_from_file]: the parsed file, or [DEFAULT_CONFIG] itself
    (not a copy) when there is no file or reading it raises. *)
Definition load_config_from_file (file : ConfigFile) : ConfigRef :=
  match file with
  | Parsed j => Fresh j
  | Missing | Unreadable => TheDefault
  end.

(** [config[config_key] = env_value]: on [DEFAULT_CONFIG] itself it changes
    the module's dict; on a value that is not a dict it raises. *)
Definition set_key (config : ConfigRef) (config_key env_value : str)
    (defaults : dict Json) : Exc ConfigRef * dict Json :=
  match config with
  | TheDefault =>
      (Ok TheDefault, dict_setitem config_key (JStr env_value) defaults)
  | Fresh (JObj fields) =>
      (Ok (Fresh (JObj (dict_setitem config_key (JStr env_value) fields))),
       defaults)
  | Fresh _ => (Raised, defaults)
  end.

(** The loop [for env_var, config_key in env_mapping.items()]. *)
Fixpoint apply_env (getenv : str -> option str) (mapping : list (str * str))
    (config : ConfigRef) (defaults : dict Json) : Exc ConfigRef * dict Json :=
  match mapping with
  | [] => (Ok config, defaults)
  | (env_var, config_key) :: rest =>
      match getenv env_var with
      | Some ((_ :: _) as env_value) =>
          match set_key config config_key env_value defaults with
          | (Ok config', defaults') => apply_env getenv rest config' defaults'
          | (Raised, defaults') => (Raised, defaults')
          end
      | _ => apply_env getenv rest config defaults
      end
  end.

(** The value of a configuration, given what [DEFAULT_CONFIG] holds. *)
Definition deref (config : ConfigRef) (defaults : dict Json) : Json :=
  match config with
  | TheDefault => JObj defaults
  | Fresh j => j
  end.

(** [get_config], with the content of [DEFAULT_CONFIG] before and after:
    the configuration returned and what the module's dict holds then. *)
Definition get_config (file : ConfigFile) (getenv : str -> option str)
    (defaults : dict Json) : Exc Json * dict Json :=
  let config := load_config_from_file file in
  let config :=
    if truthy (deref config defaults) then config
    else Fresh (JObj defaults) in
  match apply_env getenv env_mapping config defaults with
  | (Ok config, defaults') => (Ok (deref config defaults'), defaults')
  | (Raised, defaults') => (Raised, defaults')
  end.

(** The configuration before the variables of the environment are looked
    at. *)
Definition base_config (file : ConfigFile) (defaults : dict Json) : Json :=
  let config := load_config_from_file file in
  if truthy (deref config defaults) then deref config defaults
  else JObj defaults.

(** What the loop over [env_mapping] makes of a dict. *)
Fixpoint overridden (getenv : str -> option str) (mapping : list (str * str))
    (fields : dict Json) : dict Json :=
  match mapping with
  | [] => fields
  | (env_var, config_key) :: rest =>
      match getenv env_var with
      | Some ((_ :: _) as env_value) =>
          overridden getenv rest (dict_setitem config_key (JStr env_value) fields)
      | _ => overridden getenv rest fields
      end
  end.

(** The value [os.getenv] gives, when it counts as true. *)
Definition env_value (getenv : str -> option str) (env_var : str)
    : option str :=
  match getenv env_var with
  | Some ((_ :: _) as v) => Some v
  | _ => None
  end.

(** No variable of the environment is set. *)
Definition no_env : str -> option str := fun _ => None.

End Config.

(** ** The upload flow of [main.py] *)

Module Main.

Import Remote.

Local Open Scope uploader_scope.

(** "Загрузчик Liferay не инициализирован" *)
Definition msg_not_initialised : str :=
  [1047; 1072; 1075; 1088; 1091; 1079; 1095; 1080; 1082; 32; 76; 105; 102;
   101; 114; 97; 121; 32; 1085; 1077; 32; 1080; 1085; 1080; 1094; 1080;
   1072; 1083; 1080; 1079; 1080; 1088; 1086; 1074; 1072; 1085].

(** "Успешно загружен (ID: " *)
Definition msg_uploaded : str :=
  [1059; 1089; 1087; 1077; 1096; 1085; 1086; 32; 1079; 1072; 1075; 1088;
   1091; 1078; 1077; 1085; 32; 40; 73; 68; 58; 32].

(** "Не удалось загрузить файл" *)
Definition msg_not_uploaded : str :=
  [1053; 1077; 32; 1091; 1076; 1072; 1083; 1086; 1089; 1100; 32; 1079; 1072;
   1075; 1088; 1091; 1079; 1080; 1090; 1100; 32; 1092; 1072; 1081; 1083].

(** "Ошибка загрузки: " *)
Definition msg_error : str :=
  [1054; 1096; 1080; 1073; 1082; 1072; 32; 1079; 1072; 1075; 1088; 1091;
   1079; 1082; 1080; 58; 32].

(** "Файл не найден" *)
Definition msg_file_not_found : str :=
  [1060; 1072; 1081; 1083; 32; 1085; 1077; 32; 1085; 1072; 1081; 1076; 1077;
   1085].

(** "Нет файлов для загрузки" *)
Definition msg_no_files : str :=
  [1053; 1077; 1090; 32; 1092; 1072; 1081; 1083; 1086; 1074; 32; 1076; 1083;
   1103; 32; 1079; 1072; 1075; 1088; 1091; 1079; 1082; 1080].

(** "Загружено через скрипт с описанием" *)
Definition script_change_log : str :=
  [1047; 1072; 1075; 1088; 1091; 1078; 1077; 1085; 1086; 32; 1095; 1077;
   1088; 1077; 1079; 32; 1089; 1082; 1088; 1080; 1087; 1090; 32; 1089; 32;
   1086; 1087; 1080; 1089; 1072; 1085; 1080; 1077; 1084].

(** [type(v).__name__]. *)
Definition type_name (v : Json) : str :=
  match v with
  | JNull => lit "NoneType"
  | JBool _ => lit "bool"
  | JNum _ => lit "int"
  | JStr _ => lit "str"
  | JArr _ => lit "list"
  | JObj _ => lit "dict"
  end.

(** The text of the [AttributeError] that [v.get] raises on a value that is
    not a dict, as [f"{type(e).__name__}: {str(e)[:100]}"] shows it. *)
Definition get_error_text (v : Json) : str :=
  lit "AttributeError: '" ++ type_name v
  ++ lit "' object has no attribute 'get'".

(** The [results] dict of [_upload_files_individually]; an entry is a file
    name with a message. *)
Record IndividualResults := {
  uploaded : list (str * str);
  failed : list (str * str);
  skipped : list (str * str)
}.

Definition no_results : IndividualResults :=
  {| uploaded := []; failed := []; skipped := [] |}.

(** What [upload_files_batch_to_liferay] returns: a dict with the key
    [error], or the report of the batch. *)
Inductive BatchOutcome :=
| BatchError (message : str)
| BatchReport (results : Batch.Results).

(** What a call sends as the description of a file, for the descriptions
    [items] found in the spreadsheet: an upload sends the description of
    its file name, an update one of the descriptions. *)
Definition sends_description_from (items : Matcher.dict str) (c : Call)
    : Prop :=
  match c with
  | AddFileEntry _ _ name _ _ description _ _ => (name, description) ∈ items
  | UpdateFileEntry _ description => exists name, (name, description) ∈ items
  | _ => True
  end.

(** A call that sends [description], and as an upload does so for the file
    [name]. *)
Definition carries (name description : str) (c : Call) : Prop :=
  match c with
  | AddFileEntry _ _ n _ _ d _ _ => n = name /\ d = description
  | UpdateFileEntry _ d => d = description
  | _ => True
  end.

Section Main.

Variable E : Env.

(** [os.path.join] and [str(v)]. *)
Variable join : str -> str -> str.
Variable py_format : Json -> str.

(** The settings of [LiferayFileUploader.__init__], and whether
    [self.file_uploader] is set. *)
Variable SOURCE_FOLDER : str.
Variable SITE_ID FOLDER_ID : Z.
Variable initialised : bool.

(** [LiferayFileUploader.upload_file_to_liferay]. *)
Definition upload_file_to_liferay (file_path description : str)
    : M E (bool * str) :=
  if negb initialised then ret (false, msg_not_initialised)
  else
    result <- Reconciler.upload_or_replace_file E file_path SITE_ID FOLDER_ID
                description true script_change_log ;;
    if truthy result then
      match result with
      | JObj fields =>
          let file_entry_id :=
            obj_get_default fields (lit "fileEntryId") (JStr (lit "N/A")) in
          ret (true, msg_uploaded ++ py_format file_entry_id ++ lit ")")
      | _ => ret (false, msg_error ++ get_error_text result)
      end
    else ret (false, msg_not_uploaded).

(** The loop of [_upload_files_individually]. *)
Fixpoint individual_loop (items : Matcher.dict str)
    (results : IndividualResults) : M E IndividualResults :=
  match items with
  | [] => ret results
  | (filename, description) :: rest =>
      let file_path := join SOURCE_FOLDER filename in
      present <- ask (path_exists E file_path) ;;
      if negb present then
        individual_loop rest
          {| uploaded := uploaded results; failed := failed results;
             skipped := skipped results ++ [(filename, msg_file_not_found)] |}
      else
        outcome <- upload_file_to_liferay file_path description ;;
        let (success, message) := outcome : bool * str in
        if success then
          individual_loop rest
            {| uploaded := uploaded results ++ [(filename, message)];
               failed := failed results; skipped := skipped results |}
        else
          individual_loop rest
            {| uploaded := uploaded results;
               failed := failed results ++ [(filename, message)];
               skipped := skipped results |}
  end.

(** [LiferayFileUploader._upload_files_individually], with the [results] it
    prints. *)
Definition _upload_files_individually
    (files_with_descriptions : Matcher.dict str) : M E IndividualResults :=
  individual_loop files_with_descriptions no_results.

(** The loop of [upload_files_batch_to_liferay] that fills [files_list] and
    [metadata]. *)
Fixpoint prepare_batch (items : Matcher.dict str) (w : World E)
    (files_list : list str) (metadata : Matcher.dict (Matcher.dict str))
    : list str * Matcher.dict (Matcher.dict str) :=
  match items with
  | [] => (files_list, metadata)
  | (filename, description) :: rest =>
      let file_path := join SOURCE_FOLDER filename in
      if path_exists E file_path w then
        prepare_batch rest w (files_list ++ [file_path])
          (Matcher.dict_setitem filename
             [(lit "description", description)] metadata)
      else prepare_batch rest w files_list metadata
  end.

(** [LiferayFileUploader.upload_files_batch_to_liferay]. *)
Definition upload_files_batch_to_liferay
    (files_with_descriptions : Matcher.dict str) : M E (Exc BatchOutcome) :=
  if negb initialised then ret (Ok (BatchError msg_not_initialised))
  else
    prepared <- ask (fun w => prepare_batch files_with_descriptions w [] []) ;;
    let (files_list, metadata) :=
      prepared : list str * Matcher.dict (Matcher.dict str) in
    if negb (nonempty files_list) then ret (Ok (BatchError msg_no_files))
    else
      results <- Batch.upload_files_batch E SITE_ID FOLDER_ID [] true
                   (Some metadata) files_list ;;
      ret (match results with
           | Ok r => Ok (BatchReport r)
           | Raised => Raised
           end).

End Main.

End Main.

(** ** More sample data *)

Module MoreSamples.

Import Remote Sample.

(** A server that answers every upload with a page of text instead of JSON;
    every path exists and can be read. *)
Definition text_env : Env :=
  {| World := unit;
     call_jsonws := fun c w =>
       match c with
       | AddFileEntry _ _ _ _ _ _ _ _ => (JStr (lit "<html>"), w)
       | GetFileEntries _ _ => (JArr [], w)
       | _ => (JNull, w)
       end;
     path_exists := fun _ _ => true;
     read_base64 := fun _ _ => Some (lit "QQ==");
     guess_type := fun _ => None;
     basename := Path.posix_basename;
     flavour := Path.Posix;
     format_template := fun template _ _ _ => Some template |}.

Definition text_start : St text_env := mkSt (tt : World text_env) [].

(** A second stored document with the name [foto1.jpg]. *)
Definition doc_foto1_again : list (str * Json) :=
  [(lit "fileEntryId", JNum 9); (lit "title", JStr (lit "foto1 (2)"));
   (lit "name", JStr (lit "foto1.jpg"));
   (lit "description", JStr (lit "newer"))].

(** The server holds two documents named [foto1.jpg]. *)
Definition twin_server : Sim :=
  {| docs := [JObj doc_foto1; JObj doc_foto1_again];
     local_files := three_files;
     next_id := 10; refused := [];
     keeps_description := true; update_ok := true; delete_ok := true |}.

(** The folder on the server is empty. *)
Definition empty_server : Sim :=
  {| docs := [];
     local_files := three_files;
     next_id := 1; refused := [];
     keeps_description := true; update_ok := true; delete_ok := true |}.

(** The descriptions to set, for a stored and for an unknown file. *)
Definition two_descriptions : Matcher.dict str :=
  [(lit "foto1.jpg", lit "A fountain"); (lit "foto9.jpg", lit "A cascade")].

(** [str(v)] on the values of the samples. *)
Definition sample_format (j : Json) : str :=
  match j with
  | JStr s => s
  | JNum z => str_of_Z z
  | _ => lit "None"
  end.

(** The local directory [/in] with the three files and a text file that is
    not on disk any more when it is listed. *)
Definition dir_files : Matcher.dict str :=
  (lit "/in", []) :: three_files.

Definition dir_server : Sim :=
  {| docs := [JObj doc_foto1];
     local_files := dir_files;
     next_id := 8; refused := [lit "foto2.png"];
     keeps_description := false; update_ok := false; delete_ok := true |}.

Definition sample_join (a b : str) : str := a ++ [chr_slash] ++ b.

(** [/in] lists the three files, a text file that is not on disk and a
    subdirectory; [/in/sub] holds one more picture. *)
Definition sample_listdir (d : str) (w : Sim) : option (list str) :=
  if bool_decide (d = lit "/in")
  then Some [lit "foto1.jpg"; lit "notes.txt"; lit "foto2.png";
             lit "foto3.png"; lit "sub"]
  else None.

Definition sample_isfile (p : str) (w : Sim) : bool :=
  Matcher.dict_contains p (local_files w)
  && negb (bool_decide (p = lit "/in")).

Definition sample_walk (d : str) (w : Sim) : list (str * list str) :=
  if bool_decide (d = lit "/in")
  then [(lit "/in", [lit "foto1.jpg"; lit "notes.txt"; lit "foto2.png";
                     lit "foto3.png"]);
        (lit "/in/sub", [lit "foto4.JPG"])]
  else [].

Definition sample_dir : Directory.DirOps sim_env :=
  Directory.Build_DirOps sim_env sample_listdir sample_isfile sample_walk
    sample_join Text.lower_basic.

(** A sheet of four rows: two rows with the same normalised name, a row
    whose name normalises to nothing and a row without a name. *)
Definition sample_sheet : list (list (option str)) :=
  [[Some (lit "Foto 1"); Some (lit "Desc A")];
   [Some (lit "---"); Some (lit "x")];
   [None; Some (lit "y")];
   [Some (lit "FOTO-1"); Some (lit "Desc B")]].

(** A file system where everything is a file and every copy succeeds; its
    state is the list of the targets written. *)
Definition sample_fs : Mover.FsOps :=
  {| Mover.FS := list str;
     Mover.fs_isfile := fun _ _ => true;
     Mover.copy2 := fun _ target fs => (true, fs ++ [target]);
     Mover.fs_join := sample_join |}.

(** Only [LIFERAY_URL] is set. *)
Definition url_env (var : str) : option str :=
  if bool_decide (var = lit "LIFERAY_URL") then Some (lit "https://dms.example")
  else None.

(** The run of [upload_directory] on [/in] against [dir_server], with the
    subdirectories, for pictures only. *)
Definition dir_run : Exc Batch.Results * St sim_env :=
  Directory.upload_directory sim_env sample_dir (lit "/in") 1 0 true
    (Some [lit ".jpg"; lit ".png"]) true (start dir_server).

Definition dir_report : Batch.Results :=
  match dir_run.1 with
  | Ok r => r
  | Raised => Batch.empty_results
  end.

(** The reference names of the samples. *)
Definition sample_names : list str :=
  [lit "FOTO-1"; lit "Foto 1"; lit "Plan"].

End MoreSamples.


(** * Properties *)

(** ** The normaliser *)

Module TextFacts.

Import Text.

Lemma allowed_spec c : allowed c = true <-> is_key_char c.
Proof.
  unfold allowed, class_mem, keep_class, is_key_char; cbn [existsb item_mem].
  rewrite !orb_true_iff, !andb_true_iff, !N.leb_le, N.eqb_eq. intuition lia.
Qed.

Lemma re_sub_is_filter cls text :
  re_sub_negated_class cls text = filter (fun c => class_mem cls c = true) text.
Proof.
  induction text as [|c rest IH]; [done|].
  cbn [re_sub_negated_class]. rewrite filter_cons.
  destruct (class_mem cls c) eqn:E.
  - rewrite decide_True by done. by f_equal.
  - rewrite decide_False by done. done.
Qed.

Lemma re_sub_fixed cls text :
  Forall (fun c => class_mem cls c = true) text ->
  re_sub_negated_class cls text = text.
Proof.
  induction 1 as [|c rest Hc _ IH]; [done|].
  cbn [re_sub_negated_class]. rewrite Hc. by f_equal.
Qed.

Lemma re_sub_all_in_class cls text :
  Forall (fun c => class_mem cls c = true) (re_sub_negated_class cls text).
Proof.
  rewrite re_sub_is_filter. apply Forall_forall. intros c Hc.
  apply list_elem_of_filter in Hc. tauto.
Qed.

Lemma lower_char_basic_fixes c : allowed c = true -> lower_char_basic c = c.
Proof.
  rewrite allowed_spec. unfold is_key_char, lower_char_basic. intros H.
  repeat match goal with
  | |- context [if ?b then _ else _] => destruct b eqn:?
  end; try done;
  rewrite ?andb_true_iff, ?N.leb_le in *; lia.
Qed.

Lemma lower_basic_fixes_allowed (s : str) :
  Forall (fun c => allowed c = true) s -> lower_basic s = s.
Proof.
  induction 1 as [|c rest Hc _ IH]; [done|].
  unfold lower_basic in *. cbn [List.map]. rewrite IH.
  by rewrite lower_char_basic_fixes.
Qed.

Section NormalizerFacts.

Variable lower : str -> str.

(** What is used of [str.lower]: a text made of lowercase Latin letters,
    lowercase Cyrillic letters and digits is already in lower case. *)
Hypothesis lower_fixes_allowed :
  forall s : str, Forall (fun c => allowed c = true) s -> lower s = s.

Lemma normalize_text_allowed x :
  Forall (fun c => allowed c = true) (normalize_text lower x).
Proof. apply re_sub_all_in_class. Qed.

(** [str(x)] raises on the integers of more digits than the limit, and on
    no other value modelled. *)
Lemma str_raises_spec (max_str_digits : nat) (x : PyInput) :
  str_raises max_str_digits x = true
  <-> exists z, x = InInt z
                /\ (0 < max_str_digits)%nat
                /\ (max_str_digits < int_digits z)%nat.
Proof.
  destruct x as [s|z|b|]; cbn [str_raises];
    try (split; [done|by intros (z' & [=] & _)]).
  rewrite andb_true_iff, !Nat.ltb_lt. split.
  - intros [? ?]. by exists z.
  - by intros (z' & [= <-] & ? & ?).
Qed.

(** A character whose lowercase form is in the class is not deleted: its
    lowercase form is kept (the Kelvin sign U+212A, which [str.lower] turns
    into [k], is one). *)
Lemma normalize_text_keeps_lowercase_form (c k : char) :
  lower [c] = [k] -> allowed k = true ->
  normalize_text lower (InStr [c]) = [k].
Proof.
  intros Hlow Hk. unfold normalize_text. cbn [py_str]. rewrite Hlow.
  cbn [re_sub_negated_class]. fold (allowed k). by rewrite Hk.
Qed.

(** C2: [normalize_text] returns whenever [str] does: for every text,
    [None], Boolean and integer of no more digits than the limit of the
    interpreter; on an integer of more digits the [ValueError] of [str]
    comes out of it.  When it returns, its result holds only the letters
    a-z, а-я, ё and the digits 0-9; it is in lower case; it is the
    lowercased text with every character outside the class deleted, nothing
    put in its place (the kept characters, in order, are exactly those of
    the lowercased text that belong to the class); and the empty string
    gives the empty string. *)
Theorem normalize_text_lowercase_alnum (max_str_digits : nat) (x : PyInput) :
  (str_raises max_str_digits x = false ->
   normalize_text_or_raise lower max_str_digits x
   = Some (normalize_text lower x)
   /\ Forall is_key_char (normalize_text lower x)
   /\ lower (normalize_text lower x) = normalize_text lower x
   /\ normalize_text lower x
      = filter (fun c => allowed c = true) (lower (py_str x))
   /\ sublist (normalize_text lower x) (lower (py_str x)))
  /\ (str_raises max_str_digits x = true ->
      normalize_text_or_raise lower max_str_digits x = None)
  /\ (forall s, str_raises max_str_digits (InStr s) = false)
  /\ str_raises max_str_digits InNone = false
  /\ (forall b, str_raises max_str_digits (InBool b) = false)
  /\ (forall z, (int_digits z <= max_str_digits)%nat \/ max_str_digits = O ->
                str_raises max_str_digits (InInt z) = false)
  /\ normalize_text_or_raise lower max_str_digits (InStr []) = Some [].
Proof.
  split_and!; try done.
  - intros Hret. split_and!.
    + unfold normalize_text_or_raise, py_str_or_raise. by rewrite Hret.
    + eapply Forall_impl; [apply normalize_text_allowed|].
      intros c. by rewrite allowed_spec.
    + apply lower_fixes_allowed, normalize_text_allowed.
    + unfold normalize_text. by rewrite re_sub_is_filter.
    + unfold normalize_text. rewrite re_sub_is_filter. apply sublist_filter.
  - intros Hraise. unfold normalize_text_or_raise, py_str_or_raise.
    by rewrite Hraise.
  - intros z Hz. cbn [str_raises]. apply andb_false_iff.
    rewrite !Nat.ltb_ge. lia.
  - unfold normalize_text_or_raise, py_str_or_raise. cbn [str_raises py_str].
    by rewrite (lower_fixes_allowed []) by constructor.
Qed.

(** C6: [normalize_text] is idempotent. *)
Theorem normalize_text_idempotent (x : PyInput) :
  normalize_text lower (InStr (normalize_text lower x)) = normalize_text lower x.
Proof.
  unfold normalize_text at 1. cbn [py_str].
  rewrite lower_fixes_allowed by apply normalize_text_allowed.
  apply re_sub_fixed, normalize_text_allowed.
Qed.

End NormalizerFacts.

(** The normaliser on "File-Name_123", on "КГИОП. Фото № 52211", on the
    integer -120 and on an accented word. *)
Example normalize_text_examples :
  normalize_text lower_basic (InStr (lit "File-Name_123")) = lit "filename123"
  /\ normalize_text lower_basic
       (InStr [1050; 1043; 1048; 1054; 1055; 46; 32; 1060; 1086; 1090; 1086;
               32; 8470; 32; 53; 50; 50; 49; 49])
     = [1082; 1075; 1080; 1086; 1087; 1092; 1086; 1090; 1086; 53; 50; 50; 49; 49]
  /\ normalize_text lower_basic (InInt (-120)) = lit "120"
  /\ normalize_text lower_basic (InStr [67; 97; 102; 233; 32; 8470; 49])
     = lit "caf1".
Proof. repeat split; vm_compute; reflexivity. Qed.

Lemma normalize_text_lowercase_alnum_witness :
  normalize_text_or_raise lower_basic default_max_str_digits (InInt (-120))
  = Some (normalize_text lower_basic (InInt (-120)))
  /\ Forall is_key_char (normalize_text lower_basic (InInt (-120)))
  /\ lower_basic (normalize_text lower_basic (InInt (-120)))
     = normalize_text lower_basic (InInt (-120))
  /\ normalize_text lower_basic (InInt (-120))
     = filter (fun c => allowed c = true)
         (lower_basic (py_str (InInt (-120))))
  /\ sublist (normalize_text lower_basic (InInt (-120)))
       (lower_basic (py_str (InInt (-120)))).
Proof.
  apply (normalize_text_lowercase_alnum lower_basic lower_basic_fixes_allowed
           default_max_str_digits (InInt (-120))).
  reflexivity.
Defined.

Lemma int_digits_huge : int_digits (10 ^ 4300) = 4301%nat.
Proof. vm_compute. reflexivity. Qed.

(** The integer [10 ** 4300] has 4301 digits: [str] raises on it under the
    default limit, and so does [normalize_text]. *)
Lemma normalize_text_raises_on_huge_int :
  int_digits (10 ^ 4300) = 4301%nat
  /\ normalize_text_or_raise lower_basic default_max_str_digits
       (InInt (10 ^ 4300))
     = None.
Proof.
  split; [exact int_digits_huge|].
  unfold normalize_text_or_raise, py_str_or_raise, str_raises.
  rewrite int_digits_huge. reflexivity.
Qed.

Lemma normalize_text_idempotent_witness :
  normalize_text lower_basic
    (InStr (normalize_text lower_basic (InStr (lit "File-Name_123"))))
  = normalize_text lower_basic (InStr (lit "File-Name_123")).
Proof.
  exact (normalize_text_idempotent lower_basic lower_basic_fixes_allowed
           (InStr (lit "File-Name_123"))).
Defined.

End TextFacts.

(** ** [os.path.splitext] and the file names *)

Module PathFacts.

Import Path.

Lemma rfind_bounds c p : (-1 <= rfind c p < Z.of_nat (length p))%Z.
Proof.
  induction p as [|x rest IH]; cbn [rfind length]; [lia|].
  destruct (0 <=? rfind c rest)%Z eqn:E; [lia|].
  destruct (x =? c); lia.
Qed.

Lemma rfind_notin c p : c ∉ p -> rfind c p = (-1)%Z.
Proof.
  induction p as [|x rest IH]; [done|]. intros Hn.
  apply not_elem_of_cons in Hn as [Hx Hrest]. cbn [rfind].
  rewrite (IH Hrest). cbn. destruct (N.eqb_spec x c); congruence.
Qed.

Lemma rfind_last c pre post :
  c ∉ post -> rfind c (pre ++ c :: post) = Z.of_nat (length pre).
Proof.
  intros Hn. induction pre as [|x pre IH]; cbn [app rfind length].
  - rewrite (rfind_notin _ _ Hn). cbn. by rewrite N.eqb_refl.
  - rewrite IH. destruct (Z.leb_spec 0 (Z.of_nat (length pre))); lia.
Qed.

Lemma rfind_app_notin c l r : c ∉ r -> rfind c (l ++ r) = rfind c l.
Proof.
  intros Hn. induction l as [|x l IH]; cbn [app rfind].
  - by apply rfind_notin.
  - by rewrite IH.
Qed.

Lemma is_sep_spec fl c :
  is_sep fl c = true <-> c = sep fl \/ altsep fl = Some c.
Proof.
  unfold is_sep. rewrite orb_true_iff, N.eqb_eq.
  destruct (altsep fl) as [a|]; [rewrite N.eqb_eq|]; intuition congruence.
Qed.

Local Abbreviation sep_index fl p :=
  (match altsep fl with
   | Some a => Z.max (rfind (sep fl) p) (rfind a p)
   | None => rfind (sep fl) p
   end).

Lemma sep_index_app fl dir base :
  Forall (fun c => is_sep fl c = false) base ->
  (dir = [] \/ exists d x, dir = d ++ [x] /\ is_sep fl x = true) ->
  (sep_index fl (dir ++ base) + 1)%Z = Z.of_nat (length dir).
Proof.
  intros Hbase Hdir.
  assert (Hs : sep fl ∉ base).
  { intros Hin. rewrite Forall_forall in Hbase. specialize (Hbase _ Hin).
    assert (is_sep fl (sep fl) = true) by (apply is_sep_spec; auto). congruence. }
  assert (Ha : forall a, altsep fl = Some a -> a ∉ base).
  { intros a Ha Hin. rewrite Forall_forall in Hbase. specialize (Hbase _ Hin).
    assert (is_sep fl a = true) by (apply is_sep_spec; auto). congruence. }
  rewrite (rfind_app_notin _ _ _ Hs).
  destruct Hdir as [->|(d & x & -> & Hx)].
  - cbn [rfind length]. destruct (altsep fl) as [a|] eqn:Ealt; [|done].
    rewrite (rfind_app_notin _ _ _ (Ha a eq_refl)). done.
  - rewrite length_app. cbn [length].
    apply is_sep_spec in Hx.
    pose proof (rfind_bounds (sep fl) (d ++ [x])) as B1.
    rewrite length_app in B1. cbn [length] in B1.
    destruct (altsep fl) as [a|] eqn:Ealt.
    + rewrite (rfind_app_notin _ _ _ (Ha a eq_refl)).
      pose proof (rfind_bounds a (d ++ [x])) as B2.
      rewrite length_app in B2. cbn [length] in B2.
      destruct Hx as [->|[= <-]].
      * rewrite rfind_last in * by apply not_elem_of_nil. lia.
      * rewrite (rfind_last a) in * by apply not_elem_of_nil. lia.
    + destruct Hx as [->|?]; [|done].
      rewrite rfind_last by apply not_elem_of_nil. lia.
Qed.

Lemma existsb_is_sep_false fl (l : str) :
  existsb (is_sep fl) l = false <-> Forall (fun c => is_sep fl c = false) l.
Proof.
  induction l as [|x l IH]; cbn [existsb].
  - split; [constructor|done].
  - rewrite orb_false_iff, Forall_cons. tauto.
Qed.

(** Every path is a directory part, empty or ending in a separator, followed
    by its last component, which holds no separator. *)
Lemma last_component_split fl p :
  exists dir,
    p = dir ++ last_component fl p
    /\ Forall (fun c => is_sep fl c = false) (last_component fl p)
    /\ (dir = [] \/ exists d x, dir = d ++ [x] /\ is_sep fl x = true).
Proof.
  induction p as [|c rest (dir & Hp & Hbase & Hdir)]; cbn [last_component].
  - exists []. split_and!; [done|constructor|by left].
  - destruct (is_sep fl c) eqn:Ec; cbn [orb].
    + exists (c :: dir). split_and!; [by rewrite Hp at 1|done|right].
      destruct Hdir as [->|(d & x & -> & Hx)].
      * by exists [], c.
      * by exists (c :: d), x.
    + destruct (existsb (is_sep fl) rest) eqn:Er.
      * exists (c :: dir). split_and!; [by rewrite Hp at 1|done|right].
        destruct Hdir as [->|(d & x & -> & Hx)].
        -- exfalso. cbn [app] in Hp. rewrite Hp in Er.
           apply existsb_is_sep_false in Hbase. congruence.
        -- by exists (c :: d), x.
      * exists []. split_and!; [done| |by left].
        constructor; [done|]. by apply existsb_is_sep_false.
Qed.

Lemma existsb_dot_false (l : str) :
  existsb (N.eqb chr_dot) l = false <-> chr_dot ∉ l.
Proof.
  induction l as [|x l IH]; cbn [existsb].
  - split; [intros _; apply not_elem_of_nil|done].
  - rewrite orb_false_iff, not_elem_of_cons, IH.
    destruct (N.eqb_spec chr_dot x); intuition congruence.
Qed.

Lemma strip_after_last_dot_notin (p : str) :
  chr_dot ∉ p -> strip_after_last_dot p = p.
Proof.
  induction p as [|c rest IH]; [done|]. intros Hn.
  apply not_elem_of_cons in Hn as [Hc Hrest]. cbn [strip_after_last_dot].
  destruct (N.eqb_spec c chr_dot); [congruence|]. cbn [andb].
  by rewrite IH.
Qed.

Lemma strip_after_last_dot_app (pre e : str) :
  chr_dot ∉ e -> strip_after_last_dot (pre ++ chr_dot :: e) = pre.
Proof.
  intros He. induction pre as [|c pre IH]; cbn [app strip_after_last_dot].
  - rewrite N.eqb_refl. apply existsb_dot_false in He. by rewrite He.
  - rewrite IH.
    assert (existsb (N.eqb chr_dot) (pre ++ chr_dot :: e) = true) as ->.
    { apply existsb_exists. exists chr_dot. split; [|apply N.eqb_refl].
      apply in_or_app. right. by left. }
    by rewrite andb_false_r.
Qed.

(** A last component that holds a dot splits at its last dot. *)
Lemma last_dot_split (base : str) :
  chr_dot ∈ base ->
  exists b e, base = b ++ chr_dot :: e /\ chr_dot ∉ e.
Proof.
  induction base as [|c rest IH]; [by intros ?%elem_of_nil|].
  intros Hin. destruct (decide (chr_dot ∈ rest)) as [Hr|Hr].
  - destruct (IH Hr) as (b & e & -> & He). by exists (c :: b), e.
  - apply elem_of_cons in Hin as [<-|?]; [|done]. by exists [], rest.
Qed.

Lemma slice_one (pre : str) (x : char) (rest : str) :
  slice (pre ++ x :: rest) (Z.of_nat (length pre)) (Z.of_nat (length pre) + 1)
  = [x].
Proof.
  unfold slice. rewrite Nat2Z.id.
  replace (Z.to_nat (Z.of_nat (length pre) + 1) - length pre)%nat with 1%nat by lia.
  by rewrite drop_app_length.
Qed.

(** The loop over the characters [b] between the last separator and the
    last dot. *)
Lemma skip_leading_dots_spec (pre b rest : str) (dotIndex : Z) :
  dotIndex = Z.of_nat (length pre + length b) ->
  skip_leading_dots (length b) (pre ++ b ++ rest) chr_dot
    (Z.of_nat (length pre)) dotIndex
  = if existsb (fun c => negb (c =? chr_dot)) b
    then Some (slice (pre ++ b ++ rest) 0 dotIndex,
               drop (Z.to_nat dotIndex) (pre ++ b ++ rest))
    else None.
Proof.
  revert pre. induction b as [|x b IH]; intros pre Hd; [done|].
  cbn [length skip_leading_dots existsb app].
  destruct (Z.ltb_spec (Z.of_nat (length pre)) dotIndex) as [_|?];
    [|cbn [length] in Hd; lia].
  rewrite slice_one.
  destruct (N.eqb_spec x chr_dot) as [->|Hx]; cbn [negb orb].
  - rewrite bool_decide_eq_false_2 by (intros ?; done).
    specialize (IH (pre ++ [chr_dot])).
    rewrite length_app in IH. cbn [length] in IH.
    rewrite <- !app_assoc in IH. cbn [app] in IH.
    replace (Z.of_nat (length pre) + 1)%Z with (Z.of_nat (length pre + 1)) by lia.
    apply IH. cbn [length] in Hd. lia.
  - rewrite bool_decide_eq_true_2; [done|]. intros [= ?]. done.
Qed.

Lemma existsb_dot_true (l : str) :
  existsb (N.eqb chr_dot) l = true <-> chr_dot ∈ l.
Proof.
  destruct (existsb (N.eqb chr_dot) l) eqn:E.
  - split; [intros _|done]. destruct (decide (chr_dot ∈ l)) as [|Hn]; [done|].
    apply existsb_dot_false in Hn. congruence.
  - apply existsb_dot_false in E. split; [done|]. intros ?. done.
Qed.

(** [os.path.splitext] in terms of the text: where the last component has a
    dot with a character other than a dot before its last dot, the path is
    cut at its last dot; elsewhere nothing is cut. *)
Lemma splitext_spec fl p :
  splitext fl p
  = if has_extension fl p
    then (strip_after_last_dot p, drop (length (strip_after_last_dot p)) p)
    else (p, []).
Proof.
  destruct (last_component_split fl p) as (dir & Hp & Hbase & Hdir).
  pose proof (sep_index_app fl dir _ Hbase Hdir) as Hsep. rewrite <- Hp in Hsep.
  unfold splitext, _splitext, has_extension.
  set (sepIndex := match altsep fl with
                   | Some a => Z.max (rfind (sep fl) p) (rfind a p)
                   | None => rfind (sep fl) p
                   end) in *.
  destruct (existsb (N.eqb chr_dot) (last_component fl p)) eqn:Edot; cbn [andb].
  - apply existsb_dot_true, last_dot_split in Edot as (b & e & Hb & He).
    rewrite Hb in *. clear Hb.
    assert (Hdotix : rfind chr_dot p = Z.of_nat (length dir + length b)).
    { rewrite Hp, app_assoc, rfind_last, length_app by done. done. }
    rewrite Hdotix.
    destruct (Z.gtb_spec (Z.of_nat (length dir + length b)) sepIndex); [|lia].
    replace (Z.to_nat (Z.of_nat (length dir + length b) - (sepIndex + 1)))
      with (length b) by lia.
    rewrite Hsep. clearbody sepIndex. subst p.
    rewrite skip_leading_dots_spec by done.
    rewrite strip_after_last_dot_app by done.
    destruct (existsb _ b); [|done].
    rewrite (app_assoc dir b), strip_after_last_dot_app by done.
    f_equal; [|by rewrite Nat2Z.id, length_app].
    unfold slice. rewrite drop_0, Nat2Z.id. cbn [Z.to_nat].
    rewrite Nat.sub_0_r, <- length_app. by rewrite take_app_length.
  - apply existsb_dot_false in Edot.
    assert (rfind chr_dot p = rfind chr_dot dir) as ->.
    { rewrite Hp at 1. by apply rfind_app_notin. }
    pose proof (rfind_bounds chr_dot dir).
    destruct (Z.gtb_spec (rfind chr_dot dir) sepIndex); [lia|done].
Qed.

End PathFacts.

Module NamesFacts.

Import Text Path Names.

(** C7, amended: [normalize_filename] normalises the path cut at its last
    dot exactly when [os.path.splitext] finds an extension, that is when the
    last component of the path holds a dot with a character other than a dot
    before its last dot; every other path (no dot in the last component, or
    only leading dots before it, as in ".bashrc") is normalised whole. *)
Theorem normalize_filename_splitext (lower : str -> str) (fl : Flavour)
    (filename : str) :
  normalize_filename lower fl filename
  = normalize_text lower
      (InStr (if has_extension fl filename
              then strip_after_last_dot filename
              else filename)).
Proof.
  unfold normalize_filename. rewrite PathFacts.splitext_spec.
  by destruct (has_extension fl filename).
Qed.

(** C7 as stated fails on a name that starts with its only dot: the whole of
    ".bashrc" is kept and normalised to "bashrc", while the text before the
    last dot is empty. *)
Lemma normalize_filename_keeps_dotfile :
  normalize_filename lower_basic Posix (lit ".bashrc") = lit "bashrc"
  /\ normalize_filename lower_basic Nt (lit ".bashrc") = lit "bashrc"
  /\ normalize_text lower_basic (InStr (strip_after_last_dot (lit ".bashrc")))
     = [].
Proof. repeat split; vm_compute; reflexivity. Qed.

(** Where the extension is found, the two agree. *)
Example normalize_filename_examples :
  normalize_filename lower_basic Posix (lit "File-Name_123.jpg")
  = lit "filename123"
  /\ normalize_filename lower_basic Posix (lit "archive.tar.gz")
     = lit "archivetar"
  /\ normalize_filename lower_basic Posix (lit "v1.2/notes") = lit "v12notes".
Proof. repeat split; vm_compute; reflexivity. Qed.

Section ExtensionFilter.

Variable lower : str -> str.
Variable fl : Flavour.

(** C9, amended: an absent or empty allow-list accepts every file.  With
    entries, the extension split off by [os.path.splitext] (its dot
    included) is lowercased and looked up among the entries as they are
    written: a file whose lowercased extension is an entry is accepted, and,
    when no entry is a dot followed by that lowercased extension, only such
    a file is. *)
Theorem check_file_extension_lowercased_lookup (filename : str)
    (extensions : option (list str)) :
  let file_ext := lower (splitext fl filename).2 in
  (extensions = None \/ extensions = Some [] ->
   _check_file_extension lower fl filename extensions = true)
  /\ (forall l, extensions = Some l -> file_ext ∈ l ->
      _check_file_extension lower fl filename extensions = true)
  /\ (forall l, extensions = Some l -> l <> [] ->
      chr_dot :: file_ext ∉ l ->
      _check_file_extension lower fl filename extensions = true ->
      file_ext ∈ l).
Proof.
  intros file_ext. split_and!.
  - by intros [->| ->].
  - intros l -> Hin. destruct l as [|e l]; [done|].
    cbn [_check_file_extension]. fold file_ext.
    by rewrite bool_decide_eq_true_2.
  - intros l -> Hne Hdot. destruct l as [|e l]; [done|].
    cbn [_check_file_extension]. fold file_ext.
    rewrite (bool_decide_eq_false_2 _ Hdot), orb_false_r.
    by intros ?%bool_decide_eq_true_1.
Qed.

End ExtensionFilter.

(** C9 as stated fails on an entry written in upper case: "photo.JPG" ends
    with the entry ".JPG", yet the filter rejects it, since only the file's
    side is lowercased. *)
Lemma check_file_extension_rejects_uppercase_entry :
  _check_file_extension lower_basic Posix (lit "photo.JPG") (Some [lit ".JPG"])
  = false
  /\ extension_filter_spec lower_basic (lit "photo.JPG") (Some [lit ".JPG"])
     = true
  /\ (splitext Posix (lit "photo.JPG")).2 = lit ".JPG".
Proof. repeat split; vm_compute; reflexivity. Qed.

Lemma check_file_extension_lowercased_lookup_witness :
  _check_file_extension lower_basic Posix (lit "photo.JPG")
    (Some [lit ".png"; lit ".jpg"]) = true.
Proof.
  refine (proj1 (proj2 (check_file_extension_lowercased_lookup lower_basic
                          Posix (lit "photo.JPG")
                          (Some [lit ".png"; lit ".jpg"])))
            [lit ".png"; lit ".jpg"] eq_refl _).
  vm_compute. apply list_elem_of_further, list_elem_of_here.
Defined.

End NamesFacts.

(** ** The matcher *)

Module MatcherFacts.

Import Matcher.

Lemma startswith_spec (a b : str) :
  startswith a b = true <-> exists r, b = a ++ r.
Proof.
  revert b. induction a as [|x a IH]; intros b; cbn [startswith].
  - split; [intros _; by exists b|done].
  - destruct b as [|y b].
    + split; [done|]. by intros [r ?].
    + rewrite andb_true_iff, N.eqb_eq, IH. split.
      * intros [-> [r ->]]. by exists r.
      * intros [r [= -> ->]]. split; [done|]. by exists r.
Qed.

(** [a in b] holds exactly when [a] occurs in [b]. *)
Lemma str_in_spec (a b : str) : str_in a b = true <-> occurs_in a b.
Proof.
  unfold occurs_in. induction b as [|y b IH]; cbn [str_in].
  - rewrite orb_false_r, startswith_spec. split.
    + intros [r ->]. by exists [], r.
    + intros (l & r & H). symmetry in H.
      apply app_eq_nil in H as [-> H]. apply app_eq_nil in H as [-> ->].
      by exists [].
  - rewrite orb_true_iff, startswith_spec, IH. split.
    + intros [[r ->]|(l & r & ->)]; [by exists [], r|by exists (y :: l), r].
    + intros (l & r & H). destruct l as [|z l].
      * left. by exists r.
      * right. injection H as -> ->. by exists l, r.
Qed.

Lemma related_dec_spec (a b : str) :
  str_in a b || str_in b a = true <-> related a b.
Proof. unfold related. by rewrite orb_true_iff, !str_in_spec. Qed.

Lemma dict_contains_spec {V} (k : str) (d : dict V) :
  dict_contains k d = true <-> k ∈ d.*1.
Proof.
  unfold dict_contains. induction d as [|[k' v] d IH]; cbn [existsb fmap list_fmap].
  - split; [done|by intros ?%elem_of_nil].
  - rewrite orb_true_iff, IH, elem_of_cons, bool_decide_eq_true. cbn.
    intuition congruence.
Qed.

Lemma dict_setitem_keys {V} (k : str) (v : V) (d : dict V) :
  (dict_setitem k v d).*1 = if dict_contains k d then d.*1 else d.*1 ++ [k].
Proof.
  induction d as [|[k' v'] d IH]; [done|].
  cbn [dict_setitem dict_contains existsb fmap list_fmap fst].
  case_bool_decide as Hk; cbn [orb fmap list_fmap fst].
  - by rewrite Hk.
  - fold (@dict_contains V k d). rewrite IH. by destruct (dict_contains k d).
Qed.

(** The index built from the spreadsheet is a dict: its keys are distinct,
    and none of them is empty. *)
Lemma build_index_keys (lower : str -> str) (excel_names : list str) :
  NoDup (build_index lower excel_names).*1
  /\ Forall (fun item => item.1 <> []) (build_index lower excel_names).
Proof.
  unfold build_index.
  assert (Hinit : NoDup ([] : dict str).*1
                  /\ Forall (fun item : str * str => item.1 <> []) [])
    by (split; constructor).
  revert Hinit. generalize ([] : dict str).
  induction excel_names as [|name names IH]; intros d Hd; [done|].
  cbn [fold_left]. apply IH. destruct Hd as [Hnd Hne].
  destruct (nonempty _) eqn:Hn; [|done]. split.
  - rewrite dict_setitem_keys.
    destruct (dict_contains _ d) eqn:Hc; [done|].
    apply NoDup_app. split_and!; [done| |apply NoDup_singleton].
    intros k Hk ->%list_elem_of_singleton.
    apply dict_contains_spec in Hk. congruence.
  - clear Hnd. induction Hne as [|[k' v'] d Hk Hrest IHd]; cbn [dict_setitem].
    + constructor; [|done]. cbn. by destruct (Text.normalize_text _ _).
    + case_bool_decide; (constructor; [|done]); [|done].
      cbn. by destruct (Text.normalize_text _ _).
Qed.

(** In a dict, whose keys are distinct, [d[k]] is the value stored with [k]. *)
Lemma dict_getitem_elem_of {V} (k : str) (v : V) (d : dict V) :
  NoDup d.*1 -> (k, v) ∈ d -> dict_getitem k d = Some v.
Proof.
  induction d as [|[k' v'] d IH]; [by intros _ ?%elem_of_nil|].
  cbn [fmap list_fmap dict_getitem]. intros [Hk Hd]%NoDup_cons Hin.
  apply elem_of_cons in Hin as [[= <- <-]|Hin].
  - by rewrite bool_decide_eq_true_2.
  - rewrite bool_decide_eq_false_2; [by apply IH|].
    cbn in Hk. intros ->. apply Hk. apply list_elem_of_fmap. by exists (k, v).
Qed.

(** The scan stops at the first item whose key is related to the file key. *)
Lemma scan_items_first {V} (key : str) (pre : dict V) k v post :
  Forall (fun item => ~ related key item.1) pre ->
  related key k ->
  scan_items key (pre ++ (k, v) :: post) = Some v.
Proof.
  intros Hpre Hk. induction Hpre as [|[k' v'] pre Hn _ IH]; cbn [app scan_items].
  - apply related_dec_spec in Hk. by rewrite Hk.
  - cbn in Hn. rewrite <- related_dec_spec in Hn.
    by destruct (str_in key k' || str_in k' key).
Qed.

Lemma scan_items_none {V} (key : str) (d : dict V) :
  Forall (fun item => ~ related key item.1) d -> scan_items key d = None.
Proof.
  induction 1 as [|[k' v'] d Hn _ IH]; [done|]. cbn [scan_items].
  cbn in Hn. rewrite <- related_dec_spec in Hn.
  by destruct (str_in key k' || str_in k' key).
Qed.

Lemma scan_descriptions_scan_items (key : str) (d : dict DescEntry) :
  scan_descriptions key d = description <$> scan_items key d.
Proof.
  induction d as [|[k v] d IH]; [done|]. cbn [scan_descriptions scan_items].
  by destruct (str_in key k || str_in k key).
Qed.

(** C1: [find_matching_name] looks the file key up first, and the value
    stored under it is the answer whatever other keys contain it or are
    contained in it; without such a key, it is the value of the first item,
    in the order of the index, whose key contains the file key or is
    contained in it, and [None] when there is no such item.
    [find_description_for_file] of [main.py] is the same search, for the
    normalised file name, returning the description of the entry. *)
Theorem find_matching_name_exact_then_first_substring {V} (fileKey : str)
    (index : dict V) :
  NoDup index.*1 ->
  (forall v, (fileKey, v) ∈ index -> find_matching_name fileKey index = Some v)
  /\ (fileKey ∉ index.*1 ->
      (forall pre refKey refValue post,
         index = pre ++ (refKey, refValue) :: post ->
         Forall (fun item => ~ related fileKey item.1) pre ->
         related fileKey refKey ->
         find_matching_name fileKey index = Some refValue)
      /\ (Forall (fun item => ~ related fileKey item.1) index ->
          find_matching_name fileKey index = None))
  /\ (forall lower fl (descriptions : dict DescEntry) filename,
        find_description_for_file lower fl descriptions filename
        = description <$>
            find_matching_name (Names.normalize_filename lower fl filename)
              descriptions).
Proof.
  intros Hnd. split_and!.
  - intros v Hin. unfold find_matching_name.
    assert (dict_contains fileKey index = true) as ->.
    { apply dict_contains_spec, list_elem_of_fmap. by exists (fileKey, v). }
    by apply dict_getitem_elem_of.
  - intros Hnot.
    assert (dict_contains fileKey index = false) as Hc.
    { apply not_true_is_false. by rewrite dict_contains_spec. }
    unfold find_matching_name. rewrite Hc. split.
    + intros pre k v post -> Hpre Hk. by apply scan_items_first.
    + apply scan_items_none.
  - intros lower fl descriptions filename.
    unfold find_description_for_file, find_matching_name.
    destruct (dict_contains _ descriptions); [done|].
    apply scan_descriptions_scan_items.
Qed.

(** An exact key wins over an earlier key that contains it. *)
Lemma find_matching_name_exact_then_first_substring_witness :
  find_matching_name (lit "report2024")
    [(lit "annualreport2024full", lit "X");
     (lit "report2024", lit "Report 2024")]
  = Some (lit "Report 2024").
Proof.
  refine (proj1 (find_matching_name_exact_then_first_substring
                   (lit "report2024")
                   [(lit "annualreport2024full", lit "X");
                    (lit "report2024", lit "Report 2024")] _)
            (lit "Report 2024") _).
  - cbn [fmap list_fmap fst]. apply NoDup_cons. split; [|apply NoDup_singleton].
    intros H%list_elem_of_singleton. vm_compute in H. discriminate H.
  - apply list_elem_of_further, list_elem_of_here.
Defined.

(** The examples of the specification: the exact case, the substring case,
    no relation at all, and the first of two related keys. *)
Example find_matching_name_examples :
  find_matching_name (lit "report2024") [(lit "report2024", lit "Report 2024")]
  = Some (lit "Report 2024")
  /\ find_matching_name (lit "report2024") [(lit "annualreport2024full", lit "X")]
     = Some (lit "X")
  /\ find_matching_name (lit "report2024") [(lit "invoice", lit "Y")] = None
  /\ find_matching_name (lit "foto12")
       [(lit "plan", lit "P"); (lit "foto1", lit "A"); (lit "foto12x", lit "B")]
     = Some (lit "A").
Proof. repeat split; vm_compute; reflexivity. Qed.

(** C4 fails on the code: nothing rejects an empty file key.  It occurs in
    every reference key, so the scan answers with the first item of the index;
    a file such as "---.jpg", whose name normalises to the empty key, gets the
    description of the first spreadsheet row. *)
Theorem find_matching_name_empty_key_matches_first :
  find_matching_name []
    [(lit "report2024", lit "Report 2024"); (lit "plan", lit "Plan")]
  = Some (lit "Report 2024")
  /\ Names.normalize_filename Text.lower_basic Path.Posix (lit "---.jpg") = []
  /\ find_description_for_file Text.lower_basic Path.Posix
       [(lit "report2024",
         {| original_name := lit "Report 2024";
            description := lit "Annual report"; excel_row := 1 |})]
       (lit "---.jpg")
     = Some (lit "Annual report").
Proof. repeat split; vm_compute; reflexivity. Qed.

(** The same for every index: an empty file key is never sent away once the
    index has an item. *)
Lemma find_matching_name_empty_key {V} (k : str) (v : V) (rest : dict V) :
  exists v', find_matching_name [] ((k, v) :: rest) = Some v'.
Proof.
  unfold find_matching_name. destruct (dict_contains [] ((k, v) :: rest)) eqn:Hc.
  - apply dict_contains_spec, list_elem_of_fmap in Hc as [[k' v'] [Hk Hin]].
    cbn in Hk. subst k'. revert Hin. generalize ((k, v) :: rest). intros d.
    induction d as [|[k2 v2] d IH]; [by intros ?%elem_of_nil|].
    intros Hin. cbn [dict_getitem]. case_bool_decide; [by eexists|].
    apply elem_of_cons in Hin as [[= <- <-]|Hin]; [congruence|exact (IH Hin)].
  - exists v. cbn [scan_items]. by destruct k.
Qed.

(** The partial matcher of the same module, for comparison, matches an empty
    file key with nothing. *)
Lemma partial_match_rejects_empty_key {V} (index : dict V) :
  partial_match [] index = None.
Proof.
  unfold partial_match.
  assert (best_match_loop [] index None O = (None, O)) as ->; [|done].
  induction index as [|[k v] index IH]; [done|].
  cbn [best_match_loop]. unfold common_len_with. by destruct k.
Qed.

Example partial_match_examples :
  partial_match (lit "foto12") [(lit "plan", lit "P"); (lit "xfoto1", lit "A")]
  = Some (lit "A", lit "xfoto1", 5%nat)
  /\ partial_match (lit "ab") [(lit "abc", lit "A")] = None.
Proof. split; vm_compute; reflexivity. Qed.

End MatcherFacts.

(** ** The reconciler *)

Module ReconcilerFacts.

Import Remote Reconciler.

Lemma nonempty_true {A} (l : list A) : nonempty l = true <-> l <> [].
Proof. by destruct l. Qed.

(** An entry the existence check returns is a dict with the matching title or
    name, hence not an empty one. *)
Lemma scan_entries_found fl filename items found :
  scan_entries fl filename items = Ok (Some found) ->
  JObj found ∈ items
  /\ (eq_str (obj_get found (lit "title")) (Path.splitext fl filename).1
      || eq_str (obj_get found (lit "name")) filename = true)
  /\ nonempty found = true.
Proof.
  induction items as [|item items IH]; [done|]. cbn [scan_entries].
  destruct item as [| | | | |file_entry]; try done.
  destruct (eq_str (obj_get file_entry _) _ || eq_str (obj_get file_entry _) _)
    eqn:Hm.
  - intros [= <-]. split_and!; [apply list_elem_of_here|done|].
    by destruct file_entry.
  - intros (? & ? & ?)%IH. split_and!; [by apply list_elem_of_further|done..].
Qed.

Section ReconcilerFacts.

Variable E : Env.

Lemma check_file_exists_calls site_id folder_id filename (s : St E) :
  calls (check_file_exists E site_id folder_id filename s).2
  = calls s ++ [GetFileEntries site_id folder_id].
Proof.
  unfold check_file_exists, bind, client_call, ret.
  by destruct (call_jsonws E _ (world s)).
Qed.

Lemma check_file_exists_found site_id folder_id filename (s s1 : St E) found :
  check_file_exists E site_id folder_id filename s = (Some found, s1) ->
  nonempty found = true.
Proof.
  unfold check_file_exists, bind, client_call, ret.
  destruct (call_jsonws E _ (world s)) as [result w]. intros [= H _].
  destruct result as [| | | |items|]; try done.
  destruct (truthy (JArr items)); [|done].
  destruct (scan_entries _ _ items) as [r|] eqn:Hs; [|done]. subst r.
  by apply scan_entries_found in Hs as (_ & _ & ?).
Qed.

(** The upload proper: a document that comes back without a description gets
    it by a second call, and is returned whatever that call answers. *)
Lemma upload_file_internal_patches_description file_path site_id folder_id
    description change_log (s : St E) content doc w :
  read_base64 E file_path (world s) = Some content ->
  call_jsonws E
    (AddFileEntry site_id folder_id (basename E file_path)
       (_get_mime_type E file_path)
       (Path.splitext (flavour E) (basename E file_path)).1
       description change_log content) (world s) = (JObj doc, w) ->
  doc <> [] ->
  truthy (obj_get doc (lit "description")) = false ->
  description <> [] ->
  _upload_file_internal E file_path site_id folder_id description change_log s
  = (JObj doc,
     mkSt (call_jsonws E
             (UpdateFileEntry (obj_get doc (lit "fileEntryId")) description)
             w).2
       (calls s
        ++ [AddFileEntry site_id folder_id (basename E file_path)
              (_get_mime_type E file_path)
              (Path.splitext (flavour E) (basename E file_path)).1
              description change_log content;
            UpdateFileEntry (obj_get doc (lit "fileEntryId")) description])).
Proof.
  intros Hread Hadd Hdoc Hdesc Hd.
  apply nonempty_true in Hdoc, Hd.
  unfold _upload_file_internal, bind, ask, ret. rewrite Hread.
  unfold client_call at 1. rewrite Hadd. cbn [truthy]. rewrite Hdoc, Hd, Hdesc.
  cbn [negb]. unfold update_file_description, bind, client_call, ret.
  cbn [world calls].
  destruct (call_jsonws E (UpdateFileEntry _ _) w) as [answer w'].
  cbn [snd]. by rewrite <- app_assoc.
Qed.

(** C3, amended: when the upload fails, a remote document was found by the
    existence check, [replace_existing] is false and the description is not
    empty, the only call left is the update of that document's description,
    and the document found is the result.  With an empty description nothing
    is updated and the result is the failed upload's. *)
Theorem upload_or_replace_file_falls_back_to_description file_path site_id
    folder_id description change_log (s s1 s2 : St E) existing result :
  path_exists E file_path (world s) = true ->
  check_file_exists E site_id folder_id (basename E file_path) s
  = (Some existing, s1) ->
  _upload_file_internal E file_path site_id folder_id description change_log s1
  = (result, s2) ->
  truthy result = false ->
  (description <> [] ->
   exists s3,
     upload_or_replace_file E file_path site_id folder_id description false
       change_log s = (JObj existing, s3)
     /\ calls s3
        = calls s2
          ++ [UpdateFileEntry (obj_get existing (lit "fileEntryId"))
                description])
  /\ (description = [] ->
      upload_or_replace_file E file_path site_id folder_id description false
        change_log s = (result, s2)).
Proof.
  intros Hex Hcheck Hup Hfail.
  pose proof (check_file_exists_found _ _ _ _ _ _ Hcheck) as Hne.
  unfold upload_or_replace_file, bind, ask, ret. rewrite Hex. cbn [negb].
  rewrite Hcheck. cbn [as_json truthy]. rewrite Hne, andb_false_r, Hup, Hfail.
  cbn [negb andb entry_get]. split.
  - intros Hd%nonempty_true. rewrite Hd.
    unfold update_file_description, bind, client_call, ret.
    destruct (call_jsonws E _ (world s2)) as [answer w]. by eexists.
  - by intros ->.
Qed.

(** C8: when the upload returns a document that has no description although a
    non-empty one was asked for, one more call updates the description of
    that document, and the document is the result of the reconciliation
    whatever the server answers to that call. *)
Theorem upload_success_survives_description_update_failure file_path site_id
    folder_id description replace_existing change_log (s s1 s2 : St E)
    existing content doc w :
  path_exists E file_path (world s) = true ->
  check_file_exists E site_id folder_id (basename E file_path) s
  = (existing, s1) ->
  s2 = (if truthy (as_json existing) && replace_existing
        then (delete_file E (entry_get existing (lit "fileEntryId")) s1).2
        else s1) ->
  read_base64 E file_path (world s2) = Some content ->
  call_jsonws E
    (AddFileEntry site_id folder_id (basename E file_path)
       (_get_mime_type E file_path)
       (Path.splitext (flavour E) (basename E file_path)).1
       description change_log content) (world s2) = (JObj doc, w) ->
  doc <> [] ->
  truthy (obj_get doc (lit "description")) = false ->
  description <> [] ->
  forall answer w',
    call_jsonws E
      (UpdateFileEntry (obj_get doc (lit "fileEntryId")) description) w
    = (answer, w') ->
    upload_or_replace_file E file_path site_id folder_id description
      replace_existing change_log s
    = (JObj doc,
       mkSt w'
         (calls s2
          ++ [AddFileEntry site_id folder_id (basename E file_path)
                (_get_mime_type E file_path)
                (Path.splitext (flavour E) (basename E file_path)).1
                description change_log content;
              UpdateFileEntry (obj_get doc (lit "fileEntryId")) description])).
Proof.
  intros Hex Hcheck Hs2 Hread Hadd Hdoc Hdesc Hd answer w' Hupd.
  pose proof (upload_file_internal_patches_description _ _ _ _ _ _ _ _ _
                Hread Hadd Hdoc Hdesc Hd) as Hup.
  rewrite Hupd in Hup. cbn [snd] in Hup.
  unfold upload_or_replace_file, bind, ask, ret. rewrite Hex. cbn [negb].
  rewrite Hcheck.
  apply nonempty_true in Hdoc.
  destruct (truthy (as_json existing) && replace_existing).
  - destruct (delete_file E _ s1) as [deleted s2']. cbn [snd] in Hs2. subst s2'.
    rewrite Hup. cbn [truthy]. by rewrite Hdoc.
  - subst s1. rewrite Hup. cbn [truthy]. by rewrite Hdoc.
Qed.

End ReconcilerFacts.

Import Sample.

(** C3 as stated fails when no description was asked for: the upload of
    [foto1.jpg] is refused, the existence check had found the stored
    [foto1], [replace_existing] is false, and the result is [None] after the
    two calls of the check and of the upload, with no update. *)
Lemma upload_or_replace_file_no_fallback_without_description :
  (check_file_exists sim_env 1 0 (lit "foto1.jpg") (start refusing_server)).1
  = Some doc_foto1
  /\ (upload_or_replace_file sim_env (lit "/in/foto1.jpg") 1 0 [] false
        (lit "log") (start refusing_server)).1 = JNull
  /\ calls (upload_or_replace_file sim_env (lit "/in/foto1.jpg") 1 0 [] false
              (lit "log") (start refusing_server)).2
     = [GetFileEntries 1 0;
        AddFileEntry 1 0 (lit "foto1.jpg") (lit "application/octet-stream")
          (lit "foto1") [] (lit "log") (lit "QQ==")].
Proof. repeat split; vm_compute; reflexivity. Qed.

Lemma upload_or_replace_file_falls_back_to_description_witness :
  exists s3,
    upload_or_replace_file sim_env (lit "/in/foto1.jpg") 1 0 (lit "new") false
      (lit "log") (start refusing_server) = (JObj doc_foto1, s3)
    /\ calls s3
       = calls (_upload_file_internal sim_env (lit "/in/foto1.jpg") 1 0
                  (lit "new") (lit "log")
                  (check_file_exists sim_env 1 0 (lit "foto1.jpg")
                     (start refusing_server)).2).2
         ++ [UpdateFileEntry (obj_get doc_foto1 (lit "fileEntryId"))
               (lit "new")].
Proof.
  refine (proj1 (upload_or_replace_file_falls_back_to_description sim_env
            (lit "/in/foto1.jpg") 1 0 (lit "new") (lit "log")
            (start refusing_server)
            (check_file_exists sim_env 1 0 (lit "foto1.jpg")
               (start refusing_server)).2
            (_upload_file_internal sim_env (lit "/in/foto1.jpg") 1 0
               (lit "new") (lit "log")
               (check_file_exists sim_env 1 0 (lit "foto1.jpg")
                  (start refusing_server)).2).2
            doc_foto1 JNull _ _ _ _) _).
  - reflexivity.
  - reflexivity.
  - reflexivity.
  - reflexivity.
  - discriminate.
Defined.

(** The fallback on the sample server, call by call. *)
Example upload_or_replace_file_fallback_calls :
  calls (upload_or_replace_file sim_env (lit "/in/foto1.jpg") 1 0 (lit "new")
           false (lit "log") (start refusing_server)).2
  = [GetFileEntries 1 0;
     AddFileEntry 1 0 (lit "foto1.jpg") (lit "application/octet-stream")
       (lit "foto1") (lit "new") (lit "log") (lit "QQ==");
     UpdateFileEntry (JNum 7) (lit "new")].
Proof. vm_compute. reflexivity. Qed.

(** On [forgetful_server] the upload of [foto3.png] succeeds, the stored
    document has no description, the update that follows is refused, and the
    uploaded document is the result all the same. *)
Lemma upload_success_survives_description_update_failure_witness :
  exists st,
    upload_or_replace_file sim_env (lit "/in/foto3.png") 1 0 (lit "new") true
      (lit "log") (start forgetful_server) = (JObj uploaded_foto3, st)
    /\ last (calls st) = Some (UpdateFileEntry (JNum 8) (lit "new"))
    /\ (sim_call (UpdateFileEntry (JNum 8) (lit "new")) (world st)).1 = JNull.
Proof.
  eexists. split; [|split].
  - eapply (upload_success_survives_description_update_failure sim_env
              (lit "/in/foto3.png") 1 0 (lit "new") true (lit "log")
              (start forgetful_server) _ _ None (lit "Qw==") uploaded_foto3
              _ eq_refl eq_refl eq_refl eq_refl eq_refl).
    + discriminate.
    + reflexivity.
    + discriminate.
    + reflexivity.
  - reflexivity.
  - reflexivity.
Defined.

End ReconcilerFacts.

(** ** The batch orchestrator *)

Module BatchFacts.

Import Remote Batch.

(** Lengths after one more entry went to one of the lists of the report. *)
Ltac count_appended :=
  cbn [append_replaced append_successful append_failed append_skipped
       successful failed skipped replaced];
  rewrite ?length_app; cbn [length]; lia.

Lemma filter_split_length {A} (f : A -> bool) (l : list A) :
  (length (List.filter (fun x => negb (f x)) l) + length (List.filter f l)
   = length l)%nat.
Proof.
  induction l as [|x l IH]; [done|]. cbn [List.filter].
  destruct (f x); cbn [negb length]; lia.
Qed.

Section BatchFacts.

Variable E : Env.
Variable site_id folder_id : Z.
Variable description_template : str.
Variable replace_existing : bool.
Variable metadata : option (Matcher.dict (Matcher.dict str)).

Local Abbreviation batch_loop :=
  (Batch.batch_loop E site_id folder_id description_template replace_existing
     metadata).
Local Abbreviation upload_files_batch :=
  (Batch.upload_files_batch E site_id folder_id description_template
     replace_existing metadata).

(** What the loop keeps true of its [results]: the replaced entries are the
    successful entries marked as replacements, in the same order, and every
    file gone through sits in exactly one of the three other lists. *)
Lemma batch_loop_invariant files i total acc (s s' : St E) r :
  batch_loop files i total acc s = (Ok r, s') ->
  replaced acc
  = List.filter (fun x => truthy (was_replaced x)) (successful acc) ->
  replaced r = List.filter (fun x => truthy (was_replaced x)) (successful r)
  /\ (length (successful r) + length (failed r) + length (skipped r)
      = length (successful acc) + length (failed acc) + length (skipped acc)
        + length files)%nat.
Proof.
  revert i acc s. induction files as [|file_path rest IH]; intros i acc s.
  - cbn [Batch.batch_loop]. unfold ret. intros [= <- <-] Hacc.
    split; [done|]. cbn [length]. lia.
  - cbn [Batch.batch_loop]. unfold bind at 1, ask.
    destruct (path_exists E file_path (world s)); cbn [negb].
    2:{ intros Hrun Hacc. apply IH in Hrun as [Hr Hn]; [|done].
        split; [done|]. rewrite Hn. count_appended. }
    destruct (build_description _ _ _ _ _ _) as [description|]; [|done].
    unfold bind at 1.
    destruct (Reconciler.check_file_exists _ _ _ _ s) as [existing s1].
    unfold bind at 1.
    destruct (Reconciler.upload_or_replace_file _ _ _ _ _ _ _ s1)
      as [result s2].
    destruct (truthy result) eqn:Hres.
    2:{ intros Hrun Hacc. apply IH in Hrun as [Hr Hn]; [|done].
        split; [done|]. rewrite Hn. count_appended. }
    destruct result as [| | | | |fields]; try done.
    destruct (truthy (is_replacement_value existing replace_existing)) eqn:Hrep;
      intros Hrun Hacc; apply IH in Hrun as [Hr Hn].
    + split; [done|]. rewrite Hn. count_appended.
    + cbn [append_replaced append_successful successful replaced].
      rewrite List.filter_app, Hacc. cbn [List.filter was_replaced].
      by rewrite Hrep.
    + split; [done|]. rewrite Hn. count_appended.
    + cbn [append_successful successful replaced].
      rewrite List.filter_app, Hacc. cbn [List.filter was_replaced].
      by rewrite Hrep, app_nil_r.
Qed.

(** C5: in the report of a batch run the lists [successful], [failed] and
    [skipped] add up to the number of files given, and [replaced] is the
    part of [successful] marked as replacements; so the successful entries
    not marked as replacements, the replaced ones, the failed and the
    skipped files add up to the number of files.  The successful entries
    not marked as replacements are not all new uploads. *)
Theorem batch_report_counts_add_up files (s s' : St E) r :
  upload_files_batch files s = (Ok r, s') ->
  (length (successful r) + length (failed r) + length (skipped r)
   = length files)%nat
  /\ replaced r
     = List.filter (fun x => truthy (was_replaced x)) (successful r)
  /\ (length (logged_as_new r) + length (replaced r)
      = length (successful r))%nat
  /\ (length (logged_as_new r) + length (replaced r) + length (failed r)
      + length (skipped r) = length files)%nat.
Proof.
  intros Hrun. apply batch_loop_invariant in Hrun as [Hr Hn]; [|done].
  cbn [empty_results successful failed skipped length] in Hn.
  assert (Hsplit : (length (logged_as_new r) + length (replaced r)
                    = length (successful r))%nat)
    by (unfold logged_as_new; by rewrite Hr, filter_split_length).
  split_and!; [lia|done|done|lia].
Qed.

(** C10: every entry of the [replaced] list of a report is an entry of its
    [successful] list, so there are at most as many. *)
Theorem batch_replaced_are_successful files (s s' : St E) r :
  upload_files_batch files s = (Ok r, s') ->
  (forall x, x ∈ replaced r -> x ∈ successful r)
  /\ sublist (replaced r) (successful r)
  /\ (length (replaced r) <= length (successful r))%nat.
Proof.
  intros Hrun. apply batch_loop_invariant in Hrun as [Hr _]; [|done].
  assert (Hsub : sublist (replaced r) (successful r)).
  { rewrite Hr. generalize (successful r). intros l.
    induction l as [|x l IH]; [done|]. cbn [List.filter].
    destruct (truthy (was_replaced x)); by constructor. }
  split_and!; [|done|by apply sublist_length].
  intros x Hx. by eapply elem_of_sublist.
Qed.

Lemma build_description_defined file_name i total :
  description_template = []
  \/ (forall name j n,
        is_Some (format_template E description_template name j n)) ->
  is_Some (build_description E description_template metadata file_name i total).
Proof.
  intros Hfmt. unfold build_description.
  assert (exists d,
            (if nonempty description_template
             then format_template E description_template file_name i total
             else Some []) = Some d) as [d ->].
  { destruct Hfmt as [->|Hfmt]; [by exists []|].
    destruct (nonempty description_template); [apply Hfmt|by exists []]. }
  cbn. destruct metadata as [md|]; [|done].
  destruct (nonempty md && Matcher.dict_contains file_name md); [|done].
  destruct (Matcher.dict_getitem file_name md) as [file_meta|]; [|done].
  destruct (Matcher.dict_getitem _ file_meta); [|done].
  by destruct (nonempty d).
Qed.

Lemma upload_file_internal_shape file_path description change_log (s : St E) :
  answers_add_with_dict E ->
  dict_or_falsy
    (Reconciler._upload_file_internal E file_path site_id folder_id description
       change_log s).1.
Proof.
  intros Hadd. unfold Reconciler._upload_file_internal, bind, ask, ret.
  destruct (read_base64 E file_path (world s)) as [content|]; [|done].
  unfold client_call at 1.
  match goal with
  | |- context [call_jsonws E (AddFileEntry ?a ?b ?c ?d ?e ?f ?g ?h) ?w] =>
      pose proof (Hadd a b c d e f g h w) as Hshape;
      destruct (call_jsonws E (AddFileEntry a b c d e f g h) w) as [result w']
  end.
  cbn [fst] in Hshape.
  destruct (truthy result) eqn:Hres; [|done].
  destruct (nonempty description).
  - destruct result as [| | | | |fields]; try done.
    destruct (negb _); [|done].
    unfold Reconciler.update_file_description, bind, client_call, ret.
    by destruct (call_jsonws E _ _).
  - done.
Qed.

Lemma upload_or_replace_file_shape file_path description change_log (s : St E) :
  answers_add_with_dict E ->
  dict_or_falsy
    (Reconciler.upload_or_replace_file E file_path site_id folder_id
       description replace_existing change_log s).1.
Proof.
  intros Hadd. unfold Reconciler.upload_or_replace_file. unfold bind at 1, ask.
  destruct (path_exists E file_path (world s)); [|done]. cbn [negb].
  unfold bind at 1.
  destruct (Reconciler.check_file_exists E _ _ _ s) as [existing s1].
  unfold bind at 1.
  match goal with
  | |- context [(if ?c then ?a else ?b) s1] =>
      destruct ((if c then a else b) s1) as [[] s2]
  end.
  unfold bind at 1.
  pose proof (upload_file_internal_shape file_path description change_log s2
                Hadd) as Hshape.
  destruct (Reconciler._upload_file_internal E _ _ _ _ _ s2) as [result s3].
  cbn [fst] in Hshape.
  destruct (negb (truthy result) && truthy (Reconciler.as_json existing)
            && negb replace_existing) eqn:Hfall; [|done].
  destruct (nonempty description); [|done].
  unfold Reconciler.update_file_description, bind, client_call, ret.
  destruct (call_jsonws E _ _). cbn [fst].
  destruct existing; [done|]. by rewrite andb_false_r in Hfall.
Qed.

(** A batch run ends with a report when the description template is empty
    (or formats without raising) and the server answers an upload with a
    document or with nothing. *)
Lemma batch_returns_report files (s : St E) :
  description_template = []
  \/ (forall name j n,
        is_Some (format_template E description_template name j n)) ->
  answers_add_with_dict E ->
  exists r s', upload_files_batch files s = (Ok r, s').
Proof.
  intros Hfmt Hadd. unfold Batch.upload_files_batch.
  generalize 1%nat (length files) empty_results. revert s.
  induction files as [|file_path rest IH]; intros s i total acc.
  - by eexists _, _.
  - cbn [Batch.batch_loop]. unfold bind at 1, ask.
    destruct (path_exists E file_path (world s)); cbn [negb]; [|apply IH].
    destruct (build_description_defined (basename E file_path) i total Hfmt)
      as [description ->].
    unfold bind at 1.
    destruct (Reconciler.check_file_exists _ _ _ _ s) as [existing s1].
    unfold bind at 1.
    pose proof (upload_or_replace_file_shape file_path description
                  (batch_change_log i total) s1 Hadd) as Hshape.
    destruct (Reconciler.upload_or_replace_file _ _ _ _ _ _ _ s1)
      as [result s2].
    cbn [fst] in Hshape.
    destruct (truthy result) eqn:Hres; [|apply IH].
    destruct result as [| | | | |fields]; try congruence.
    apply IH.
Qed.

End BatchFacts.

Import Sample.

Lemma sample_run_report :
  Batch.upload_files_batch sim_env 1 0 [] true None four_paths
    (start forgetful_server) = (Ok sample_report, sample_run.2).
Proof. vm_compute. reflexivity. Qed.

(** The sample batch: [foto1.jpg] replaces the stored document, the missing
    path is skipped, [foto2.png] is refused and [foto3.png] is new. *)
Example sample_report_counts :
  (length (logged_as_new sample_report) = 1
   /\ length (replaced sample_report) = 1
   /\ length (failed sample_report) = 1
   /\ length (skipped sample_report) = 1
   /\ length (successful sample_report) = 2)%nat.
Proof. repeat split; vm_compute; reflexivity. Qed.

Lemma batch_report_counts_add_up_witness :
  (length (successful sample_report) + length (failed sample_report)
   + length (skipped sample_report) = length four_paths)%nat
  /\ replaced sample_report
     = List.filter (fun x => truthy (was_replaced x))
         (successful sample_report)
  /\ (length (logged_as_new sample_report) + length (replaced sample_report)
      = length (successful sample_report))%nat
  /\ (length (logged_as_new sample_report) + length (replaced sample_report)
      + length (failed sample_report) + length (skipped sample_report)
      = length four_paths)%nat.
Proof.
  exact (batch_report_counts_add_up sim_env 1 0 [] true None four_paths
           (start forgetful_server) sample_run.2 sample_report
           sample_run_report).
Defined.

(** A batch of one file, without [replace_existing] and with the template
    "new", against the server that holds [foto1] and refuses every upload:
    the one upload made is refused and the server holds what it held, the
    description of the stored document is set instead, and the report
    counts the file as successful and not as a replacement, with nothing
    under [failed]. *)
Lemma batch_counts_fallback_as_new_upload :
  exists r s',
    Batch.upload_files_batch sim_env 1 0 (lit "new") false None
      [lit "/in/foto1.jpg"] (start refusing_server) = (Ok r, s')
    /\ calls s'
       = [GetFileEntries 1 0; GetFileEntries 1 0;
          AddFileEntry 1 0 (lit "foto1.jpg") (lit "application/octet-stream")
            (lit "foto1") (lit "new") (batch_change_log 1 1) (lit "QQ==");
          UpdateFileEntry (JNum 7) (lit "new")]
    /\ (sim_call
          (AddFileEntry 1 0 (lit "foto1.jpg")
             (lit "application/octet-stream") (lit "foto1") (lit "new")
             (batch_change_log 1 1) (lit "QQ==")) refusing_server).1
       = JNull
    /\ docs (world s' : Sim) = docs refusing_server
    /\ file_entry_id <$> successful r = [JNum 7]
    /\ length (logged_as_new r) = 1%nat
    /\ replaced r = [] /\ failed r = [] /\ skipped r = [].
Proof. eexists _, _. repeat split; vm_compute; reflexivity. Qed.

Lemma batch_replaced_are_successful_witness :
  sublist (replaced sample_report) (successful sample_report)
  /\ (length (replaced sample_report) <= length (successful sample_report))%nat.
Proof.
  exact (proj2 (batch_replaced_are_successful sim_env 1 0 [] true None
                  four_paths (start forgetful_server) sample_run.2
                  sample_report sample_run_report)).
Defined.

End BatchFacts.

(** ** More on the matcher *)

Module MatcherMore.

Import Matcher.

Lemma occurs_in_refl (a : str) : occurs_in a a.
Proof. exists [], []. by rewrite app_nil_r. Qed.

Lemma occurs_in_length (w a : str) :
  occurs_in w a -> (length w <= length a)%nat.
Proof. intros (l & r & ->). rewrite !length_app. lia. Qed.

Lemma scan_items_sound {V} (key : str) (d : dict V) v :
  scan_items key d = Some v -> exists k, (k, v) ∈ d /\ related key k.
Proof.
  induction d as [|[k' v'] d IH]; [done|]. cbn [scan_items].
  destruct (str_in key k' || str_in k' key) eqn:Hr.
  - intros [= <-]. exists k'. split; [apply list_elem_of_here|].
    by apply MatcherFacts.related_dec_spec.
  - intros (k & Hin & Hk)%IH. exists k. split; [by apply list_elem_of_further|done].
Qed.

Lemma scan_items_none_inv {V} (key : str) (d : dict V) :
  scan_items key d = None -> Forall (fun item => ~ related key item.1) d.
Proof.
  induction d as [|[k' v'] d IH]; [constructor|]. cbn [scan_items].
  destruct (str_in key k' || str_in k' key) eqn:Hr; [done|].
  intros Hn. constructor; [|by apply IH]. cbn.
  rewrite <- MatcherFacts.related_dec_spec. by rewrite Hr.
Qed.

Lemma dict_getitem_sound {V} (k : str) (d : dict V) v :
  dict_getitem k d = Some v -> (k, v) ∈ d.
Proof.
  induction d as [|[k' v'] d IH]; [done|]. cbn [dict_getitem].
  case_bool_decide as Hk.
  - intros [= <-]. subst k'. apply list_elem_of_here.
  - intros ?%IH. by apply list_elem_of_further.
Qed.

Lemma dict_getitem_contains {V} (k : str) (d : dict V) :
  dict_contains k d = true -> is_Some (dict_getitem k d).
Proof.
  induction d as [|[k' v'] d IH]; [done|].
  cbn [dict_contains existsb dict_getitem fst].
  case_bool_decide; [by eexists|]. cbn [orb]. apply IH.
Qed.

Lemma find_matching_name_sound {V} (fileKey : str) (index : dict V) v :
  find_matching_name fileKey index = Some v ->
  exists refKey, (refKey, v) ∈ index /\ related fileKey refKey.
Proof.
  unfold find_matching_name. destruct (dict_contains fileKey index).
  - intros ?%dict_getitem_sound. exists fileKey. split; [done|].
    left. apply occurs_in_refl.
  - apply scan_items_sound.
Qed.

(** X1: a file goes unmatched exactly when no reference key contains its key
    or is contained in it, and a value that is returned is stored under such a
    key. *)
Theorem find_matching_name_unmatched_iff_unrelated {V} (fileKey : str)
    (index : dict V) :
  (find_matching_name fileKey index = None
   <-> Forall (fun item => ~ related fileKey item.1) index)
  /\ (forall v, find_matching_name fileKey index = Some v ->
      exists refKey, (refKey, v) ∈ index /\ related fileKey refKey).
Proof.
  pose proof (@find_matching_name_sound V fileKey index) as Hsound.
  split; [|done]. split.
  - unfold find_matching_name.
    destruct (dict_contains fileKey index) eqn:Hc.
    + apply dict_getitem_contains in Hc as [v ->]. done.
    + apply scan_items_none_inv.
  - intros Hall. destruct (find_matching_name fileKey index) as [v|] eqn:Hf;
      [|done].
    destruct (Hsound v eq_refl) as (k & Hin & Hk).
    rewrite Forall_forall in Hall. by destruct (Hall _ Hin).
Qed.

Lemma dict_getitem_setitem_eq {V} (k : str) (v : V) (d : dict V) :
  dict_getitem k (dict_setitem k v d) = Some v.
Proof.
  induction d as [|[k' v'] d IH]; cbn [dict_setitem dict_getitem].
  - by rewrite bool_decide_eq_true_2.
  - case_bool_decide as Hk; cbn [dict_getitem].
    + by rewrite bool_decide_eq_true_2.
    + by rewrite bool_decide_eq_false_2.
Qed.

Lemma dict_getitem_setitem_ne {V} (k k' : str) (v : V) (d : dict V) :
  k <> k' -> dict_getitem k (dict_setitem k' v d) = dict_getitem k d.
Proof.
  intros Hne. induction d as [|[k2 v2] d IH]; cbn [dict_setitem dict_getitem].
  - by rewrite bool_decide_eq_false_2.
  - case_bool_decide as Hk; cbn [dict_getitem].
    + subst k2. by rewrite !bool_decide_eq_false_2.
    + by rewrite IH.
Qed.

Lemma dict_getitem_Some_contains {V} (k : str) (v : V) (d : dict V) :
  dict_getitem k d = Some v -> dict_contains k d = true.
Proof.
  intros Hin%dict_getitem_sound. apply MatcherFacts.dict_contains_spec.
  apply list_elem_of_fmap. by exists (k, v).
Qed.

Lemma Forall_dict_setitem {V} (P : str * V -> Prop) k v (d : dict V) :
  Forall P d -> P (k, v) -> Forall P (dict_setitem k v d).
Proof.
  intros Hd Hkv. induction Hd as [|[k' v'] d Hk Hrest IH]; cbn [dict_setitem].
  - by constructor.
  - case_bool_decide; by constructor.
Qed.

Section IndexFacts.

Variable lower : str -> str.

Local Abbreviation key_of name := (Text.normalize_text lower (Text.InStr name)).

Local Abbreviation index_step :=
  (fun (d : dict str) (name : str) =>
     if nonempty (key_of name) then dict_setitem (key_of name) name d else d).

Lemma index_fold_getitem_other (names : list str) (d : dict str) (k : str) :
  Forall (fun n => key_of n <> k) names ->
  dict_getitem k (fold_left index_step names d) = dict_getitem k d.
Proof.
  revert d. induction names as [|n names IH]; intros d Hall; [done|].
  apply Forall_cons in Hall as [Hn Hall]. cbn [fold_left]. rewrite IH by done.
  destruct (nonempty (key_of n)); [|done].
  by apply dict_getitem_setitem_ne.
Qed.

(** X2: among the spreadsheet names with one normalised form the last one is
    kept: a file key equal to that form is answered with it. *)
Theorem build_index_last_name_wins (pre post : list str) (name : str) :
  key_of name <> [] ->
  Forall (fun n => key_of n <> key_of name) post ->
  find_matching_name (key_of name) (build_index lower (pre ++ name :: post))
  = Some name.
Proof.
  intros Hne Hpost.
  assert (Hget : dict_getitem (key_of name)
                   (build_index lower (pre ++ name :: post)) = Some name).
  { unfold build_index. rewrite fold_left_app. cbn [fold_left].
    rewrite index_fold_getitem_other by done.
    apply ReconcilerFacts.nonempty_true in Hne. rewrite Hne.
    apply dict_getitem_setitem_eq. }
  unfold find_matching_name.
  by rewrite (dict_getitem_Some_contains _ _ _ Hget).
Qed.

Lemma index_items (excel_names : list str) :
  Forall (fun item : str * str =>
            item.2 ∈ excel_names /\ item.1 = key_of item.2 /\ item.1 <> [])
    (build_index lower excel_names).
Proof.
  unfold build_index.
  set (P := fun item : str * str =>
              item.2 ∈ excel_names /\ item.1 = key_of item.2 /\ item.1 <> []).
  assert (Hgen : forall names d,
            Forall (fun n => n ∈ excel_names) names -> Forall P d ->
            Forall P (fold_left index_step names d)).
  { induction names as [|n names IH]; intros d Hin Hd; [done|].
    apply Forall_cons in Hin as [Hn Hin]. cbn [fold_left]. apply IH; [done|].
    destruct (nonempty (key_of n)) eqn:Hk; [|done].
    apply Forall_dict_setitem; [done|]. apply ReconcilerFacts.nonempty_true in Hk.
    unfold P. cbn [fst snd]. by split_and!. }
  apply Hgen; [|constructor]. by apply Forall_forall.
Qed.

(** X3: the keys of the index are distinct, and every item is a spreadsheet
    name stored under its normalised form, neither of them empty; so a name
    found for a file is never taken for no match by [if matching_excel_name:].
    *)
Theorem build_index_items (excel_names : list str) :
  lower [] = [] ->
  NoDup (build_index lower excel_names).*1
  /\ Forall (fun item : str * str =>
              item.2 ∈ excel_names /\ item.1 = key_of item.2
              /\ item.1 <> [] /\ item.2 <> [])
       (build_index lower excel_names)
  /\ (forall fileKey name,
        find_matching_name fileKey (build_index lower excel_names) = Some name ->
        name <> []).
Proof.
  intros Hlow.
  split; [apply MatcherFacts.build_index_keys|].
  assert (Hall : Forall (fun item : str * str =>
                   item.2 ∈ excel_names /\ item.1 = key_of item.2
                   /\ item.1 <> [] /\ item.2 <> [])
                   (build_index lower excel_names)).
  { eapply Forall_impl; [apply index_items|]. intros [k name] (Hin & Hk & Hne).
    cbn [fst snd] in *. split_and!; [done..|]. intros ->. apply Hne.
    rewrite Hk. unfold Text.normalize_text. cbn [Text.py_str]. by rewrite Hlow. }
  split; [done|]. intros fileKey name Hfind.
  apply find_matching_name_sound in Hfind as (key & Hin & _).
  rewrite Forall_forall in Hall. by destruct (Hall _ Hin) as (_ & _ & _ & ?).
Qed.

End IndexFacts.

End MatcherMore.

Module PartialMatchFacts.

Import Matcher MatcherMore.

Lemma common_prefix_len_take (a b : str) :
  take (common_prefix_len a b) a = take (common_prefix_len a b) b
  /\ (common_prefix_len a b <= length a)%nat
  /\ (common_prefix_len a b <= length b)%nat.
Proof.
  revert b. induction a as [|x a IH]; intros [|y b]; cbn [common_prefix_len];
    try (cbn; split_and!; (done || lia)).
  destruct (N.eqb_spec x y) as [->|?]; [|cbn; split_and!; (done || lia)].
  destruct (IH b) as (Ht & Ha & Hb). cbn [take length].
  split_and!; [by rewrite Ht|lia..].
Qed.

Lemma common_prefix_len_ge (w ra rb : str) :
  (length w <= common_prefix_len (w ++ ra) (w ++ rb))%nat.
Proof.
  induction w as [|x w IH]; cbn [app length common_prefix_len]; [lia|].
  rewrite N.eqb_refl. lia.
Qed.

(** What the inner loop leaves in [common_len]: the former value or the
    agreement at one of the positions, whichever is largest. *)
Lemma scan_excel_positions_spec (fs es : str) (c : nat) :
  let r := scan_excel_positions fs es c in
  (c <= r)%nat
  /\ (forall j, (j < length es)%nat ->
      (common_prefix_len fs (drop j es) <= r)%nat)
  /\ (r = c \/ exists j, (j < length es)%nat
                         /\ r = common_prefix_len fs (drop j es)).
Proof.
  revert c. induction es as [|y es IH]; intros c; cbn [scan_excel_positions].
  - cbn. split_and!; [lia| |by left]. intros j Hj. cbn in Hj. lia.
  - set (k := common_prefix_len fs (y :: es)).
    set (c' := if (c <? k)%nat then k else c).
    destruct (IH c') as (Hge & Hall & Hatt).
    assert (Hc' : (c <= c' /\ k <= c')%nat /\ (c' = c \/ c' = k)).
    { unfold c'. destruct (Nat.ltb_spec c k); lia. }
    split_and!.
    + lia.
    + intros [|j] Hj; cbn [drop].
      * fold k. lia.
      * apply Hall. cbn [length] in Hj. lia.
    + destruct Hatt as [->|(j & Hj & ->)].
      * destruct Hc' as [_ [->| ->]]; [by left|]. right. exists 0%nat.
        cbn [length drop]. split; [lia|done].
      * right. exists (S j). cbn [length drop]. split; [lia|done].
Qed.

Lemma scan_file_positions_spec (fs b : str) (c : nat) :
  let r := scan_file_positions fs b c in
  (c <= r)%nat
  /\ (forall i j, (i < length fs)%nat -> (j < length b)%nat ->
      (common_prefix_len (drop i fs) (drop j b) <= r)%nat)
  /\ (r = c \/ exists i j, (i < length fs)%nat /\ (j < length b)%nat
                           /\ r = common_prefix_len (drop i fs) (drop j b)).
Proof.
  revert c. induction fs as [|x fs IH]; intros c; cbn [scan_file_positions].
  - cbn. split_and!; [lia| |by left]. intros i j Hi. cbn in Hi. lia.
  - destruct (scan_excel_positions_spec (x :: fs) b c) as (Hge1 & Hall1 & Hatt1).
    destruct (IH (scan_excel_positions (x :: fs) b c)) as (Hge & Hall & Hatt).
    split_and!.
    + lia.
    + intros [|i] j Hi Hj; cbn [drop].
      * specialize (Hall1 j Hj). lia.
      * apply Hall; [cbn [length] in Hi; lia|done].
    + destruct Hatt as [->|(i & j & Hi & Hj & ->)].
      * destruct Hatt1 as [->|(j & Hj & ->)]; [by left|].
        right. exists 0%nat, j. cbn [length drop]. split_and!; [lia|done..].
      * right. exists (S i), j. cbn [length drop]. split_and!; [lia|done..].
Qed.

Lemma occurs_in_drop_take (a : str) (i n : nat) :
  occurs_in (take n (drop i a)) a.
Proof.
  exists (take i a), (drop n (drop i a)).
  by rewrite take_drop, take_drop.
Qed.

Lemma common_len_with_attained (file_norm excel_norm : str) :
  exists w, length w = common_len_with file_norm excel_norm
            /\ occurs_in w file_norm /\ occurs_in w excel_norm.
Proof.
  unfold common_len_with.
  destruct (str_in file_norm excel_norm) eqn:H1.
  { apply MatcherFacts.str_in_spec in H1.
    exists file_norm. split_and!; [done|apply occurs_in_refl|done]. }
  destruct (str_in excel_norm file_norm) eqn:H2.
  { apply MatcherFacts.str_in_spec in H2.
    exists excel_norm. split_and!; [done|done|apply occurs_in_refl]. }
  destruct (scan_file_positions_spec file_norm excel_norm 0)
    as (_ & _ & [->|(i & j & Hi & Hj & ->)]).
  - exists []. split_and!; [done|by exists [], file_norm|by exists [], excel_norm].
  - destruct (common_prefix_len_take (drop i file_norm) (drop j excel_norm))
      as (Ht & Ha & Hb).
    exists (take (common_prefix_len (drop i file_norm) (drop j excel_norm))
              (drop i file_norm)).
    split_and!.
    + rewrite length_take. lia.
    + apply occurs_in_drop_take.
    + rewrite Ht. apply occurs_in_drop_take.
Qed.

Lemma common_len_with_upper (file_norm excel_norm w : str) :
  occurs_in w file_norm -> occurs_in w excel_norm ->
  (length w <= common_len_with file_norm excel_norm)%nat.
Proof.
  unfold common_len_with.
  destruct (str_in file_norm excel_norm) eqn:H1.
  { intros Hw _. by apply occurs_in_length. }
  destruct (str_in excel_norm file_norm) eqn:H2.
  { intros _ Hw. by apply occurs_in_length. }
  destruct (scan_file_positions_spec file_norm excel_norm 0)
    as (_ & Hall & _).
  intros (l1 & r1 & Hf) (l2 & r2 & He).
  destruct w as [|x w]; [cbn; lia|].
  specialize (Hall (length l1) (length l2)).
  assert (Hd1 : drop (length l1) file_norm = (x :: w) ++ r1)
    by (by rewrite Hf, drop_app_length).
  assert (Hd2 : drop (length l2) excel_norm = (x :: w) ++ r2)
    by (by rewrite He, drop_app_length).
  rewrite Hd1, Hd2 in Hall.
  pose proof (common_prefix_len_ge (x :: w) r1 r2).
  apply (f_equal length) in Hf, He. rewrite !length_app in Hf, He.
  cbn [length] in *. etrans; [done|]. apply Hall; lia.
Qed.

(** X4: the score of a reference key is the length of the longest text that
    occurs both in the file key and in the reference key. *)
Theorem common_len_with_longest_common_substring (file_norm excel_norm : str) :
  (exists w, length w = common_len_with file_norm excel_norm
             /\ occurs_in w file_norm /\ occurs_in w excel_norm)
  /\ (forall w, occurs_in w file_norm -> occurs_in w excel_norm ->
      (length w <= common_len_with file_norm excel_norm)%nat).
Proof.
  split; [apply common_len_with_attained|].
  intros w. apply common_len_with_upper.
Qed.

Section PartialMatch.

Context {V : Type}.
Variable file_norm : str.

Local Abbreviation score item := (common_len_with file_norm (item : str * V).1).

Lemma best_match_loop_spec (rest seen : dict V) best_match best_score :
  MatcherInv.best_so_far file_norm seen best_match best_score ->
  MatcherInv.best_so_far file_norm (seen ++ rest)
    (best_match_loop file_norm rest best_match best_score).1
    (best_match_loop file_norm rest best_match best_score).2.
Proof.
  revert seen best_match best_score.
  induction rest as [|[norm orig] rest IH]; intros seen bm bs Hinv.
  - by rewrite app_nil_r.
  - cbn [best_match_loop].
    replace (seen ++ (norm, orig) :: rest)
      with ((seen ++ [(norm, orig)]) ++ rest) by (by rewrite <- app_assoc).
    destruct (Nat.ltb_spec bs (common_len_with file_norm norm)) as [Hlt|Hge];
      apply IH.
    + cbn. split_and!; [done|lia|]. exists seen, []. split_and!; [done|done| |constructor].
      destruct bm as [[[o n] sc]|].
      * destruct Hinv as (-> & Hpos & pre & post & -> & Hbs & Hpre & Hpost).
        apply Forall_app. split; [|constructor].
        -- eapply Forall_impl; [done|]. cbn. intros; lia.
        -- cbn. lia.
        -- eapply Forall_impl; [done|]. cbn. intros; lia.
      * destruct Hinv as (-> & Hall). eapply Forall_impl; [done|].
        cbn. intros; lia.
    + destruct bm as [[[o n] sc]|].
      * destruct Hinv as (-> & Hpos & pre & post & -> & Hbs & Hpre & Hpost).
        cbn. split_and!; [done..|]. exists pre, (post ++ [(norm, orig)]).
        split_and!; [by rewrite <- app_assoc|done|done|].
        apply Forall_app. split; [done|]. by constructor.
      * destruct Hinv as (-> & Hall). cbn. split; [done|].
        apply Forall_app. split; [done|]. constructor; [cbn; lia|constructor].
Qed.

(** X5: the partial matcher answers with the first reference key of the
    highest score, provided that score is at least three; otherwise with
    nothing. *)
Theorem partial_match_first_of_highest_score (index : dict V) :
  match partial_match file_norm index with
  | Some (orig, norm, sc) =>
      exists pre post,
        index = pre ++ (norm, orig) :: post
        /\ sc = common_len_with file_norm norm /\ (3 <= sc)%nat
        /\ Forall (fun item => (score item < sc)%nat) pre
        /\ Forall (fun item => (score item <= sc)%nat) post
  | None => Forall (fun item => (score item < 3)%nat) index
  end.
Proof.
  pose proof (best_match_loop_spec index [] None O) as Hinv.
  cbn [app] in Hinv. unfold partial_match.
  destruct (best_match_loop file_norm index None O) as [bm bs].
  cbn [fst snd] in Hinv. specialize (Hinv (conj eq_refl (Forall_nil_2 _))).
  destruct bm as [[[orig norm] sc]|].
  - destruct Hinv as (-> & Hpos & pre & post & -> & Hbs & Hpre & Hpost).
    destruct (Nat.leb_spec 3 bs) as [H3|H3].
    + by exists pre, post.
    + apply Forall_app. split; [|constructor].
      * eapply Forall_impl; [done|]. cbn. intros; lia.
      * cbn. lia.
      * eapply Forall_impl; [done|]. cbn. intros; lia.
  - destruct Hinv as (-> & Hall). eapply Forall_impl; [done|]. cbn. intros; lia.
Qed.

(** X6: a file key of fewer than three characters is never matched partially.
    *)
Theorem partial_match_short_key (index : dict V) :
  (length file_norm < 3)%nat -> partial_match file_norm index = None.
Proof.
  intros Hshort.
  pose proof (best_match_loop_spec index [] None O
                (conj eq_refl (Forall_nil_2 _))) as Hinv.
  cbn [app] in Hinv. unfold partial_match.
  destruct (best_match_loop file_norm index None O) as [bm bs].
  cbn [fst snd] in Hinv.
  destruct bm as [[[orig norm] sc]|]; [|done].
  destruct Hinv as (-> & Hpos & pre & post & -> & Hbs & _).
  destruct (common_len_with_attained file_norm norm) as (w & Hw & Hin & _).
  apply occurs_in_length in Hin.
  destruct (Nat.leb_spec 3 bs); [lia|done].
Qed.

End PartialMatch.

End PartialMatchFacts.

(** ** More on the reconciler *)

Module ReconcilerMore.

Import Remote Reconciler Trace.

Lemma eq_str_spec (j : Json) (s : str) : eq_str j s = true <-> j = JStr s.
Proof.
  destruct j; cbn [eq_str]; try (split; [done|by intros [=]]).
  rewrite bool_decide_eq_true. split; [by intros ->|by intros [= ->]].
Qed.

Lemma entry_test_spec fl filename file_entry :
  eq_str (obj_get file_entry (lit "title")) (Path.splitext fl filename).1
  || eq_str (obj_get file_entry (lit "name")) filename = true
  <-> title_or_name_is fl filename file_entry.
Proof. unfold title_or_name_is. by rewrite orb_true_iff, !eq_str_spec. Qed.

(** The scan answers with an entry exactly when the list is made of dicts
    that fail the test, then that entry, which passes it. *)
Lemma scan_entries_Some_iff fl filename items found :
  scan_entries fl filename items = Ok (Some found)
  <-> exists pre post,
        items = pre ++ JObj found :: post
        /\ Forall (fun e => exists fields,
                     e = JObj fields /\ ~ title_or_name_is fl filename fields)
             pre
        /\ title_or_name_is fl filename found.
Proof.
  induction items as [|item items IH]; cbn [scan_entries].
  - split; [done|]. intros (pre & post & H & _). by destruct pre.
  - destruct item as [| | | | |file_entry];
      try (split; [done|];
           intros (pre & post & H & Hpre & _); destruct pre as [|e pre];
           [done|]; injection H as <- ->;
           apply Forall_cons in Hpre as [(fields & ? & _) _]; done).
    destruct (eq_str (obj_get file_entry _) _ || eq_str (obj_get file_entry _) _)
      eqn:Ht.
    + apply entry_test_spec in Ht. split.
      * intros [= <-]. exists [], items. split_and!; [done|constructor|done].
      * intros ([|e pre] & post & H & Hpre & Hf).
        -- cbn in H. by simplify_eq.
        -- cbn in H. simplify_eq.
           apply Forall_cons in Hpre as [(fields & ? & Hn) _]. by simplify_eq.
    + assert (Hn : ~ title_or_name_is fl filename file_entry).
      { rewrite <- entry_test_spec. by rewrite Ht. }
      rewrite IH. split.
      * intros (pre & post & -> & Hpre & Hf).
        exists (JObj file_entry :: pre), post. split_and!; [done| |done].
        constructor; [by exists file_entry|done].
      * intros ([|e pre] & post & H & Hpre & Hf).
        -- cbn in H. by simplify_eq.
        -- cbn in H. simplify_eq. apply Forall_cons in Hpre as [_ Hpre].
           by exists pre, post.
Qed.

Section ReconcilerMore.

Variable E : Env.

(** X7: [check_file_exists] answers with the first entry of the server's list
    whose title is the file name without its extension or whose name is the
    file name, provided the entries before it are dicts; an entry that is not
    a dict before the first match hides the match. *)
Theorem check_file_exists_first_match site_id folder_id filename (s : St E)
    found :
  (check_file_exists E site_id folder_id filename s).1 = Some found
  <-> exists pre post,
        (call_jsonws E (GetFileEntries site_id folder_id) (world s)).1
        = JArr (pre ++ JObj found :: post)
        /\ Forall (fun e => exists fields,
                     e = JObj fields
                     /\ ~ title_or_name_is (flavour E) filename fields)
             pre
        /\ title_or_name_is (flavour E) filename found.
Proof.
  unfold check_file_exists, bind, client_call, ret.
  destruct (call_jsonws E _ (world s)) as [result w]. cbn [fst].
  destruct result as [| | | |items|];
    try (split; [done|]; intros (? & ? & ? & _); done).
  destruct items as [|item items].
  { split; [done|]. intros ([|??] & ? & [=] & _). }
  cbn [truthy nonempty].
  destruct (scan_entries (flavour E) filename (item :: items)) as [r|] eqn:Hs.
  - split.
    + intros ->. apply scan_entries_Some_iff in Hs as (pre & post & -> & ? & ?).
      by exists pre, post.
    + intros (pre & post & [= Hitems] & Hpre & Hf).
      assert (scan_entries (flavour E) filename (item :: items)
              = Ok (Some found)) as Hs'.
      { apply scan_entries_Some_iff. by exists pre, post. }
      congruence.
  - split; [done|]. intros (pre & post & [= Hitems] & Hpre & Hf).
    assert (scan_entries (flavour E) filename (item :: items)
            = Ok (Some found)) as Hs'.
    { apply scan_entries_Some_iff. by exists pre, post. }
    congruence.
Qed.

Lemma upload_file_internal_calls file_path site_id folder_id description
    change_log (s : St E) :
  exists new,
    calls (_upload_file_internal E file_path site_id folder_id description
             change_log s).2 = calls s ++ new
    /\ (length new <= 2)%nat
    /\ Forall (fun c => is_delete c = false) new
    /\ (description = [] -> Forall (fun c => is_update c = false) new).
Proof.
  unfold _upload_file_internal, bind, ask, ret.
  destruct (read_base64 E file_path (world s)) as [content|].
  2:{ exists []. rewrite app_nil_r.
      split_and!; [done|cbn; lia|constructor|intros; constructor]. }
  unfold client_call at 1.
  destruct (call_jsonws E _ (world s)) as [result w].
  set (add := AddFileEntry _ _ _ _ _ _ _ _).
  assert (Hone : exists new, calls s ++ [add] = calls s ++ new
                   /\ (length new <= 2)%nat
                   /\ Forall (fun c => is_delete c = false) new
                   /\ (description = [] ->
                       Forall (fun c => is_update c = false) new)).
  { exists [add]. split_and!; [done|cbn; lia|by repeat constructor|].
    intros _. by repeat constructor. }
  destruct (truthy result); [|done].
  destruct (nonempty description) eqn:Hd; [|done].
  destruct result as [| | | | |fields]; try done.
  destruct (negb _); [|done].
  unfold update_file_description, bind, client_call, ret. cbn [world calls].
  destruct (call_jsonws E _ w) as [answer w']. cbn [snd calls].
  eexists [add; _]. rewrite <- app_assoc. split_and!; [done|cbn; lia| |].
  - by repeat constructor.
  - intros ->. done.
Qed.

Lemma upload_or_replace_file_calls_aux file_path site_id folder_id description
    replace_existing change_log (s : St E) :
  exists new,
    calls (upload_or_replace_file E file_path site_id folder_id description
             replace_existing change_log s).2 = calls s ++ new
    /\ (length new <= 4)%nat
    /\ (replace_existing = false -> Forall (fun c => is_delete c = false) new)
    /\ (description = [] -> Forall (fun c => is_update c = false) new).
Proof.
  unfold upload_or_replace_file. unfold bind at 1, ask.
  destruct (path_exists E file_path (world s)); cbn [negb].
  2:{ exists []. rewrite app_nil_r. unfold ret.
      split_and!; [done|cbn; lia|intros; constructor..]. }
  unfold bind at 1.
  pose proof (ReconcilerFacts.check_file_exists_calls E site_id folder_id
                (basename E file_path) s) as Hc.
  destruct (check_file_exists E _ _ _ s) as [existing s1]. cbn [snd] in Hc.
  unfold bind at 1.
  set (pre := if truthy (as_json existing) && replace_existing then _ else _).
  assert (Hpre : exists dels,
            calls (pre s1).2 = calls s1 ++ dels /\ (length dels <= 1)%nat
            /\ Forall (fun c => is_update c = false) dels
            /\ (replace_existing = false -> dels = [])
            /\ (truthy (as_json existing) && replace_existing = false ->
                dels = [])).
  { unfold pre. destruct (truthy (as_json existing) && replace_existing) eqn:Hr.
    - unfold delete_file, bind, client_call, ret.
      destruct (call_jsonws E _ (world s1)) as [answer w]. cbn [snd calls].
      eexists [_]. split_and!; [done|cbn; lia|by repeat constructor| |done].
      intros ->. by rewrite andb_false_r in Hr.
    - exists []. unfold ret. cbn [snd]. rewrite app_nil_r.
      split_and!; [done|cbn; lia|constructor|done|done]. }
  destruct Hpre as (dels & Hdels & Hlen & Hdu & Hdr & Hdt).
  destruct (pre s1) as [[] s2]. cbn [snd] in Hdels.
  unfold bind at 1.
  destruct (upload_file_internal_calls file_path site_id folder_id description
              change_log s2) as (ups & Hups & Hul & Hud & Huu).
  destruct (_upload_file_internal E _ _ _ _ _ s2) as [result s3].
  cbn [snd] in Hups.
  assert (Hbase : calls s3 = calls s ++ (GetFileEntries site_id folder_id
                                           :: dels ++ ups)).
  { rewrite Hups, Hdels, Hc, <- !app_assoc. done. }
  destruct (negb (truthy result) && truthy (as_json existing)
            && negb replace_existing) eqn:Hfall.
  - apply andb_true_iff in Hfall as [[_ Hex]%andb_true_iff Hrep].
    apply negb_true_iff in Hrep. specialize (Hdr Hrep). subst dels.
    destruct (nonempty description) eqn:Hd.
    + unfold update_file_description, bind, client_call, ret.
      destruct (call_jsonws E _ (world s3)) as [answer w]. cbn [snd calls].
      eexists (_ :: ups ++ [_]). rewrite Hbase. cbn [app].
      rewrite <- !app_assoc. cbn [app]. split_and!; [done| | |].
      * cbn [length]. rewrite length_app. cbn [length]. lia.
      * intros _. constructor; [done|]. apply Forall_app. split; [done|].
        by repeat constructor.
      * intros ->. done.
    + eexists. unfold ret. cbn [snd]. split_and!; [exact Hbase| | |].
      * cbn [length app]. lia.
      * intros _. by constructor.
      * intros Hde. constructor; [done|]. by apply Huu.
  - eexists. unfold ret. cbn [snd]. split_and!; [exact Hbase| | |].
    + cbn [length]. rewrite length_app. lia.
    + intros Hrep. rewrite (Hdr Hrep). by constructor.
    + intros Hde. constructor; [done|]. apply Forall_app. split; [done|].
      by apply Huu.
Qed.

(** X8: what [upload_or_replace_file] never does: it makes no call for a file
    that is missing on disk, deletes nothing unless [replace_existing] is set,
    updates no description when none was asked for, and makes at most four
    calls. *)
Theorem upload_or_replace_file_calls file_path site_id folder_id description
    replace_existing change_log (s : St E) :
  exists new,
    calls (upload_or_replace_file E file_path site_id folder_id description
             replace_existing change_log s).2 = calls s ++ new
    /\ (length new <= 4)%nat
    /\ (path_exists E file_path (world s) = false ->
        upload_or_replace_file E file_path site_id folder_id description
          replace_existing change_log s = (JNull, s))
    /\ (replace_existing = false -> Forall (fun c => is_delete c = false) new)
    /\ (description = [] -> Forall (fun c => is_update c = false) new).
Proof.
  destruct (upload_or_replace_file_calls_aux file_path site_id folder_id
              description replace_existing change_log s)
    as (new & Hnew & Hlen & Hdel & Hupd).
  exists new. split_and!; [done..| |done|done].
  intros Hmiss. unfold upload_or_replace_file, bind, ask, ret.
  by rewrite Hmiss.
Qed.

(** X9: replacing is best effort and has no way back: when the existence check
    finds a document and [replace_existing] is set, that document is deleted
    first, and the outcome is that of the upload made after it, whatever the
    server answered to the deletion and also when the upload fails. *)
Theorem upload_or_replace_file_deletes_then_uploads file_path site_id
    folder_id description change_log (s s1 : St E) existing :
  path_exists E file_path (world s) = true ->
  check_file_exists E site_id folder_id (basename E file_path) s
  = (Some existing, s1) ->
  upload_or_replace_file E file_path site_id folder_id description true
    change_log s
  = _upload_file_internal E file_path site_id folder_id description change_log
      (delete_file E (obj_get existing (lit "fileEntryId")) s1).2
  /\ calls (delete_file E (obj_get existing (lit "fileEntryId")) s1).2
     = calls s ++ [GetFileEntries site_id folder_id;
                   DeleteFileEntry (obj_get existing (lit "fileEntryId"))].
Proof.
  intros Hex Hcheck.
  pose proof (ReconcilerFacts.check_file_exists_found _ _ _ _ _ _ _ Hcheck)
    as Hne.
  pose proof (ReconcilerFacts.check_file_exists_calls E site_id folder_id
                (basename E file_path) s) as Hc.
  rewrite Hcheck in Hc. cbn [snd] in Hc.
  split.
  - unfold upload_or_replace_file, bind, ask, ret. rewrite Hex. cbn [negb].
    rewrite Hcheck. cbn [as_json truthy entry_get]. rewrite Hne. cbn [andb].
    destruct (delete_file E _ s1) as [deleted s2]. cbn [snd].
    destruct (_upload_file_internal E _ _ _ _ _ s2) as [result s3].
    by rewrite andb_false_r.
  - unfold delete_file, bind, client_call, ret.
    destruct (call_jsonws E _ (world s1)) as [answer w]. cbn [snd calls].
    by rewrite Hc, <- app_assoc.
Qed.

(** X10: an answer to the upload that is not a dict (the body of a response
    that was not JSON, say) is taken for a failure when a description was
    asked for, and is returned as it is when none was. *)
Theorem upload_file_internal_answer_not_a_dict file_path site_id folder_id
    description change_log (s : St E) content answer w :
  read_base64 E file_path (world s) = Some content ->
  call_jsonws E
    (AddFileEntry site_id folder_id (basename E file_path)
       (_get_mime_type E file_path)
       (Path.splitext (flavour E) (basename E file_path)).1
       description change_log content) (world s) = (answer, w) ->
  truthy answer = true ->
  (forall fields, answer <> JObj fields) ->
  (_upload_file_internal E file_path site_id folder_id description change_log
     s).1
  = if nonempty description then JNull else answer.
Proof.
  intros Hread Hadd Ht Hnd.
  unfold _upload_file_internal, bind, ask, ret. rewrite Hread.
  unfold client_call at 1. rewrite Hadd, Ht.
  destruct (nonempty description); [|done].
  destruct answer; try done. by destruct (Hnd fields).
Qed.

End ReconcilerMore.

End ReconcilerMore.

(** ** More on the batch orchestrator *)

Module BatchMore.

Import Remote Batch Trace.

Section BatchMore.

Variable E : Env.
Variable site_id folder_id : Z.
Variable description_template : str.
Variable replace_existing : bool.
Variable metadata : option (Matcher.dict (Matcher.dict str)).

Local Abbreviation batch_loop :=
  (Batch.batch_loop E site_id folder_id description_template replace_existing
     metadata).
Local Abbreviation upload_files_batch :=
  (Batch.upload_files_batch E site_id folder_id description_template
     replace_existing metadata).

(** The three lists of paths of a report. *)
Local Abbreviation paths_of r :=
  (file_path <$> successful r, failed r, skipped r).

Lemma batch_loop_paths files i total acc (s s' : St E) r seen :
  batch_loop files i total acc s = (Ok r, s') ->
  (file_path <$> successful acc) ++ failed acc ++ skipped acc ≡ₚ seen ->
  sublist (file_path <$> successful acc) seen ->
  sublist (failed acc) seen ->
  sublist (skipped acc) seen ->
  (file_path <$> successful r) ++ failed r ++ skipped r ≡ₚ seen ++ files
  /\ sublist (file_path <$> successful r) (seen ++ files)
  /\ sublist (failed r) (seen ++ files)
  /\ sublist (skipped r) (seen ++ files).
Proof.
  revert i acc s seen. induction files as [|fp rest IH]; intros i acc s seen.
  - cbn [Batch.batch_loop]. unfold ret. intros [= <- <-] Hp H1 H2 H3.
    by rewrite app_nil_r.
  - replace (seen ++ fp :: rest) with ((seen ++ [fp]) ++ rest)
      by (by rewrite <- app_assoc).
    cbn [Batch.batch_loop]. unfold bind at 1, ask.
    destruct (path_exists E fp (world s)); cbn [negb].
    2:{ intros Hrun Hp H1 H2 H3. eapply IH; [done|..];
          cbn [append_skipped successful failed skipped].
        - by rewrite <- Hp, <- !app_assoc.
        - by apply sublist_inserts_r.
        - by apply sublist_inserts_r.
        - by apply sublist_app. }
    destruct (build_description _ _ _ _ _ _) as [description|]; [|done].
    unfold bind at 1.
    destruct (Reconciler.check_file_exists _ _ _ _ s) as [existing s1].
    unfold bind at 1.
    destruct (Reconciler.upload_or_replace_file _ _ _ _ _ _ _ s1)
      as [result s2].
    destruct (truthy result) eqn:Hres.
    2:{ intros Hrun Hp H1 H2 H3. eapply IH; [done|..];
          cbn [append_failed successful failed skipped].
        - rewrite <- Hp. rewrite <- !app_assoc.
          apply Permutation_app_head, Permutation_app_head.
          cbn [app]. apply Permutation_cons_append.
        - by apply sublist_inserts_r.
        - by apply sublist_app.
        - by apply sublist_inserts_r. }
    destruct result as [| | | | |fields]; try done.
    assert (Hstep : forall acc',
              successful acc' = successful acc ++ [
                {| file_path := fp; file_name := basename E fp;
                   file_entry_id := obj_get fields (lit "fileEntryId");
                   uuid := obj_get fields (lit "uuid");
                   title := obj_get fields (lit "title");
                   description :=
                     obj_get_default fields (lit "description")
                       (JStr description);
                   was_replaced :=
                     is_replacement_value existing replace_existing |}] ->
              failed acc' = failed acc -> skipped acc' = skipped acc ->
              batch_loop rest (S i) total acc' s2 = (Ok r, s') ->
              (file_path <$> successful acc) ++ failed acc ++ skipped acc
                ≡ₚ seen ->
              sublist (file_path <$> successful acc) seen ->
              sublist (failed acc) seen ->
              sublist (skipped acc) seen ->
              (file_path <$> successful r) ++ failed r ++ skipped r
                ≡ₚ (seen ++ [fp]) ++ rest
              /\ sublist (file_path <$> successful r) ((seen ++ [fp]) ++ rest)
              /\ sublist (failed r) ((seen ++ [fp]) ++ rest)
              /\ sublist (skipped r) ((seen ++ [fp]) ++ rest)).
    { intros acc' Hs Hf Hk Hrun Hp H1 H2 H3. eapply IH; [done|..];
        rewrite ?Hs, ?Hf, ?Hk, ?fmap_app; cbn [fmap list_fmap file_path].
      - rewrite <- Hp. rewrite <- !app_assoc. apply Permutation_app_head.
        cbn [app]. rewrite (app_assoc (failed acc)).
        apply Permutation_cons_append.
      - by apply sublist_app.
      - by apply sublist_inserts_r.
      - by apply sublist_inserts_r. }
    destruct (truthy (is_replacement_value existing replace_existing));
      by apply Hstep.
Qed.

(** X11: every file of a batch lands in exactly one of the lists [successful],
    [failed] and [skipped] of the report, and each list keeps the order of the
    files. *)
Theorem batch_report_partitions_files files (s s' : St E) r :
  upload_files_batch files s = (Ok r, s') ->
  (file_path <$> successful r) ++ failed r ++ skipped r ≡ₚ files
  /\ sublist (file_path <$> successful r) files
  /\ sublist (failed r) files
  /\ sublist (skipped r) files.
Proof.
  intros Hrun.
  by apply (batch_loop_paths files 1 (length files) empty_results s s' r []).
Qed.

Lemma is_replacement_value_truthy existing :
  truthy (is_replacement_value existing replace_existing) = true ->
  replace_existing = true.
Proof.
  unfold is_replacement_value.
  destruct (truthy (Reconciler.as_json existing)) eqn:Hex; [done|congruence].
Qed.

Lemma batch_loop_marks files i total acc (s s' : St E) r :
  batch_loop files i total acc s = (Ok r, s') ->
  Forall (fun x => truthy (was_replaced x) = true -> replace_existing = true)
    (successful acc) ->
  Forall (fun x => truthy (was_replaced x) = true -> replace_existing = true)
    (successful r).
Proof.
  revert i acc s. induction files as [|fp rest IH]; intros i acc s.
  - cbn [Batch.batch_loop]. unfold ret. by intros [= <- <-].
  - cbn [Batch.batch_loop]. unfold bind at 1, ask.
    destruct (path_exists E fp (world s)); cbn [negb];
      [|intros Hrun Hacc; by eapply IH].
    destruct (build_description _ _ _ _ _ _) as [description|]; [|done].
    unfold bind at 1.
    destruct (Reconciler.check_file_exists _ _ _ _ s) as [existing s1].
    unfold bind at 1.
    destruct (Reconciler.upload_or_replace_file _ _ _ _ _ _ _ s1)
      as [result s2].
    destruct (truthy result) eqn:Hres; [|intros Hrun Hacc; by eapply IH].
    destruct result as [| | | | |fields]; try done.
    destruct (truthy (is_replacement_value existing replace_existing)) eqn:Hrep;
      intros Hrun Hacc; (eapply IH; [done|]);
      cbn [append_replaced append_successful successful];
      (apply Forall_app; split; [done|]); repeat constructor;
      cbn [was_replaced]; apply is_replacement_value_truthy.
Qed.

(** X12: the [replaced] list of a report holds exactly the successful entries
    marked as replacements, in their order, and is empty when
    [replace_existing] is not set. *)
Theorem batch_replaced_exactly_the_marked files (s s' : St E) r :
  upload_files_batch files s = (Ok r, s') ->
  replaced r = List.filter (fun x => truthy (was_replaced x)) (successful r)
  /\ (replace_existing = false -> replaced r = []).
Proof.
  intros Hrun.
  pose proof (BatchFacts.batch_loop_invariant _ _ _ _ _ _ _ _ _ _ _ _ _
                Hrun eq_refl) as [Hr _].
  split; [done|]. intros Hoff. rewrite Hr.
  pose proof (batch_loop_marks _ _ _ _ _ _ _ Hrun (Forall_nil_2 _)) as Hm.
  clear Hr Hrun. induction Hm as [|x l Hx _ IH]; [done|]. cbn [List.filter].
  destruct (truthy (was_replaced x)); [|exact IH].
  specialize (Hx eq_refl). congruence.
Qed.

Lemma build_description_plain file_name i total :
  description_template = [] -> metadata = None ->
  build_description E description_template metadata file_name i total = Some [].
Proof. intros -> ->. done. Qed.

Lemma batch_loop_calls files i total acc (s : St E) :
  exists new,
    calls (batch_loop files i total acc s).2 = calls s ++ new
    /\ (replace_existing = false -> Forall (fun c => is_delete c = false) new)
    /\ (description_template = [] -> metadata = None ->
        Forall (fun c => is_update c = false) new).
Proof.
  revert i acc s. induction files as [|fp rest IH]; intros i acc s.
  - exists []. cbn. rewrite app_nil_r. split_and!; [done|intros; constructor..].
  - cbn [Batch.batch_loop]. unfold bind at 1, ask.
    destruct (path_exists E fp (world s)); cbn [negb]; [|apply IH].
    destruct (build_description _ _ _ _ _ _) as [description|] eqn:Hdesc.
    2:{ exists []. cbn. rewrite app_nil_r.
        split_and!; [done|intros; constructor..]. }
    unfold bind at 1.
    pose proof (ReconcilerFacts.check_file_exists_calls E site_id folder_id
                  (basename E fp) s) as Hc.
    destruct (Reconciler.check_file_exists _ _ _ _ s) as [existing s1].
    cbn [snd] in Hc. unfold bind at 1.
    destruct (ReconcilerMore.upload_or_replace_file_calls_aux E fp site_id
                folder_id description replace_existing
                (batch_change_log i total) s1)
      as (ups & Hups & _ & Hdel & Hupd).
    destruct (Reconciler.upload_or_replace_file _ _ _ _ _ _ _ s1)
      as [result s2].
    cbn [snd] in Hups.
    assert (Hhere : exists new,
              calls s2 = calls s ++ new
              /\ (replace_existing = false ->
                  Forall (fun c => is_delete c = false) new)
              /\ (description_template = [] -> metadata = None ->
                  Forall (fun c => is_update c = false) new)).
    { exists (GetFileEntries site_id folder_id :: ups).
      split_and!.
      - by rewrite Hups, Hc, <- app_assoc.
      - intros Hoff. constructor; [done|by apply Hdel].
      - intros Ht Hm. constructor; [done|]. apply Hupd.
        rewrite build_description_plain in Hdesc by done. congruence. }
    destruct Hhere as (here & Hcalls & Hd & Hu).
    assert (Hrest : forall acc',
              exists new,
                calls (batch_loop rest (S i) total acc' s2).2 = calls s ++ new
                /\ (replace_existing = false ->
                    Forall (fun c => is_delete c = false) new)
                /\ (description_template = [] -> metadata = None ->
                    Forall (fun c => is_update c = false) new)).
    { intros acc'. destruct (IH (S i) acc' s2) as (more & Hmore & Hd' & Hu').
      exists (here ++ more). split_and!.
      - by rewrite Hmore, Hcalls, <- app_assoc.
      - intros Hoff. apply Forall_app. split; [by apply Hd|by apply Hd'].
      - intros Ht Hm. apply Forall_app. split; [by apply Hu|by apply Hu']. }
    destruct (truthy result) eqn:Hres; [|apply Hrest].
    destruct result as [| | | | |fields];
      try (exists here; by split_and!).
    apply Hrest.
Qed.

(** X13: what a batch never does: without [replace_existing] it deletes
    nothing on the server, and without template and metadata, as in
    [upload_directory], it updates no description. *)
Theorem batch_never_deletes_or_updates_unasked files (s : St E) :
  exists new,
    calls (upload_files_batch files s).2 = calls s ++ new
    /\ (replace_existing = false -> Forall (fun c => is_delete c = false) new)
    /\ (description_template = [] -> metadata = None ->
        Forall (fun c => is_update c = false) new).
Proof. apply batch_loop_calls. Qed.

(** X14: a reconciliation that returns something true that is not a dict stops
    the batch: the loop raises at [result.get], no report is returned and the
    files after it are not looked at. *)
Theorem batch_raises_on_result_not_a_dict fp rest (s s1 s2 : St E) description
    existing answer :
  path_exists E fp (world s) = true ->
  build_description E description_template metadata (basename E fp) 1
    (length (fp :: rest)) = Some description ->
  Reconciler.check_file_exists E site_id folder_id (basename E fp) s
  = (existing, s1) ->
  Reconciler.upload_or_replace_file E fp site_id folder_id description
    replace_existing (batch_change_log 1 (length (fp :: rest))) s1
  = (answer, s2) ->
  truthy answer = true ->
  (forall fields, answer <> JObj fields) ->
  upload_files_batch (fp :: rest) s = (Raised, s2).
Proof.
  intros Hex Hdesc Hcheck Hup Ht Hnd.
  unfold Batch.upload_files_batch. cbn [Batch.batch_loop].
  unfold bind at 1, ask. rewrite Hex. cbn [negb]. rewrite Hdesc.
  unfold bind at 1. rewrite Hcheck. unfold bind at 1. rewrite Hup, Ht.
  destruct answer; try done. by destruct (Hnd fields).
Qed.

(** X15: when the description template is empty or formats without raising and
    the server answers an upload with a dict or with nothing, the batch
    returns a report and the report accounts for every file: the lengths of
    [successful], [failed] and [skipped] add up to the number of files. *)
Theorem upload_files_batch_reports_every_file files (s : St E) :
  description_template = []
  \/ (forall name j n,
        is_Some (format_template E description_template name j n)) ->
  answers_add_with_dict E ->
  exists r s',
    upload_files_batch files s = (Ok r, s')
    /\ (length (successful r) + length (failed r) + length (skipped r)
        = length files)%nat.
Proof.
  intros Hfmt Hadd.
  destruct (BatchFacts.batch_returns_report E site_id folder_id
              description_template replace_existing metadata files s Hfmt
              Hadd) as (r & s' & Hrun).
  exists r, s'. split; [done|].
  destruct (batch_loop_paths files 1 (length files) empty_results s s' r []
              Hrun) as [Hperm _]; [done..|].
  apply Permutation_length in Hperm.
  rewrite !length_app, length_fmap in Hperm. cbn [length] in Hperm. lia.
Qed.

End BatchMore.

End BatchMore.

(** ** Updating descriptions in a batch *)

Module DescriptionsFacts.

Import Remote Descriptions MatcherMore.

Section DescriptionsFacts.

Variable E : Env.
Variable py_format : Json -> str.

Local Abbreviation index_entries := (Descriptions.index_entries py_format).
Local Abbreviation file_dict_key := (Descriptions.file_dict_key py_format).
Local Abbreviation update_descriptions_batch :=
  (Descriptions.update_descriptions_batch E py_format).

Lemma index_entries_indexable entries d :
  Forall indexable entries -> exists fd, index_entries entries d = Ok fd.
Proof.
  intros Hall. revert d.
  induction Hall as [|e entries (fields & -> & Hname) _ IH]; intros d.
  - by exists d.
  - cbn [Descriptions.index_entries]. unfold Descriptions.file_dict_key.
    destruct Hname as [->|[n ->]]; cbn [truthy]; [apply IH|].
    destruct (nonempty n); apply IH.
Qed.

Lemma index_entries_not_a_dict pre e post d :
  (forall fields, e <> JObj fields) ->
  index_entries (pre ++ e :: post) d = Raised.
Proof.
  intros He. revert d. induction pre as [|x pre IH]; intros d; cbn [app].
  - destruct e; try done. by destruct (He fields).
  - cbn [Descriptions.index_entries]. destruct x; try done.
    by destruct (Descriptions.file_dict_key py_format fields).
Qed.

(** What [file_dict] holds under a name: the last entry of the list with
    that key, or what it held before when no entry has it. *)
Lemma index_entries_getitem entries d fd k e :
  index_entries entries d = Ok fd ->
  Matcher.dict_getitem k fd = Some e ->
  (exists pre post,
     entries = pre ++ JObj e :: post /\ file_dict_key e = JStr k
     /\ Forall (fun e' => forall f', e' = JObj f' -> file_dict_key f' <> JStr k)
          post)
  \/ (Matcher.dict_getitem k d = Some e
      /\ Forall (fun e' => forall f', e' = JObj f' -> file_dict_key f' <> JStr k)
           entries).
Proof.
  revert d. induction entries as [|x entries IH]; intros d.
  - cbn. intros [= <-] Hget. right. by split.
  - cbn [Descriptions.index_entries]. destruct x as [| | | | |fields]; try done.
    intros Hrun Hget.
    assert (Hskip : forall d',
              index_entries entries d' = Ok fd ->
              (file_dict_key fields = JStr k ->
               Matcher.dict_getitem k d' = Some fields) ->
              (file_dict_key fields <> JStr k ->
               Matcher.dict_getitem k d' = Matcher.dict_getitem k d) ->
              (exists pre post,
                 JObj fields :: entries = pre ++ JObj e :: post
                 /\ file_dict_key e = JStr k
                 /\ Forall (fun e' => forall f', e' = JObj f' ->
                                      file_dict_key f' <> JStr k) post)
              \/ (Matcher.dict_getitem k d = Some e
                  /\ Forall (fun e' => forall f', e' = JObj f' ->
                                       file_dict_key f' <> JStr k)
                       (JObj fields :: entries))).
    { intros d' Hrun' Hhit Hmiss.
      destruct (IH d' Hrun' Hget) as [(pre & post & -> & Hk & Hpost)|[Hd' Hall]].
      - left. by exists (JObj fields :: pre), post.
      - destruct (eq_str (file_dict_key fields) k) eqn:Hk.
        2:{ assert (file_dict_key fields <> JStr k) as Hk'.
            { rewrite <- ReconcilerMore.eq_str_spec. by rewrite Hk. }
            right. rewrite (Hmiss Hk') in Hd'. split; [done|].
            constructor; [|done]. by intros f' [= <-]. }
        apply ReconcilerMore.eq_str_spec in Hk.
        + left. rewrite (Hhit Hk) in Hd'. injection Hd' as <-.
          by exists [], entries. }
    destruct (Descriptions.file_dict_key py_format fields) as [| | |n| |] eqn:Hkey;
      try done; try (apply (Hskip d); [done|done|done]).
    apply (Hskip _ Hrun).
    + intros [= ->]. apply dict_getitem_setitem_eq.
    + intros Hne. apply dict_getitem_setitem_ne. congruence.
Qed.

Lemma update_loop_spec file_dict items acc (s : St E) :
  let r := (update_loop E file_dict items acc s).1 in
  (exists more_u more_f,
     updated r = updated acc ++ more_u /\ failed r = failed acc ++ more_f
     /\ more_u.*1 ++ more_f ≡ₚ items.*1
     /\ sublist more_u.*1 items.*1 /\ sublist more_f items.*1
     /\ Forall (fun u => exists e, Matcher.dict_getitem u.1 file_dict = Some e
                                   /\ u.2 = obj_get e (lit "fileEntryId"))
          more_u).
Proof.
  revert acc s. induction items as [|[filename description] rest IH];
    intros acc s; cbn zeta.
  - exists [], []. cbn. rewrite !app_nil_r. split_and!; done.
  - cbn [update_loop].
    assert (Hfail : forall acc' s',
              updated acc' = updated acc ->
              failed acc' = failed acc ++ [filename] ->
              exists more_u more_f,
                updated (update_loop E file_dict rest acc' s').1
                = updated acc ++ more_u
                /\ failed (update_loop E file_dict rest acc' s').1
                   = failed acc ++ more_f
                /\ more_u.*1 ++ more_f ≡ₚ filename :: rest.*1
                /\ sublist more_u.*1 (filename :: rest.*1)
                /\ sublist more_f (filename :: rest.*1)
                /\ Forall (fun u => exists e,
                             Matcher.dict_getitem u.1 file_dict = Some e
                             /\ u.2 = obj_get e (lit "fileEntryId")) more_u).
    { intros acc' s' Hu Hf.
      destruct (IH acc' s') as (mu & mf & Hmu & Hmf & Hp & H1 & H2 & H3).
      exists mu, (filename :: mf). rewrite Hmu, Hmf, Hu, Hf, <- app_assoc.
      split_and!; [done|done| |by constructor|by constructor|done].
      rewrite <- Hp. symmetry. apply Permutation_middle. }
    destruct (Matcher.dict_contains filename file_dict) eqn:Hc; [|by apply Hfail].
    destruct (dict_getitem_contains _ _ Hc) as [e He]. rewrite He.
    unfold bind, Reconciler.update_file_description.
    unfold bind, client_call, ret.
    destruct (call_jsonws E _ (world s)) as [answer w].
    destruct (truthy answer); [|by apply Hfail].
    match goal with
    | |- context [update_loop E file_dict rest ?a ?st] =>
        destruct (IH a st) as (mu & mf & Hmu & Hmf & Hp & H1 & H2 & H3)
    end.
    exists ((filename, obj_get e (lit "fileEntryId")) :: mu), mf.
    cbn [updated failed] in Hmu, Hmf. rewrite Hmu, Hmf, <- app_assoc.
    cbn [fmap list_fmap fst].
    split_and!; [done|done| |by constructor|by constructor|].
    + cbn [app]. by constructor.
    + constructor; [|done]. by exists e.
Qed.

(** X16: when the server lists dicts whose names are texts or missing, every
    file name of [descriptions] ends in exactly one of [updated] and [failed],
    in the order of [descriptions]. *)
Theorem update_descriptions_batch_accounts_for_every_name site_id folder_id
    items (s : St E) entries :
  (call_jsonws E (GetFileEntries site_id folder_id) (world s)).1 = JArr entries ->
  entries <> [] ->
  Forall indexable entries ->
  let r := (update_descriptions_batch site_id folder_id (Some items) s).1 in
  (updated r).*1 ++ failed r ≡ₚ items.*1
  /\ sublist (updated r).*1 items.*1
  /\ sublist (failed r) items.*1.
Proof.
  intros Hans Hne Hall. destruct items as [|item items]; [done|].
  unfold Descriptions.update_descriptions_batch, bind, client_call.
  destruct (call_jsonws E _ (world s)) as [answer w]. cbn [fst] in Hans.
  subst answer. cbn [truthy]. apply ReconcilerFacts.nonempty_true in Hne.
  rewrite Hne.
  destruct (index_entries_indexable entries [] Hall) as [fd ->].
  destruct (update_loop_spec fd (item :: items) no_results
              {| world := w; calls := calls s ++ [GetFileEntries site_id folder_id] |})
    as (mu & mf & Hmu & Hmf & Hp & H1 & H2 & _).
  cbn [no_results updated failed app] in Hmu, Hmf. cbn zeta.
  by rewrite Hmu, Hmf.
Qed.

(** X17: when the folder is empty, or the answer is not a list, or one of its
    entries is not a dict, nothing is reported: no name is in [updated] and
    none in [failed], after the one call that lists the folder. *)
Theorem update_descriptions_batch_reports_nothing site_id folder_id items
    (s : St E) :
  items <> [] ->
  (forall entries,
     (call_jsonws E (GetFileEntries site_id folder_id) (world s)).1
     <> JArr entries)
  \/ (call_jsonws E (GetFileEntries site_id folder_id) (world s)).1 = JArr []
  \/ (exists pre e post,
        (call_jsonws E (GetFileEntries site_id folder_id) (world s)).1
        = JArr (pre ++ e :: post)
        /\ forall fields, e <> JObj fields) ->
  (update_descriptions_batch site_id folder_id (Some items) s).1 = no_results
  /\ calls (update_descriptions_batch site_id folder_id (Some items) s).2
     = calls s ++ [GetFileEntries site_id folder_id].
Proof.
  intros Hne Hans. destruct items as [|item items]; [done|].
  unfold Descriptions.update_descriptions_batch, bind, client_call, ret.
  destruct (call_jsonws E _ (world s)) as [answer w]. cbn [fst] in Hans.
  destruct Hans as [Hnl|[->|(pre & e & post & -> & He)]].
  - destruct answer; try done. by destruct (Hnl items0).
  - done.
  - rewrite (index_entries_not_a_dict pre e post [] He).
    by destruct (truthy _).
Qed.

(** X18: the document whose description is updated for a file name is the last
    one of the server's list stored under that name. *)
Theorem update_descriptions_batch_updates_last_entry site_id folder_id
    descriptions (s : St E) entries filename id :
  (call_jsonws E (GetFileEntries site_id folder_id) (world s)).1 = JArr entries ->
  (filename, id)
    ∈ updated (update_descriptions_batch site_id folder_id descriptions s).1 ->
  exists pre e post,
    entries = pre ++ JObj e :: post
    /\ file_dict_key e = JStr filename
    /\ id = obj_get e (lit "fileEntryId")
    /\ Forall (fun e' => forall f', e' = JObj f' ->
                         file_dict_key f' <> JStr filename) post.
Proof.
  intros Hans. destruct descriptions as [[|item items]|];
    try (cbn; by intros ?%elem_of_nil).
  unfold Descriptions.update_descriptions_batch, bind, client_call, ret.
  destruct (call_jsonws E _ (world s)) as [answer w]. cbn [fst] in Hans.
  subst answer. destruct (truthy (JArr entries));
    [|cbn; by intros ?%elem_of_nil].
  destruct (index_entries entries []) as [fd|] eqn:Hidx;
    [|cbn; by intros ?%elem_of_nil].
  match goal with
  | |- context [update_loop E fd ?its no_results ?st] =>
      destruct (update_loop_spec fd its no_results st)
        as (mu & mf & Hmu & _ & _ & _ & _ & Hfrom)
  end.
  cbn zeta in Hmu. rewrite Hmu. cbn [no_results updated app]. intros Hin.
  rewrite Forall_forall in Hfrom.
  destruct (Hfrom _ Hin) as (e & Hget & Hid). cbn [fst snd] in Hget, Hid.
  destruct (index_entries_getitem entries [] fd filename e Hidx Hget)
    as [(pre & post & -> & Hk & Hpost)|[Hnil _]]; [|done].
  by exists pre, e, post.
Qed.

End DescriptionsFacts.

End DescriptionsFacts.

(** ** Uploading a directory *)

Module DirectoryFacts.

Import Remote Directory Batch Trace.

Section DirectoryFacts.

Variable E : Env.
Variable D : DirOps E.

Lemma collect_files_checked directory_path recursive extensions w files :
  collect_files E D directory_path recursive extensions w = Ok files ->
  Forall (fun p => exists root name,
            p = join D root name /\ check E D extensions name = true) files.
Proof.
  unfold collect_files. destruct recursive.
  - intros [= <-]. apply Forall_forall. intros p Hp.
    apply list_elem_of_In, in_flat_map in Hp as ([root names] & _ & Hp).
    cbn [fst snd] in Hp. apply list_elem_of_In, list_elem_of_fmap in Hp
      as (name & -> & Hn).
    apply list_elem_of_In, filter_In in Hn as [_ Hn]. by exists root, name.
  - destruct (listdir D directory_path w) as [items|]; [|done].
    intros [= <-]. apply Forall_forall. intros p Hp.
    apply list_elem_of_fmap in Hp as (name & -> & Hn).
    apply list_elem_of_In, filter_In in Hn as [_ Hn].
    apply andb_true_iff in Hn as [_ Hn]. by exists directory_path, name.
Qed.

(** X19: the report of [upload_directory] holds only files that passed the
    extension filter, each in exactly one of its three lists; for a directory
    that does not exist it is empty and no call is made. *)
Theorem upload_directory_reports_filtered_files directory_path site_id
    folder_id recursive extensions replace_existing (s s' : St E) r :
  upload_directory E D directory_path site_id folder_id recursive extensions
    replace_existing s = (Ok r, s') ->
  (path_exists E directory_path (world s) = false ->
   r = empty_results /\ s' = s)
  /\ Forall (fun p => exists root name,
               p = join D root name /\ check E D extensions name = true)
       ((file_path <$> successful r) ++ failed r ++ skipped r)
  /\ (forall files,
        path_exists E directory_path (world s) = true ->
        collect_files E D directory_path recursive extensions (world s)
        = Ok files ->
        (file_path <$> successful r) ++ failed r ++ skipped r ≡ₚ files).
Proof.
  unfold upload_directory, bind, ask, ret.
  destruct (path_exists E directory_path (world s)); cbn [negb].
  2:{ intros [= <- <-]. split_and!; [done|constructor|done]. }
  destruct (collect_files E D directory_path recursive extensions (world s))
    as [files|] eqn:Hfiles; [|done].
  intros Hrun.
  pose proof (BatchMore.batch_loop_paths E site_id folder_id [] replace_existing
                None files 1 (length files) empty_results s s' r []
                Hrun (reflexivity _) (sublist_nil_l _) (sublist_nil_l _)
                (sublist_nil_l _)) as (Hp & _).
  cbn [app] in Hp. split_and!; [done| |by intros ? _ [= <-]].
  rewrite Hp. by eapply collect_files_checked.
Qed.

(** X20: [upload_directory] asks for no description, so its batch cannot raise
    on a template: a report is returned whenever the directory can be listed
    and the server answers an upload with a dict or with nothing. It never
    updates a description, and deletes nothing unless [replace_existing] is
    set. *)
Theorem upload_directory_returns_report directory_path site_id folder_id
    recursive extensions replace_existing (s : St E) :
  answers_add_with_dict E ->
  recursive = true \/ is_Some (listdir D directory_path (world s)) ->
  (exists r s',
     upload_directory E D directory_path site_id folder_id recursive
       extensions replace_existing s = (Ok r, s'))
  /\ exists new,
       calls (upload_directory E D directory_path site_id folder_id recursive
                extensions replace_existing s).2 = calls s ++ new
       /\ Forall (fun c => is_update c = false) new
       /\ (replace_existing = false -> Forall (fun c => is_delete c = false) new).
Proof.
  intros Hadd Hlist.
  unfold upload_directory, bind, ask, ret.
  destruct (path_exists E directory_path (world s)); cbn [negb].
  2:{ split; [by eexists _, _|]. exists []. rewrite app_nil_r.
      split_and!; [done|constructor|intros; constructor]. }
  assert (exists files,
            collect_files E D directory_path recursive extensions (world s)
            = Ok files) as [files ->].
  { unfold collect_files. destruct Hlist as [->|[items ->]]; [by eexists|].
    destruct recursive; by eexists. }
  split.
  - apply BatchFacts.batch_returns_report; [by left|done].
  - destruct (BatchMore.batch_loop_calls E site_id folder_id [] replace_existing
                None files 1 (length files) empty_results s)
      as (new & Hnew & Hdel & Hupd).
    exists new. split_and!; [done|by apply Hupd|done].
Qed.

End DirectoryFacts.

End DirectoryFacts.

(** ** Loading the spreadsheet *)

Module ExcelFacts.

Import Matcher Excel MatcherMore.

Section ExcelFacts.

Variable lower : str -> str.
Variable NAME_COLUMN DESC_COLUMN : nat.

Local Abbreviation load_rows := (Excel.load_rows lower NAME_COLUMN DESC_COLUMN).
Local Abbreviation load_row := (Excel.load_row lower NAME_COLUMN DESC_COLUMN).
Local Abbreviation entry_of_sheet :=
  (Excel.entry_of_sheet lower NAME_COLUMN DESC_COLUMN).

Lemma cell_text_nonempty cell :
  nonempty (cell_text cell) = true -> cell = Some (cell_text cell).
Proof. by destruct cell. Qed.

Lemma NoDup_dict_setitem {V} (k : str) (v : V) (d : dict V) :
  NoDup d.*1 -> NoDup (dict_setitem k v d).*1.
Proof.
  intros Hnd. rewrite MatcherFacts.dict_setitem_keys.
  destruct (dict_contains k d) eqn:Hc; [done|].
  apply NoDup_app. split_and!; [done| |apply NoDup_singleton].
  intros k' Hk ->%list_elem_of_singleton.
  apply MatcherFacts.dict_contains_spec in Hk. congruence.
Qed.

Lemma load_rows_spec (all rows : list row) (index : nat) d :
  (forall i r, rows !! i = Some r -> all !! (index + i)%nat = Some r) ->
  NoDup d.*1 -> Forall (entry_of_sheet all) d ->
  NoDup (load_rows rows index d).*1
  /\ Forall (entry_of_sheet all) (load_rows rows index d).
Proof.
  revert index d. induction rows as [|r rows IH]; intros index d Hall Hnd Hd;
    [done|].
  cbn [Excel.load_rows]. apply IH.
  - intros i r' Hi. replace (S index + i)%nat with (index + S i)%nat by lia.
    by apply Hall.
  - unfold Excel.load_row. repeat case_match; try done.
    by apply NoDup_dict_setitem.
  - unfold Excel.load_row.
    destruct (Nat.ltb_spec (Nat.max NAME_COLUMN DESC_COLUMN) (length r));
      [|done].
    destruct (nonempty (cell_text (nth NAME_COLUMN r None))) eqn:Hname;
      [|done].
    destruct (nonempty (Text.normalize_text lower _)) eqn:Hnorm; [|done].
    destruct (nonempty (cell_text (nth DESC_COLUMN r None))) eqn:Hdesc;
      [|done].
    cbn [andb]. apply Forall_dict_setitem; [done|].
    unfold Excel.entry_of_sheet. cbn [fst snd original_name description excel_row].
    split_and!; [done|by apply ReconcilerFacts.nonempty_true..|].
    exists r. replace (index + 1 - 1)%nat with (index + 0)%nat by lia.
    split_and!; [by apply Hall|lia|by apply cell_text_nonempty..].
Qed.

(** X21: what the spreadsheet loop leaves in [descriptions]: distinct keys,
    each the non-empty normalised form of the name of its entry, a non-empty
    description, and the number of the row that holds both. *)
Theorem load_descriptions_entries (rows : list row) :
  NoDup (load_descriptions lower NAME_COLUMN DESC_COLUMN rows).*1
  /\ Forall (entry_of_sheet rows)
       (load_descriptions lower NAME_COLUMN DESC_COLUMN rows).
Proof.
  apply load_rows_spec; [done|constructor|constructor].
Qed.

Lemma scan_descriptions_sound key (d : dict DescEntry) text :
  scan_descriptions key d = Some text ->
  exists item, item ∈ d /\ text = description item.2.
Proof.
  rewrite MatcherFacts.scan_descriptions_scan_items.
  destruct (scan_items key d) as [e|] eqn:Hs; [|done]. intros [= <-].
  apply scan_items_sound in Hs as (k & Hin & _). by exists (k, e).
Qed.

(** X22: a description found for a file in the loaded spreadsheet is never
    empty, so that [if description:] in [process_files] tells a match from no
    match. *)
Theorem find_description_for_file_not_empty fl (rows : list row) filename
    text :
  find_description_for_file lower fl
    (load_descriptions lower NAME_COLUMN DESC_COLUMN rows) filename
  = Some text ->
  text <> [].
Proof.
  intros Hfind.
  assert (exists item,
            item ∈ load_descriptions lower NAME_COLUMN DESC_COLUMN rows
            /\ text = description item.2) as (item & Hin & ->).
  { revert Hfind. unfold find_description_for_file.
    destruct (dict_contains _ _).
    - destruct (dict_getitem _ _) as [e|] eqn:Hget; [|done]. intros [= <-].
      apply dict_getitem_sound in Hget. by eexists (_, e).
    - apply scan_descriptions_sound. }
  destruct (load_rows_spec rows rows 0 []) as [_ Hall];
    [done|constructor|constructor|].
  rewrite Forall_forall in Hall. by destruct (Hall _ Hin) as (_ & _ & ? & _).
Qed.

End ExcelFacts.

End ExcelFacts.

(** ** Copying the matched files *)

Module MoverFacts.

Import Matcher Mover MatcherMore.

Section MoverFacts.

Variable lower : str -> str.
Variable fl : Path.Flavour.
Variable F : FsOps.
Variable source_folder target_folder : str.

Local Abbreviation key_of name := (Text.normalize_text lower (Text.InStr name)).

Lemma move_loop_spec index files stats (fs : FS F) :
  let r := (move_loop lower fl F source_folder target_folder index files
              stats fs).1 in
  exists more,
    matches r = matches stats ++ more
    /\ moved_count r = (moved_count stats + length more)%nat
    /\ (moved_count r + skipped_count r
        <= moved_count stats + skipped_count stats + length files)%nat
    /\ sublist more.*1 files
    /\ Forall (fun m : str * str =>
                 find_matching_name (Names.normalize_filename lower fl m.1) index
                 = Some m.2) more.
Proof.
  revert stats fs. induction files as [|filename rest IH]; intros stats fs;
    cbn zeta.
  - exists []. cbn. rewrite app_nil_r. split_and!; [done|lia|lia|done|done].
  - cbn [move_loop].
    assert (Hskip : forall fs',
              exists more,
                matches (move_loop lower fl F source_folder target_folder
                           index rest stats fs').1 = matches stats ++ more
                /\ moved_count (move_loop lower fl F source_folder
                                  target_folder index rest stats fs').1
                   = (moved_count stats + length more)%nat
                /\ (moved_count (move_loop lower fl F source_folder
                                   target_folder index rest stats fs').1
                    + skipped_count (move_loop lower fl F source_folder
                                       target_folder index rest stats fs').1
                    <= moved_count stats + skipped_count stats
                       + length (filename :: rest))%nat
                /\ sublist more.*1 (filename :: rest)
                /\ Forall (fun m : str * str =>
                             find_matching_name
                               (Names.normalize_filename lower fl m.1) index
                             = Some m.2) more).
    { intros fs'. destruct (IH stats fs') as (more & Hm & Hc & Hle & Hs & Hf).
      exists more. split_and!; [done|done|cbn [length]; lia|by constructor|done]. }
    assert (Hunmatched : forall fs',
              exists more,
                matches (move_loop lower fl F source_folder target_folder
                           index rest
                           {| moved_count := moved_count stats;
                              skipped_count := skipped_count stats + 1;
                              matches := matches stats |} fs').1
                = matches stats ++ more
                /\ moved_count (move_loop lower fl F source_folder
                                  target_folder index rest
                                  {| moved_count := moved_count stats;
                                     skipped_count := skipped_count stats + 1;
                                     matches := matches stats |} fs').1
                   = (moved_count stats + length more)%nat
                /\ (moved_count (move_loop lower fl F source_folder
                                   target_folder index rest
                                   {| moved_count := moved_count stats;
                                      skipped_count := skipped_count stats + 1;
                                      matches := matches stats |} fs').1
                    + skipped_count (move_loop lower fl F source_folder
                                       target_folder index rest
                                       {| moved_count := moved_count stats;
                                          skipped_count := skipped_count stats + 1;
                                          matches := matches stats |} fs').1
                    <= moved_count stats + skipped_count stats
                       + length (filename :: rest))%nat
                /\ sublist more.*1 (filename :: rest)
                /\ Forall (fun m : str * str =>
                             find_matching_name
                               (Names.normalize_filename lower fl m.1) index
                             = Some m.2) more).
    { intros fs'.
      destruct (IH {| moved_count := moved_count stats;
                      skipped_count := skipped_count stats + 1;
                      matches := matches stats |} fs')
        as (more & Hm & Hc & Hle & Hs & Hf).
      cbn [moved_count skipped_count matches] in Hm, Hc, Hle.
      exists more. split_and!; [done|done|cbn [length]; lia|by constructor|done]. }
    destruct (fs_isfile F _ fs); [|apply Hskip].
    destruct (find_matching_name _ index) as [[|c tl]|] eqn:Hfind;
      [apply Hunmatched| |apply Hunmatched].
    destruct (copy2 F _ _ fs) as [[] fs']; cbv beta iota; [|apply Hskip].
    destruct (IH {| moved_count := moved_count stats + 1;
                    skipped_count := skipped_count stats;
                    matches := matches stats ++ [(filename, c :: tl)] |} fs')
      as (more & Hm & Hc & Hle & Hs & Hf).
    cbn [moved_count skipped_count matches] in Hm, Hc, Hle.
    exists ((filename, c :: tl) :: more). rewrite Hm, Hc, <- app_assoc.
    cbn [length fmap list_fmap fst].
    split_and!; [done|lia|lia|by constructor|by constructor].
Qed.

(** X23: every file [move_files_based_on_excel] copies was matched with a name
    of the spreadsheet whose normalised form contains the normalised name of
    the file or is contained in it; the copies are counted by [moved_count],
    and together with [skipped_count] they are at most the files of the
    folder. *)
Theorem move_loop_matches_are_related excel_names files (fs : FS F) :
  let r := (move_loop lower fl F source_folder target_folder
              (build_index lower excel_names) files
              {| moved_count := 0; skipped_count := 0; matches := [] |} fs).1 in
  moved_count r = length (matches r)
  /\ (moved_count r + skipped_count r <= length files)%nat
  /\ sublist (matches r).*1 files
  /\ Forall (fun m : str * str =>
               m.2 ∈ excel_names
               /\ related (Names.normalize_filename lower fl m.1) (key_of m.2))
       (matches r).
Proof.
  cbn zeta.
  destruct (move_loop_spec (build_index lower excel_names) files
              {| moved_count := 0; skipped_count := 0; matches := [] |} fs)
    as (more & Hm & Hc & Hle & Hs & Hf).
  cbn [moved_count skipped_count matches app] in *. rewrite Hm, Hc.
  split_and!; [done|lia|done|].
  eapply Forall_impl; [exact Hf|]. intros [filename name] Hfind.
  cbn [fst snd] in *.
  apply find_matching_name_sound in Hfind as (key & Hin & Hrel).
  pose proof (index_items lower excel_names) as Hitems.
  rewrite Forall_forall in Hitems.
  destruct (Hitems _ Hin) as (Hname & Hkey & _). cbn [fst snd] in *.
  by subst key.
Qed.

End MoverFacts.

End MoverFacts.

(** ** The configuration *)

Module ConfigFacts.

Import Remote Matcher Config MatcherMore.

Lemma apply_env_default getenv mapping defaults :
  apply_env getenv mapping TheDefault defaults
  = (Ok TheDefault, overridden getenv mapping defaults).
Proof.
  revert defaults. induction mapping as [|[var key] rest IH]; intros d; [done|].
  cbn [apply_env overridden].
  destruct (getenv var) as [[|c v]|]; cbn [set_key]; apply IH.
Qed.

Lemma apply_env_dict getenv mapping fields defaults :
  apply_env getenv mapping (Fresh (JObj fields)) defaults
  = (Ok (Fresh (JObj (overridden getenv mapping fields))), defaults).
Proof.
  revert fields. induction mapping as [|[var key] rest IH]; intros f; [done|].
  cbn [apply_env overridden].
  destruct (getenv var) as [[|c v]|]; cbn [set_key]; apply IH.
Qed.

Lemma apply_env_defaults_kept getenv mapping j defaults :
  (apply_env getenv mapping (Fresh j) defaults).2 = defaults.
Proof.
  revert j. induction mapping as [|[var key] rest IH]; intros j; [done|].
  cbn [apply_env]. destruct (getenv var) as [[|c v]|]; [apply IH| |apply IH].
  destruct j; cbn [set_key]; done.
Qed.

Lemma overridden_lookup getenv mapping fields k :
  NoDup mapping.*2 ->
  dict_getitem k (overridden getenv mapping fields)
  = match list_find (fun m => m.2 = k) mapping with
    | Some (_, (var, _)) =>
        match env_value getenv var with
        | Some v => Some (JStr v)
        | None => dict_getitem k fields
        end
    | None => dict_getitem k fields
    end.
Proof.
  revert fields. induction mapping as [|[var key] rest IH]; intros fields Hnd;
    [done|].
  cbn [fmap list_fmap snd] in Hnd. apply NoDup_cons in Hnd as [Hkey Hnd].
  cbn [overridden list_find]. cbn [snd]. unfold env_value at 1.
  destruct (decide (key = k)) as [->|Hne].
  - assert (Hrest : forall f,
              dict_getitem k (overridden getenv rest f) = dict_getitem k f).
    { intros f. rewrite IH by done.
      destruct (list_find (fun m : str * str => m.2 = k) rest)
        as [[i [var' key']]|] eqn:Hfind; [|done].
      apply list_find_Some in Hfind as (Hi & Hk & _). cbn in Hk. subst key'.
      exfalso. apply Hkey. apply list_elem_of_fmap. exists (var', k).
      split; [done|]. by eapply list_elem_of_lookup_2. }
    destruct (getenv var) as [[|c v]|]; rewrite Hrest; [done| |done].
    apply dict_getitem_setitem_eq.
  - assert (Hhere : forall v,
              dict_getitem k (dict_setitem key v fields) = dict_getitem k fields)
      by (intros v; by apply dict_getitem_setitem_ne).
    destruct (getenv var) as [[|c v]|]; rewrite IH by done;
      rewrite ?Hhere; by destruct (list_find _ rest) as [[? [? ?]]|].
Qed.

(** X24: a variable of the environment that is set and not empty takes the
    place of the value of its key, whether that came from the file or from the
    defaults; every other key keeps its value. *)
Theorem get_config_environment_overrides file getenv defaults base :
  base_config file defaults = JObj base ->
  exists c,
    (get_config file getenv defaults).1 = Ok (JObj c)
    /\ (forall var key, (var, key) ∈ env_mapping ->
        dict_getitem key c
        = match env_value getenv var with
          | Some v => Some (JStr v)
          | None => dict_getitem key base
          end)
    /\ (forall k, k ∉ env_mapping.*2 -> dict_getitem k c = dict_getitem k base).
Proof.
  intros Hbase.
  assert (Hnd : NoDup env_mapping.*2).
  { apply (bool_decide_unpack (NoDup env_mapping.*2)). by vm_compute. }
  assert (Hc : (get_config file getenv defaults).1
               = Ok (JObj (overridden getenv env_mapping base))).
  { revert Hbase. unfold get_config, base_config.
    destruct (load_config_from_file file) as [|j]; cbn [deref].
    - cbn [truthy]. destruct (nonempty defaults); intros [= <-].
      + by rewrite apply_env_default.
      + by rewrite apply_env_dict.
    - destruct (truthy j); intros Hj; [subst j|injection Hj as <-];
        by rewrite apply_env_dict. }
  exists (overridden getenv env_mapping base). split; [done|]. split.
  - intros var key Hin. rewrite overridden_lookup by done.
    assert (list_find (fun m : str * str => m.2 = key) env_mapping
            = Some (match list_find (fun m : str * str => m.2 = key) env_mapping
                    with Some (i, _) => i | None => O end, (var, key))) as ->.
    { unfold env_mapping in *.
      repeat (apply elem_of_cons in Hin as [[= -> ->]|Hin];
              [by vm_compute|]).
      by apply elem_of_nil in Hin. }
    done.
  - intros k Hk. rewrite overridden_lookup by done.
    destruct (list_find _ env_mapping) as [[i [var key]]|] eqn:Hfind; [|done].
    apply list_find_Some in Hfind as (Hi & Hkey & _). cbn in Hkey. subst key.
    exfalso. apply Hk. apply list_elem_of_fmap. exists (var, k).
    split; [done|]. by eapply list_elem_of_lookup_2.
Qed.

Lemma overridden_no_env mapping fields :
  overridden no_env mapping fields = fields.
Proof. induction mapping as [|[var key] rest IH]; [done|]. apply IH. Qed.

Lemma overridden_nonempty getenv mapping fields :
  fields <> [] -> overridden getenv mapping fields <> [].
Proof.
  revert fields. induction mapping as [|[var key] rest IH]; intros f Hf; [done|].
  cbn [overridden]. destruct (getenv var) as [[|c v]|]; try by apply IH.
  apply IH. destruct f as [|[k x] f]; [done|]. cbn [dict_setitem].
  by case_bool_decide.
Qed.

(** X25: without a readable file the configuration returned is
    [DEFAULT_CONFIG] itself: what the environment put into it stays in the
    module's dict, and a later call with no variable set returns it again.
    With a file that was read, [DEFAULT_CONFIG] is left as it was. *)
Theorem get_config_changes_default_config getenv defaults :
  (defaults <> [] ->
   forall file, file = Missing \/ file = Unreadable ->
   exists c,
     get_config file getenv defaults = (Ok (JObj c), c)
     /\ get_config file no_env c = (Ok (JObj c), c))
  /\ (forall j, (get_config (Parsed j) getenv defaults).2 = defaults).
Proof.
  split.
  - intros Hne file Hfile.
    assert (Hload : load_config_from_file file = TheDefault)
      by (by destruct Hfile as [-> | ->]).
    exists (overridden getenv env_mapping defaults).
    pose proof (overridden_nonempty getenv env_mapping defaults Hne) as Hne'.
    apply ReconcilerFacts.nonempty_true in Hne, Hne'.
    unfold get_config. rewrite Hload. cbn [deref truthy].
    rewrite Hne, Hne', !apply_env_default. cbn [deref].
    by rewrite overridden_no_env.
  - intros j. unfold get_config. cbn [load_config_from_file deref].
    destruct (truthy j).
    + pose proof (apply_env_defaults_kept getenv env_mapping j defaults) as H.
      by destruct (apply_env getenv env_mapping (Fresh j) defaults) as [[?|] ?].
    + by rewrite apply_env_dict.
Qed.

End ConfigFacts.

(** ** The upload flow of [main.py] *)

Module MainFacts.

Import Remote Reconciler Main Trace.

Section MainFacts.

Variable E : Env.
Variable join : str -> str -> str.
Variable py_format : Json -> str.
Variable SOURCE_FOLDER : str.
Variable SITE_ID FOLDER_ID : Z.
Variable initialised : bool.

Local Abbreviation individual_loop :=
  (Main.individual_loop E join py_format SOURCE_FOLDER SITE_ID FOLDER_ID
     initialised).
Local Abbreviation prepare_batch := (Main.prepare_batch E join SOURCE_FOLDER).

Lemma carries_sends items name description c :
  (name, description) ∈ items ->
  carries name description c -> sends_description_from items c.
Proof.
  intros Hin. destruct c; cbn; try done.
  - intros ->. by exists name.
  - by intros [-> ->].
Qed.

Lemma sends_description_from_mono items items' c :
  (forall p, p ∈ items -> p ∈ items') ->
  sends_description_from items c -> sends_description_from items' c.
Proof.
  intros Hsub. destruct c; cbn; try done.
  - intros [name Hin]. exists name. by apply Hsub.
  - apply Hsub.
Qed.

Lemma upload_file_internal_carries file_path site_id folder_id description
    change_log (s : St E) :
  exists new,
    calls (_upload_file_internal E file_path site_id folder_id description
             change_log s).2 = calls s ++ new
    /\ Forall (carries (basename E file_path) description) new.
Proof.
  unfold _upload_file_internal, bind, ask, ret.
  destruct (read_base64 E file_path (world s)) as [content|].
  2:{ exists []. by rewrite app_nil_r. }
  unfold client_call at 1.
  destruct (call_jsonws E _ (world s)) as [result w].
  set (add := AddFileEntry _ _ _ _ _ _ _ _).
  assert (Hadd : carries (basename E file_path) description add) by done.
  assert (Hone : exists new, calls s ++ [add] = calls s ++ new
                   /\ Forall (carries (basename E file_path) description) new).
  { exists [add]. split; [done|by constructor]. }
  destruct (truthy result); [|done].
  destruct (nonempty description); [|done].
  destruct result as [| | | | |fields]; try done.
  destruct (negb _); [|done].
  unfold update_file_description, bind, client_call, ret. cbn [world calls].
  destruct (call_jsonws E _ w) as [answer w']. cbn [snd calls].
  eexists [add; _]. rewrite <- app_assoc. split; [done|].
  by repeat constructor.
Qed.

Lemma upload_or_replace_file_carries file_path site_id folder_id description
    replace_existing change_log (s : St E) :
  exists new,
    calls (upload_or_replace_file E file_path site_id folder_id description
             replace_existing change_log s).2 = calls s ++ new
    /\ Forall (carries (basename E file_path) description) new.
Proof.
  unfold upload_or_replace_file. unfold bind at 1, ask.
  destruct (path_exists E file_path (world s)); cbn [negb].
  2:{ exists []. rewrite app_nil_r. by unfold ret. }
  unfold bind at 1.
  pose proof (ReconcilerFacts.check_file_exists_calls E site_id folder_id
                (basename E file_path) s) as Hc.
  destruct (check_file_exists E _ _ _ s) as [existing s1]. cbn [snd] in Hc.
  unfold bind at 1.
  set (pre := if truthy (as_json existing) && replace_existing then _ else _).
  assert (Hpre : exists dels,
            calls (pre s1).2 = calls s1 ++ dels
            /\ Forall (carries (basename E file_path) description) dels).
  { unfold pre. destruct (truthy (as_json existing) && replace_existing).
    - unfold delete_file, bind, client_call, ret.
      destruct (call_jsonws E _ (world s1)) as [answer w]. cbn [snd calls].
      eexists [_]. split; [done|by repeat constructor].
    - exists []. unfold ret. cbn [snd]. by rewrite app_nil_r. }
  destruct Hpre as (dels & Hdels & Hdc).
  destruct (pre s1) as [[] s2]. cbn [snd] in Hdels.
  unfold bind at 1.
  destruct (upload_file_internal_carries file_path site_id folder_id
              description change_log s2) as (ups & Hups & Huc).
  destruct (_upload_file_internal E _ _ _ _ _ s2) as [result s3].
  cbn [snd] in Hups.
  assert (Hbase : calls s3 = calls s ++ (GetFileEntries site_id folder_id
                                           :: dels ++ ups)).
  { rewrite Hups, Hdels, Hc, <- !app_assoc. done. }
  assert (Hall : Forall (carries (basename E file_path) description)
                   (GetFileEntries site_id folder_id :: dels ++ ups)).
  { constructor; [done|]. by apply Forall_app. }
  destruct (negb (truthy result) && truthy (as_json existing)
            && negb replace_existing).
  - destruct (nonempty description).
    + unfold update_file_description, bind, client_call, ret.
      destruct (call_jsonws E _ (world s3)) as [answer w]. cbn [snd calls].
      eexists (_ ++ [_]). rewrite Hbase, <- app_assoc. split; [done|].
      apply Forall_app. split; [done|]. by repeat constructor.
    + eexists. unfold ret. cbn [snd]. by split.
  - eexists. unfold ret. cbn [snd]. by split.
Qed.

Lemma upload_file_to_liferay_carries file_path description (s : St E) :
  exists new,
    calls (upload_file_to_liferay E py_format SITE_ID FOLDER_ID initialised
             file_path description s).2 = calls s ++ new
    /\ Forall (carries (basename E file_path) description) new
    /\ (initialised = false ->
        new = []
        /\ (upload_file_to_liferay E py_format SITE_ID FOLDER_ID initialised
              file_path description s).1.1 = false).
Proof.
  unfold upload_file_to_liferay. destruct initialised; cbn [negb].
  - unfold bind.
    destruct (upload_or_replace_file_carries file_path SITE_ID FOLDER_ID
                description true script_change_log s) as (new & Hnew & Hall).
    destruct (upload_or_replace_file E _ _ _ _ _ _ s) as [result s1].
    cbn [snd] in Hnew. exists new.
    assert (Hgoal : calls s1 = calls s ++ new
                    /\ Forall (carries (basename E file_path) description) new
                    /\ (true = false -> new = [] /\ false = false))
      by (split_and!; done).
    destruct (truthy result); [|exact Hgoal].
    destruct result; unfold ret; cbn [snd fst]; try exact Hgoal.
    split_and!; [by destruct Hgoal..|done].
  - exists []. unfold ret. cbn [snd fst]. by rewrite app_nil_r.
Qed.

(** The names of the three lists of the results. *)
Local Abbreviation names_of r :=
  ((uploaded r).*1 ++ (failed r).*1 ++ (skipped r).*1).

Lemma individual_loop_spec all items results (s s' : St E) r :
  (forall p, p ∈ items -> p ∈ all) ->
  (forall p, p ∈ items -> basename E (join SOURCE_FOLDER p.1) = p.1) ->
  individual_loop items results s = (r, s') ->
  exists new,
    calls s' = calls s ++ new
    /\ Forall (sends_description_from all) new
    /\ (initialised = false -> new = [] /\ uploaded r = uploaded results).
Proof.
  revert results s. induction items as [|[filename description] rest IH];
    intros results s Hsub Hbase.
  - cbn. unfold ret. intros [= <- <-]. exists []. by rewrite app_nil_r.
  - cbn [Main.individual_loop]. unfold bind at 1, ask.
    assert (Hsub' : forall p, p ∈ rest -> p ∈ all)
      by (intros p Hp; apply Hsub; by constructor).
    assert (Hbase' : forall p, p ∈ rest ->
                     basename E (join SOURCE_FOLDER p.1) = p.1)
      by (intros p Hp; apply Hbase; by constructor).
    destruct (path_exists E _ (world s)); cbn [negb].
    2:{ intros Hrun.
        destruct (IH _ _ Hsub' Hbase' Hrun) as (new & Hc & Hall & Hoff).
        exists new. split_and!; [done|done|]. intros Hi.
        by destruct (Hoff Hi). }
    unfold bind at 1.
    destruct (upload_file_to_liferay_carries (join SOURCE_FOLDER filename)
                description s) as (here & Hhere & Hcar & Hoff).
    pose proof (Hbase (filename, description) ltac:(constructor)) as Hb.
    cbn [fst] in Hb. rewrite Hb in Hcar.
    destruct (upload_file_to_liferay E _ _ _ _ _ _ s) as [[success message] s1].
    cbn [snd fst] in Hhere, Hoff.
    assert (Hsend : Forall (sends_description_from all) here).
    { eapply Forall_impl; [exact Hcar|]. intros c. apply carries_sends.
      apply Hsub. constructor. }
    destruct success; intros Hrun;
      destruct (IH _ _ Hsub' Hbase' Hrun) as (new & Hc & Hall & Hoff');
      exists (here ++ new); (split_and!;
        [by rewrite Hc, Hhere, <- app_assoc|by apply Forall_app|]);
      intros Hi; destruct (Hoff Hi) as [-> Hfalse]; [done|].
    destruct (Hoff' Hi) as [-> Hup]. done.
Qed.

Lemma individual_loop_names items results (s s' : St E) r seen :
  individual_loop items results s = (r, s') ->
  names_of results ≡ₚ seen ->
  sublist (uploaded results).*1 seen ->
  sublist (failed results).*1 seen ->
  sublist (skipped results).*1 seen ->
  names_of r ≡ₚ seen ++ items.*1
  /\ sublist (uploaded r).*1 (seen ++ items.*1)
  /\ sublist (failed r).*1 (seen ++ items.*1)
  /\ sublist (skipped r).*1 (seen ++ items.*1).
Proof.
  revert results s seen.
  induction items as [|[filename description] rest IH];
    intros results s seen.
  - cbn. unfold ret. intros [= <- <-] Hp H1 H2 H3. by rewrite app_nil_r.
  - replace (seen ++ ((filename, description) :: rest).*1)
      with ((seen ++ [filename]) ++ rest.*1) by (by rewrite <- app_assoc).
    cbn [Main.individual_loop]. unfold bind at 1, ask.
    destruct (path_exists E _ (world s)); cbn [negb].
    2:{ intros Hrun Hp H1 H2 H3. eapply IH; [exact Hrun|..];
          cbn [uploaded failed skipped].
        - rewrite fmap_app. cbn [fmap list_fmap fst].
          by rewrite !app_assoc, <- (app_assoc _ _ (skipped results).*1), Hp.
        - by apply sublist_inserts_r.
        - by apply sublist_inserts_r.
        - rewrite fmap_app. by apply sublist_app. }
    unfold bind at 1.
    destruct (upload_file_to_liferay E _ _ _ _ _ _ s) as [[success message] s1].
    destruct success; intros Hrun Hp H1 H2 H3;
      (eapply IH; [exact Hrun|..]); cbn [uploaded failed skipped].
    + rewrite fmap_app. cbn [fmap list_fmap fst]. rewrite <- Hp.
      rewrite <- !app_assoc. apply Permutation_app_head. cbn [app].
      rewrite app_assoc. apply Permutation_cons_append.
    + rewrite fmap_app. by apply sublist_app.
    + by apply sublist_inserts_r.
    + by apply sublist_inserts_r.
    + rewrite fmap_app. cbn [fmap list_fmap fst]. rewrite <- Hp.
      rewrite <- !app_assoc. do 2 apply Permutation_app_head. cbn [app].
      apply Permutation_cons_append.
    + by apply sublist_inserts_r.
    + rewrite fmap_app. by apply sublist_app.
    + by apply sublist_inserts_r.
Qed.

(** X26: [_upload_files_individually] puts every file name of
    [files_with_descriptions] in exactly one of [uploaded], [failed] and
    [skipped], each in the order of the dict. *)
Theorem upload_files_individually_accounts_for_every_file items (s : St E) :
  let r := (_upload_files_individually E join py_format SOURCE_FOLDER SITE_ID
              FOLDER_ID initialised items s).1 in
  (uploaded r).*1 ++ (failed r).*1 ++ (skipped r).*1 ≡ₚ items.*1
  /\ sublist (uploaded r).*1 items.*1
  /\ sublist (failed r).*1 items.*1
  /\ sublist (skipped r).*1 items.*1.
Proof.
  cbn zeta. unfold _upload_files_individually.
  destruct (individual_loop items no_results s) as [r s'] eqn:Hrun.
  cbn [fst].
  by apply (individual_loop_names items no_results s s' r []).
Qed.

(** X27: when the files are named as [os.listdir] names them (the base name
    of the joined path is the name), every upload [_upload_files_individually]
    makes sends the description found for that file name, and every
    description it sets afterwards is one of those found; without an
    uploader no call is made and nothing is reported as uploaded. *)
Theorem upload_files_individually_sends_found_descriptions items (s : St E) :
  (forall p, p ∈ items -> basename E (join SOURCE_FOLDER p.1) = p.1) ->
  exists new,
    calls (_upload_files_individually E join py_format SOURCE_FOLDER SITE_ID
             FOLDER_ID initialised items s).2 = calls s ++ new
    /\ Forall (sends_description_from items) new
    /\ (initialised = false ->
        new = []
        /\ uploaded (_upload_files_individually E join py_format SOURCE_FOLDER
                       SITE_ID FOLDER_ID initialised items s).1 = []).
Proof.
  intros Hbase. unfold _upload_files_individually.
  destruct (individual_loop items no_results s) as [r s'] eqn:Hrun.
  cbn [fst snd].
  by apply (individual_loop_spec items items no_results s s' r).
Qed.

Lemma dict_contains_setitem {V} (k k' : str) (v : V) (d : Matcher.dict V) :
  Matcher.dict_contains k (Matcher.dict_setitem k' v d)
  = bool_decide (k = k') || Matcher.dict_contains k d.
Proof.
  apply eq_true_iff_eq.
  rewrite orb_true_iff, bool_decide_eq_true, !MatcherFacts.dict_contains_spec,
    MatcherFacts.dict_setitem_keys.
  destruct (Matcher.dict_contains k' d) eqn:Hc.
  - apply MatcherFacts.dict_contains_spec in Hc. split; [by right|].
    intros [->|?]; done.
  - rewrite elem_of_app, list_elem_of_singleton. tauto.
Qed.

(** What the loop that prepares the batch keeps true of [files_list] and
    [metadata]. *)
Local Abbreviation prepared all fm :=
  (Forall (fun fp => exists filename,
             fp = join SOURCE_FOLDER filename
             /\ filename ∈ all.*1
             /\ Matcher.dict_contains filename fm.2 = true) fm.1
   /\ Forall (fun item : str * Matcher.dict str =>
                exists d, item.2 = [(lit "description", d)]
                          /\ (item.1, d) ∈ all) fm.2).

Lemma prepare_batch_spec (all items : Matcher.dict str) w files_list metadata :
  (forall p, p ∈ items -> p ∈ all) ->
  prepared all (files_list, metadata) ->
  prepared all (prepare_batch items w files_list metadata)
  /\ (Forall (fun p => path_exists E (join SOURCE_FOLDER p.1) w = false) items ->
      prepare_batch items w files_list metadata = (files_list, metadata)).
Proof.
  revert files_list metadata.
  induction items as [|[filename description] rest IH];
    intros files_list metadata Hsub [Hfiles Hmeta]; [done|].
  cbn [Main.prepare_batch].
  assert (Hsub' : forall p, p ∈ rest -> p ∈ all)
    by (intros p Hp; apply Hsub; by constructor).
  destruct (path_exists E _ w) eqn:Hex.
  - split.
    + apply IH; [done|]. cbn [fst snd] in *. split.
      * apply Forall_app. split.
        -- eapply Forall_impl; [exact Hfiles|].
           intros fp (name & -> & Hin & Hc). exists name.
           split_and!; [done|done|]. rewrite dict_contains_setitem, Hc.
           apply orb_true_r.
        -- constructor; [|constructor]. exists filename.
           split_and!; [done| |].
           ++ apply (list_elem_of_fmap_2 fst _ (filename, description)).
              apply Hsub. constructor.
           ++ rewrite dict_contains_setitem.
              by rewrite bool_decide_eq_true_2.
      * apply MatcherMore.Forall_dict_setitem; [done|].
        exists description. split; [done|]. apply Hsub. constructor.
    + intros Hnone. apply Forall_cons in Hnone as [Hno _]. cbn [fst] in Hno.
      congruence.
  - split; [by apply IH|]. intros Hnone. apply Forall_cons in Hnone as [_ Hno].
    by apply IH.
Qed.

Lemma build_description_prepared (all : Matcher.dict str) files_list metadata
    fp i total d :
  (forall p, p ∈ all -> basename E (join SOURCE_FOLDER p.1) = p.1) ->
  prepared all (files_list, metadata) ->
  fp ∈ files_list ->
  Batch.build_description E [] (Some metadata) (basename E fp) i total
  = Some d ->
  (basename E fp, d) ∈ all.
Proof.
  intros Hbase [Hfiles Hmeta] Hin. cbn [fst snd] in *.
  rewrite Forall_forall in Hfiles.
  destruct (Hfiles fp Hin) as (filename & -> & Hname & Hc).
  apply list_elem_of_fmap in Hname as (p & -> & Hp). rewrite (Hbase p Hp).
  unfold Batch.build_description. cbn [nonempty mbind option_bind].
  rewrite Hc. destruct metadata as [|m0 md]; [done|]. cbn [nonempty andb].
  destruct (MatcherMore.dict_getitem_contains _ _ Hc) as [fm Hget].
  rewrite Hget. apply MatcherMore.dict_getitem_sound in Hget.
  rewrite Forall_forall in Hmeta.
  destruct (Hmeta _ Hget) as (d' & Hfm & Hd'). cbn [fst snd] in Hfm, Hd'.
  rewrite Hfm. cbn. rewrite bool_decide_eq_true_2 by done. by intros [= <-].
Qed.

Lemma batch_loop_sends (all : Matcher.dict str) metadata files i total acc
    (s : St E) :
  (forall fp j n d,
     fp ∈ files ->
     Batch.build_description E [] (Some metadata) (basename E fp) j n = Some d ->
     (basename E fp, d) ∈ all) ->
  exists new,
    calls (Batch.batch_loop E SITE_ID FOLDER_ID [] true (Some metadata) files i
             total acc s).2 = calls s ++ new
    /\ Forall (sends_description_from all) new.
Proof.
  revert i acc s. induction files as [|fp rest IH]; intros i acc s Hdesc.
  - exists []. cbn. by rewrite app_nil_r.
  - assert (Hdesc' : forall fp j n d,
              fp ∈ rest ->
              Batch.build_description E [] (Some metadata) (basename E fp) j n
              = Some d ->
              (basename E fp, d) ∈ all)
      by (intros fp' j n d Hin; apply Hdesc; by constructor).
    cbn [Batch.batch_loop]. unfold bind at 1, ask.
    destruct (path_exists E fp (world s)); cbn [negb]; [|by apply IH].
    destruct (Batch.build_description _ _ _ _ _ _) as [description|] eqn:Hd.
    2:{ exists []. cbn. by rewrite app_nil_r. }
    apply Hdesc in Hd; [|constructor].
    unfold bind at 1.
    pose proof (ReconcilerFacts.check_file_exists_calls E SITE_ID FOLDER_ID
                  (basename E fp) s) as Hc.
    destruct (Reconciler.check_file_exists _ _ _ _ s) as [existing s1].
    cbn [snd] in Hc. unfold bind at 1.
    destruct (upload_or_replace_file_carries fp SITE_ID FOLDER_ID description
                true (Batch.batch_change_log i total) s1)
      as (ups & Hups & Hcar).
    destruct (Reconciler.upload_or_replace_file _ _ _ _ _ _ _ s1)
      as [result s2].
    cbn [snd] in Hups.
    assert (Hhere : exists new,
              calls s2 = calls s ++ new
              /\ Forall (sends_description_from all) new).
    { exists (GetFileEntries SITE_ID FOLDER_ID :: ups). split.
      - by rewrite Hups, Hc, <- app_assoc.
      - constructor; [done|]. eapply Forall_impl; [exact Hcar|].
        intros c. by apply carries_sends. }
    destruct Hhere as (here & Hcalls & Hsend).
    assert (Hrest : forall acc',
              exists new,
                calls (Batch.batch_loop E SITE_ID FOLDER_ID [] true
                         (Some metadata) rest (S i) total acc' s2).2
                = calls s ++ new
                /\ Forall (sends_description_from all) new).
    { intros acc'. destruct (IH (S i) acc' s2 Hdesc') as (more & Hmore & Hm).
      exists (here ++ more). split.
      - by rewrite Hmore, Hcalls, <- app_assoc.
      - by apply Forall_app. }
    destruct (truthy result) eqn:Hres; [|apply Hrest].
    destruct result as [| | | | |fields]; try (exists here; by split).
    apply Hrest.
Qed.

(** X28: when the files are named as [os.listdir] names them, every upload
    of [upload_files_batch_to_liferay] sends the description found for that
    file name, and every description it sets afterwards is one of those
    found; without an uploader, or when none of the files exists, it
    returns an error and makes no call. *)
Theorem upload_files_batch_to_liferay_sends_found_descriptions items
    (s : St E) :
  (forall p, p ∈ items -> basename E (join SOURCE_FOLDER p.1) = p.1) ->
  (exists new,
     calls (upload_files_batch_to_liferay E join SOURCE_FOLDER SITE_ID
              FOLDER_ID initialised items s).2 = calls s ++ new
     /\ Forall (sends_description_from items) new)
  /\ (initialised = false
      \/ Forall (fun p => path_exists E (join SOURCE_FOLDER p.1) (world s)
                          = false) items ->
      exists message,
        upload_files_batch_to_liferay E join SOURCE_FOLDER SITE_ID FOLDER_ID
          initialised items s = (Ok (BatchError message), s)).
Proof.
  intros Hbase.
  assert (Hinit : prepared items (([] : list str),
                                  ([] : Matcher.dict (Matcher.dict str))))
    by (split; constructor).
  destruct (prepare_batch_spec items items (world s) [] []
              ltac:(done) Hinit) as [Hprep Hnone].
  unfold upload_files_batch_to_liferay. split.
  - destruct initialised; cbn [negb].
    2:{ exists []. unfold ret. cbn [snd]. by rewrite app_nil_r. }
    unfold bind at 1, ask.
    destruct (prepare_batch items (world s) [] []) as [files_list metadata].
    destruct (nonempty files_list); cbn [negb].
    2:{ exists []. unfold ret. cbn [snd]. by rewrite app_nil_r. }
    unfold bind, Batch.upload_files_batch.
    destruct (batch_loop_sends items metadata files_list 1 (length files_list)
                Batch.empty_results s) as (new & Hnew & Hsend).
    { intros fp j n d Hin. by apply (build_description_prepared items files_list
                                       metadata). }
    destruct (Batch.batch_loop _ _ _ _ _ _ _ _ _ _ s) as [results s'].
    cbn [snd] in Hnew |- *. by exists new.
  - intros [->|Hno]; cbn [negb]; [by eexists|].
    destruct initialised; cbn [negb]; [|by eexists].
    unfold bind at 1, ask. rewrite (Hnone Hno). cbn [nonempty negb].
    by eexists.
Qed.

Lemma upload_file_internal_dict_or_falsy file_path site_id folder_id
    description change_log (s : St E) :
  nonempty description = true ->
  dict_or_falsy
    (_upload_file_internal E file_path site_id folder_id description
       change_log s).1.
Proof.
  intros Hd. unfold _upload_file_internal, bind, ask, ret.
  destruct (read_base64 E file_path (world s)) as [content|]; [|done].
  unfold client_call at 1.
  destruct (call_jsonws E _ (world s)) as [result w].
  destruct (truthy result) eqn:Hres; [|done]. rewrite Hd.
  destruct result as [| | | | |fields]; try done.
  destruct (negb _); [|done].
  unfold update_file_description, bind, client_call, ret.
  by destruct (call_jsonws E _ _).
Qed.

Lemma upload_or_replace_file_dict_or_falsy file_path site_id folder_id
    description replace_existing change_log (s : St E) :
  nonempty description = true ->
  dict_or_falsy
    (upload_or_replace_file E file_path site_id folder_id description
       replace_existing change_log s).1.
Proof.
  intros Hd. unfold upload_or_replace_file. unfold bind at 1, ask.
  destruct (path_exists E file_path (world s)); [|done]. cbn [negb].
  unfold bind at 1.
  destruct (check_file_exists E _ _ _ s) as [existing s1].
  unfold bind at 1.
  match goal with
  | |- context [(if ?c then ?a else ?b) s1] =>
      destruct ((if c then a else b) s1) as [[] s2]
  end.
  unfold bind at 1.
  pose proof (upload_file_internal_dict_or_falsy file_path site_id folder_id
                description change_log s2 Hd) as Hshape.
  destruct (_upload_file_internal E _ _ _ _ _ s2) as [result s3].
  cbn [fst] in Hshape.
  destruct (negb (truthy result) && truthy (as_json existing)
            && negb replace_existing) eqn:Hfall; [|done].
  rewrite Hd.
  unfold update_file_description, bind, client_call, ret.
  destruct (call_jsonws E _ _). cbn [fst].
  destruct existing; [done|]. by rewrite andb_false_r in Hfall.
Qed.

Lemma batch_loop_returns metadata files i total acc (s : St E) :
  (forall fp j n d,
     fp ∈ files ->
     Batch.build_description E [] (Some metadata) (basename E fp) j n = Some d ->
     nonempty d = true) ->
  exists r s',
    Batch.batch_loop E SITE_ID FOLDER_ID [] true (Some metadata) files i total
      acc s = (Ok r, s').
Proof.
  revert i acc s. induction files as [|fp rest IH]; intros i acc s Hdesc.
  - by eexists _, _.
  - assert (Hdesc' : forall fp j n d,
              fp ∈ rest ->
              Batch.build_description E [] (Some metadata) (basename E fp) j n
              = Some d ->
              nonempty d = true)
      by (intros fp' j n d Hin; apply Hdesc; by constructor).
    cbn [Batch.batch_loop]. unfold bind at 1, ask.
    destruct (path_exists E fp (world s)); cbn [negb]; [|by apply IH].
    destruct (BatchFacts.build_description_defined E [] (Some metadata)
                (basename E fp) i total ltac:(by left)) as [description Hd].
    rewrite Hd. apply Hdesc in Hd; [|constructor].
    unfold bind at 1.
    destruct (Reconciler.check_file_exists _ _ _ _ s) as [existing s1].
    unfold bind at 1.
    pose proof (upload_or_replace_file_dict_or_falsy fp SITE_ID FOLDER_ID
                  description true (Batch.batch_change_log i total) s1 Hd)
      as Hshape.
    destruct (Reconciler.upload_or_replace_file _ _ _ _ _ _ _ s1)
      as [result s2].
    cbn [fst] in Hshape.
    destruct (truthy result) eqn:Hres; [|by apply IH].
    destruct result as [| | | | |fields]; try congruence.
    by apply IH.
Qed.

(** X29: [process_files] keeps only the files with a non-empty description;
    for those, whatever the server answers, a reconciliation returns a dict
    or nothing, so that the batch started by [upload_files_batch_to_liferay]
    cannot raise at [result.get]: it always returns an error dict or a
    report. *)
Theorem upload_files_batch_to_liferay_returns items (s : St E) :
  (forall p, p ∈ items -> basename E (join SOURCE_FOLDER p.1) = p.1) ->
  Forall (fun p => nonempty p.2 = true) items ->
  exists outcome s',
    upload_files_batch_to_liferay E join SOURCE_FOLDER SITE_ID FOLDER_ID
      initialised items s = (Ok outcome, s').
Proof.
  intros Hbase Hne.
  assert (Hinit : prepared items (([] : list str),
                                  ([] : Matcher.dict (Matcher.dict str))))
    by (split; constructor).
  destruct (prepare_batch_spec items items (world s) [] []
              ltac:(done) Hinit) as [Hprep _].
  unfold upload_files_batch_to_liferay.
  destruct initialised; cbn [negb]; [|by eexists _, _].
  unfold bind at 1, ask.
  destruct (prepare_batch items (world s) [] []) as [files_list metadata].
  destruct (nonempty files_list); cbn [negb]; [|by eexists _, _].
  unfold bind, Batch.upload_files_batch.
  destruct (batch_loop_returns metadata files_list 1 (length files_list)
              Batch.empty_results s) as (r & s' & ->).
  { intros fp j n d Hin Hd.
    apply (build_description_prepared items files_list metadata) in Hd;
      [|done..].
    rewrite Forall_forall in Hne. exact (Hne _ Hd). }
  by eexists _, _.
Qed.

End MainFacts.

End MainFacts.

(** ** The samples run *)

Module SampleRuns.

Import Remote Sample MoreSamples Trace.

(** *** The matchers *)

(** [FOTO-1] and [Foto 1] share the key [foto1]; the later name is kept. *)
Example build_index_sample :
  Matcher.build_index Text.lower_basic sample_names
  = [(lit "foto1", lit "Foto 1"); (lit "plan", lit "Plan")].
Proof. vm_compute. reflexivity. Qed.

Lemma build_index_last_name_wins_witness :
  Matcher.find_matching_name (lit "foto1")
    (Matcher.build_index Text.lower_basic sample_names)
  = Some (lit "Foto 1").
Proof.
  apply (MatcherMore.build_index_last_name_wins Text.lower_basic
           [lit "FOTO-1"] [lit "Plan"] (lit "Foto 1")).
  - vm_compute. discriminate.
  - repeat constructor. vm_compute. discriminate.
Defined.

Lemma build_index_items_witness :
  Forall (fun item : str * str =>
            item.2 ∈ sample_names
            /\ item.1 = Text.normalize_text Text.lower_basic (Text.InStr item.2)
            /\ item.1 <> [] /\ item.2 <> [])
    (Matcher.build_index Text.lower_basic sample_names).
Proof.
  apply (MatcherMore.build_index_items Text.lower_basic sample_names).
  reflexivity.
Defined.

(** Both [xfoto1] and [foto1zz] share five characters with [foto12]; the
    first of them is the answer. *)
Example partial_match_sample :
  Matcher.partial_match (lit "foto12")
    [(lit "plan", lit "P"); (lit "xfoto1", lit "A"); (lit "foto1zz", lit "B")]
  = Some (lit "A", lit "xfoto1", 5%nat).
Proof. vm_compute. reflexivity. Qed.

Lemma partial_match_short_key_witness :
  Matcher.partial_match (lit "fo")
    [(lit "foto1", lit "Foto 1"); (lit "fo", lit "Fo")]
  = None.
Proof.
  apply (PartialMatchFacts.partial_match_short_key (lit "fo")).
  vm_compute. lia.
Defined.

(** *** The reconciler *)

Lemma upload_or_replace_file_deletes_then_uploads_witness :
  calls
    (Reconciler.upload_or_replace_file sim_env (lit "/in/foto1.jpg") 1 0
       (lit "new") true (lit "log") (start refusing_server)).2
  = [GetFileEntries 1 0; DeleteFileEntry (JNum 7);
     AddFileEntry 1 0 (lit "foto1.jpg") (lit "application/octet-stream")
       (lit "foto1") (lit "new") (lit "log") (lit "QQ==")]
  /\ (Reconciler.upload_or_replace_file sim_env (lit "/in/foto1.jpg") 1 0
        (lit "new") true (lit "log") (start refusing_server)).1
     = JNull.
Proof.
  destruct (ReconcilerMore.upload_or_replace_file_deletes_then_uploads sim_env
              (lit "/in/foto1.jpg") 1 0 (lit "new") (lit "log")
              (start refusing_server)
              (Reconciler.check_file_exists sim_env 1 0 (lit "foto1.jpg")
                 (start refusing_server)).2
              doc_foto1)
    as [-> _].
  - reflexivity.
  - vm_compute. reflexivity.
  - split; vm_compute; reflexivity.
Defined.

Lemma upload_file_internal_answer_not_a_dict_witness :
  (Reconciler._upload_file_internal text_env (lit "/a.jpg") 1 0 (lit "d")
     (lit "log") text_start).1 = JNull
  /\ (Reconciler._upload_file_internal text_env (lit "/a.jpg") 1 0 []
        (lit "log") text_start).1 = JStr (lit "<html>").
Proof.
  split.
  - apply (ReconcilerMore.upload_file_internal_answer_not_a_dict text_env
             (lit "/a.jpg") 1 0 (lit "d") (lit "log") text_start
             (lit "QQ==") (JStr (lit "<html>")) tt);
      [reflexivity|reflexivity|reflexivity|discriminate].
  - apply (ReconcilerMore.upload_file_internal_answer_not_a_dict text_env
             (lit "/a.jpg") 1 0 [] (lit "log") text_start
             (lit "QQ==") (JStr (lit "<html>")) tt);
      [reflexivity|reflexivity|reflexivity|discriminate].
Defined.

(** *** The batch *)

Lemma sim_env_answers_add_with_dict : answers_add_with_dict sim_env.
Proof.
  intros site_id folder_id name mime title description log content w.
  cbn. by destruct (negb _).
Qed.

Lemma upload_files_batch_reports_every_file_witness :
  exists r s',
    Batch.upload_files_batch sim_env 1 0 [] true None four_paths
      (start forgetful_server) = (Ok r, s')
    /\ (length (Batch.successful r) + length (Batch.failed r)
        + length (Batch.skipped r) = length four_paths)%nat.
Proof.
  apply (BatchMore.upload_files_batch_reports_every_file sim_env 1 0 [] true
           None four_paths (start forgetful_server)).
  - by left.
  - exact sim_env_answers_add_with_dict.
Defined.

Lemma batch_report_partitions_files_witness :
  (Batch.file_path <$> Batch.successful sample_report)
  ++ Batch.failed sample_report ++ Batch.skipped sample_report
  ≡ₚ four_paths.
Proof.
  exact (proj1 (BatchMore.batch_report_partitions_files sim_env 1 0 [] true
                  None four_paths (start forgetful_server) sample_run.2
                  sample_report BatchFacts.sample_run_report)).
Defined.

Lemma batch_replaced_exactly_the_marked_witness :
  Batch.replaced sample_report
  = List.filter (fun x => truthy (Batch.was_replaced x))
      (Batch.successful sample_report).
Proof.
  exact (proj1 (BatchMore.batch_replaced_exactly_the_marked sim_env 1 0 []
                  true None four_paths (start forgetful_server) sample_run.2
                  sample_report BatchFacts.sample_run_report)).
Defined.

Lemma batch_raises_on_result_not_a_dict_witness :
  (Batch.upload_files_batch text_env 1 0 [] true None
     [lit "/a.jpg"; lit "/b.jpg"] text_start).1 = Raised.
Proof.
  rewrite (BatchMore.batch_raises_on_result_not_a_dict text_env 1 0 [] true
             None (lit "/a.jpg") [lit "/b.jpg"] text_start
             (Reconciler.check_file_exists text_env 1 0 (lit "a.jpg")
                text_start).2
             (Reconciler.upload_or_replace_file text_env (lit "/a.jpg") 1 0
                [] true (Batch.batch_change_log 1 2)
                (Reconciler.check_file_exists text_env 1 0 (lit "a.jpg")
                   text_start).2).2
             [] None (JStr (lit "<html>")));
    [reflexivity|reflexivity|reflexivity|reflexivity| |reflexivity
    |discriminate].
  vm_compute. reflexivity.
Defined.

(** *** Updating descriptions *)

(** Two documents are named [foto1.jpg]; the one listed last is updated, and
    the name the server does not hold is reported as failed. *)
Example update_descriptions_batch_sample :
  (Descriptions.update_descriptions_batch sim_env sample_format 1 0
     (Some two_descriptions) (start twin_server)).1
  = {| Descriptions.updated := [(lit "foto1.jpg", JNum 9)];
       Descriptions.failed := [lit "foto9.jpg"] |}.
Proof. vm_compute. reflexivity. Qed.

Lemma twin_server_indexable :
  Forall Descriptions.indexable (docs twin_server).
Proof.
  repeat constructor.
  - exists doc_foto1. split; [reflexivity|]. right. by eexists.
  - exists doc_foto1_again. split; [reflexivity|]. right. by eexists.
Qed.

Lemma update_descriptions_batch_accounts_for_every_name_witness :
  (Descriptions.updated
     (Descriptions.update_descriptions_batch sim_env sample_format 1 0
        (Some two_descriptions) (start twin_server)).1).*1
  ++ Descriptions.failed
       (Descriptions.update_descriptions_batch sim_env sample_format 1 0
          (Some two_descriptions) (start twin_server)).1
  ≡ₚ two_descriptions.*1.
Proof.
  refine (proj1 (DescriptionsFacts.update_descriptions_batch_accounts_for_every_name
                   sim_env sample_format 1 0 two_descriptions
                   (start twin_server) (docs twin_server) _ _ _)).
  - reflexivity.
  - discriminate.
  - exact twin_server_indexable.
Defined.

Lemma update_descriptions_batch_reports_nothing_witness :
  (Descriptions.update_descriptions_batch sim_env sample_format 1 0
     (Some two_descriptions) (start empty_server)).1
  = Descriptions.no_results
  /\ calls (Descriptions.update_descriptions_batch sim_env sample_format 1 0
              (Some two_descriptions) (start empty_server)).2
     = [GetFileEntries 1 0].
Proof.
  apply (DescriptionsFacts.update_descriptions_batch_reports_nothing sim_env
           sample_format 1 0 two_descriptions (start empty_server)).
  - discriminate.
  - right. left. reflexivity.
Defined.

Lemma update_descriptions_batch_updates_last_entry_witness :
  exists pre e post,
    docs twin_server = pre ++ JObj e :: post
    /\ Descriptions.file_dict_key sample_format e = JStr (lit "foto1.jpg")
    /\ JNum 9 = obj_get e (lit "fileEntryId")
    /\ Forall (fun e' => forall f', e' = JObj f' ->
                 Descriptions.file_dict_key sample_format f'
                 <> JStr (lit "foto1.jpg")) post.
Proof.
  apply (DescriptionsFacts.update_descriptions_batch_updates_last_entry
           sim_env sample_format 1 0 (Some two_descriptions)
           (start twin_server) (docs twin_server) (lit "foto1.jpg") (JNum 9)).
  - reflexivity.
  - vm_compute. constructor.
Defined.

(** *** Uploading a directory *)

Lemma dir_run_report :
  Directory.upload_directory sim_env sample_dir (lit "/in") 1 0 true
    (Some [lit ".jpg"; lit ".png"]) true (start dir_server)
  = (Ok dir_report, dir_run.2).
Proof. vm_compute. reflexivity. Qed.

(** The text file is filtered out, the picture of the subdirectory that is
    gone is skipped, [foto2.png] is refused. *)
Example upload_directory_sample :
  Batch.file_path <$> Batch.successful dir_report
  = [lit "/in/foto1.jpg"; lit "/in/foto3.png"]
  /\ Batch.failed dir_report = [lit "/in/foto2.png"]
  /\ Batch.skipped dir_report = [lit "/in/sub/foto4.JPG"].
Proof. repeat split; vm_compute; reflexivity. Qed.

(** Without the subdirectories [os.listdir] names the subdirectory too; it
    is no file and is left out. *)
Example collect_files_sample :
  Directory.collect_files sim_env sample_dir (lit "/in") false
    (Some [lit ".jpg"; lit ".png"]) dir_server
  = Ok [lit "/in/foto1.jpg"; lit "/in/foto2.png"; lit "/in/foto3.png"].
Proof. vm_compute. reflexivity. Qed.

Lemma upload_directory_reports_filtered_files_witness :
  Forall (fun p => exists root name,
            p = sample_join root name
            /\ Directory.check sim_env sample_dir
                 (Some [lit ".jpg"; lit ".png"]) name = true)
    ((Batch.file_path <$> Batch.successful dir_report)
     ++ Batch.failed dir_report ++ Batch.skipped dir_report).
Proof.
  exact (proj1 (proj2 (DirectoryFacts.upload_directory_reports_filtered_files
                         sim_env sample_dir (lit "/in") 1 0 true
                         (Some [lit ".jpg"; lit ".png"]) true
                         (start dir_server) dir_run.2 dir_report
                         dir_run_report))).
Defined.

Lemma upload_directory_returns_report_witness :
  exists r s',
    Directory.upload_directory sim_env sample_dir (lit "/in") 1 0 false None
      false (start dir_server) = (Ok r, s').
Proof.
  refine (proj1 (DirectoryFacts.upload_directory_returns_report sim_env
                   sample_dir (lit "/in") 1 0 false None false
                   (start dir_server) sim_env_answers_add_with_dict _)).
  right. by eexists.
Defined.

(** *** The spreadsheet *)

(** Of the two rows with the key [foto1] the later one is kept, with its
    row number; the rows without a name or with a name of punctuation only
    leave nothing. *)
Example load_descriptions_sample :
  Excel.load_descriptions Text.lower_basic 0 1 sample_sheet
  = [(lit "foto1",
      {| Matcher.original_name := lit "FOTO-1";
         Matcher.description := lit "Desc B";
         Matcher.excel_row := 4 |})].
Proof. vm_compute. reflexivity. Qed.

Lemma find_description_for_file_not_empty_witness :
  Matcher.find_description_for_file Text.lower_basic Path.Posix
    (Excel.load_descriptions Text.lower_basic 0 1 sample_sheet)
    (lit "foto1.jpg")
  = Some (lit "Desc B")
  /\ lit "Desc B" <> [].
Proof.
  split; [vm_compute; reflexivity|].
  apply (ExcelFacts.find_description_for_file_not_empty Text.lower_basic 0 1
           Path.Posix sample_sheet (lit "foto1.jpg") (lit "Desc B")).
  vm_compute. reflexivity.
Defined.

(** *** Copying the matched files *)

Example move_loop_sample :
  Mover.move_loop Text.lower_basic Path.Posix sample_fs (lit "/src")
    (lit "/dst") (Matcher.build_index Text.lower_basic sample_names)
    [lit "foto1.jpg"; lit "zzz.png"; lit "PLAN-b.gif"]
    {| Mover.moved_count := 0; Mover.skipped_count := 0;
       Mover.matches := [] |} []
  = ({| Mover.moved_count := 2; Mover.skipped_count := 1;
        Mover.matches := [(lit "foto1.jpg", lit "Foto 1");
                          (lit "PLAN-b.gif", lit "Plan")] |},
     [lit "/dst/foto1.jpg"; lit "/dst/PLAN-b.gif"]).
Proof. vm_compute. reflexivity. Qed.

(** *** The configuration *)

(** With no file, [LIFERAY_URL] lands in [DEFAULT_CONFIG] itself; with a
    file it lands in the configuration read, and a file that holds a list
    makes [get_config] raise. *)
Example get_config_sample :
  Matcher.dict_getitem (lit "base_url")
    (Config.get_config Config.Missing url_env Config.DEFAULT_CONFIG).2
  = Some (JStr (lit "https://dms.example"))
  /\ Config.get_config
       (Config.Parsed (JObj [(lit "timeout", JNum 5)])) url_env
       Config.DEFAULT_CONFIG
     = (Ok (JObj [(lit "timeout", JNum 5);
                  (lit "base_url", JStr (lit "https://dms.example"))]),
        Config.DEFAULT_CONFIG)
  /\ (Config.get_config (Config.Parsed (JArr [JNum 1])) url_env
        Config.DEFAULT_CONFIG).1 = Raised.
Proof. repeat split; vm_compute; reflexivity. Qed.

Lemma get_config_environment_overrides_witness :
  exists c,
    (Config.get_config Config.Missing url_env Config.DEFAULT_CONFIG).1
    = Ok (JObj c)
    /\ (forall var key, (var, key) ∈ Config.env_mapping ->
        Matcher.dict_getitem key c
        = match Config.env_value url_env var with
          | Some v => Some (JStr v)
          | None => Matcher.dict_getitem key Config.DEFAULT_CONFIG
          end)
    /\ (forall k, k ∉ Config.env_mapping.*2 ->
        Matcher.dict_getitem k c = Matcher.dict_getitem k Config.DEFAULT_CONFIG).
Proof.
  apply (ConfigFacts.get_config_environment_overrides Config.Missing url_env
           Config.DEFAULT_CONFIG Config.DEFAULT_CONFIG).
  reflexivity.
Defined.

(** *** The upload flow of [main.py] *)

(** [foto1.jpg] replaces the stored document and is sent with its
    description, which the server drops and the uploader sets again;
    [foto9.jpg] is not in the folder. *)
Example upload_files_individually_sample :
  (Main._upload_files_individually sim_env sample_join sample_format
     (lit "/in") 1 0 true two_descriptions (start forgetful_server)).1
  = {| Main.uploaded :=
         [(lit "foto1.jpg", Main.msg_uploaded ++ lit "8)")];
       Main.failed := [];
       Main.skipped := [(lit "foto9.jpg", Main.msg_file_not_found)] |}
  /\ calls
       (Main._upload_files_individually sim_env sample_join sample_format
          (lit "/in") 1 0 true two_descriptions (start forgetful_server)).2
     = [GetFileEntries 1 0; DeleteFileEntry (JNum 7);
        AddFileEntry 1 0 (lit "foto1.jpg") (lit "application/octet-stream")
          (lit "foto1") (lit "A fountain") Main.script_change_log
          (lit "QQ==");
        UpdateFileEntry (JNum 8) (lit "A fountain")].
Proof. split; vm_compute; reflexivity. Qed.

(** An answer that is a text is reported as an error when no description
    is asked for, and as a failed upload otherwise. *)
Example upload_file_to_liferay_sample :
  (Main.upload_file_to_liferay text_env sample_format 1 0 true (lit "/a.jpg")
     [] text_start).1
  = (false,
     Main.msg_error
     ++ lit "AttributeError: 'str' object has no attribute 'get'")
  /\ (Main.upload_file_to_liferay text_env sample_format 1 0 true
        (lit "/a.jpg") (lit "d") text_start).1
     = (false, Main.msg_not_uploaded).
Proof. split; vm_compute; reflexivity. Qed.

Lemma two_descriptions_base_names :
  forall p, p ∈ two_descriptions ->
            basename sim_env (sample_join (lit "/in") p.1) = p.1.
Proof.
  intros p Hp. unfold two_descriptions in Hp.
  repeat (apply elem_of_cons in Hp as [->|Hp]; [vm_compute; reflexivity|]).
  by apply elem_of_nil in Hp.
Qed.

Lemma upload_files_individually_sends_found_descriptions_witness :
  exists new,
    calls
      (Main._upload_files_individually sim_env sample_join sample_format
         (lit "/in") 1 0 true two_descriptions (start forgetful_server)).2
    = new
    /\ Forall (Main.sends_description_from two_descriptions) new.
Proof.
  destruct (MainFacts.upload_files_individually_sends_found_descriptions
              sim_env sample_join sample_format (lit "/in") 1 0 true
              two_descriptions (start forgetful_server)
              two_descriptions_base_names) as (new & Hcalls & Hsend & _).
  exists new. split; [exact Hcalls|exact Hsend].
Defined.

Lemma upload_files_batch_to_liferay_sends_found_descriptions_witness :
  exists new,
    calls
      (Main.upload_files_batch_to_liferay sim_env sample_join (lit "/in") 1 0
         true two_descriptions (start forgetful_server)).2
    = new
    /\ Forall (Main.sends_description_from two_descriptions) new.
Proof.
  exact (proj1 (MainFacts.upload_files_batch_to_liferay_sends_found_descriptions
                  sim_env sample_join (lit "/in") 1 0 true two_descriptions
                  (start forgetful_server) two_descriptions_base_names)).
Defined.

Lemma upload_files_batch_to_liferay_returns_witness :
  exists outcome s',
    Main.upload_files_batch_to_liferay text_env sample_join (lit "/in") 1 0
      true two_descriptions text_start = (Ok outcome, s').
Proof.
  apply (MainFacts.upload_files_batch_to_liferay_returns text_env sample_join
           (lit "/in") 1 0 true two_descriptions text_start).
  - intros p Hp. unfold two_descriptions in Hp.
    repeat (apply elem_of_cons in Hp as [->|Hp]; [vm_compute; reflexivity|]).
    by apply elem_of_nil in Hp.
  - by repeat constructor.
Defined.

End SampleRuns.
